(** * Equipment tracker: the REST handlers of [routes/equipmentRoutes.js]
      over the table created by [db.js]

    A shallow embedding of the four route handlers and of the one table
    they read and write, followed by the properties of the request and
    response contract.

    What the embedding takes as given:
    - a handler runs from its first statement to its response before the
      next request is served;
    - the clock reading that [CURRENT_TIMESTAMP] yields is an input of the
      request;
    - a statement fails only as SQLite specifies for its arguments (a
      constraint, no key left); failures of the database file are not
      modelled;
    - the fields of a body are absent or JSON values; a number is an
      integer, and an object has no key [toString] of its own (the
      conversion of an object with such a key to a string throws, and a
      handler that converts it answers 500 from its [catch]).

    Layout:
    - [Js]: the fragment of the language the handlers rely on (strings as
      UTF-16 code units, [trim], truthiness, [typeof], [String(v)] on
      scalars, arrays and objects, the date pattern, [isNaN], [parseInt]
      with the rounding of a number, [includes], [join]);
    - [Columns], [Store]: the [equipment] table with its [AUTOINCREMENT] key,
      [NOT NULL] and [CHECK] constraints, and text as UTF-8 holds it;
    - the handlers [get_equipment], [post_equipment], [put_equipment],
      [delete_equipment], and runs of several requests;
    - [Api], [EquipmentForm], [Index]: the client of [services/api.ts], the
      checks and the submission of the form, the filters and the sort of
      the page; a request of the client reaches the server and is answered;
    - the theorems. *)

From Stdlib Require Import ZArith NArith List Ascii String DecimalString Lia.
From Stdlib Require DecimalPos.
From stdpp Require Import base option list sorting gmap.

Local Open Scope Z_scope.

(* ===================================================================== *)
(** ** The JavaScript fragment *)
(* ===================================================================== *)

Module Js.

(** A string is a sequence of UTF-16 code units. *)
Abbreviation jsstring := (list N).

(** String literals of the source, written in ASCII. *)
Definition lit (s : string) : jsstring :=
  List.map N_of_ascii (list_ascii_of_string s).

Definition str_eqb (s t : jsstring) : bool := bool_decide (s = t).

Definition is_empty (s : jsstring) : bool :=
  match s with [] => true | _ => false end.

(** [WhiteSpace] and [LineTerminator] of ECMAScript: what [trim] removes
    and what [Number(string)] skips at both ends. *)
Definition is_whitespace (c : N) : bool :=
  ((9 <=? c) && (c <=? 13) || (c =? 32) || (c =? 160) || (c =? 5760)
   || (8192 <=? c) && (c <=? 8202)
   || (c =? 8232) || (c =? 8233) || (c =? 8239) || (c =? 8287)
   || (c =? 12288) || (c =? 65279))%N.

Fixpoint drop_while (p : N -> bool) (s : jsstring) : jsstring :=
  match s with
  | [] => []
  | c :: r => if p c then drop_while p r else s
  end.

Fixpoint take_while (p : N -> bool) (s : jsstring) : jsstring :=
  match s with
  | [] => []
  | c :: r => if p c then c :: take_while p r else []
  end.

Definition trimStart (s : jsstring) : jsstring := drop_while is_whitespace s.
Definition trimEnd (s : jsstring) : jsstring := rev (trimStart (rev s)).

(** [String.prototype.trim] *)
Definition trim (s : jsstring) : jsstring := trimEnd (trimStart s).

(** A field of a parsed JSON body, as a handler sees it after
    destructuring: absent ([undefined]) or a JSON value.  Numbers are the
    integers, which [String] prints in decimal (below [10^21]); the handlers
    tell a number from a string, and zero from the other numbers, and
    nothing more.  [JObj] is an object with no key [toString] of its own,
    and there is no more to tell of it: the handlers read no key of a
    field, they convert it to a string. *)
#[warnings="-register-all"] Inductive JsVal : Type :=
| JUndefined
| JNull
| JBool (b : bool)
| JNum (n : Z)
| JStr (s : jsstring)
| JArr (elements : list JsVal)
| JObj.

#[global] Instance JsVal_eq_dec : EqDecision JsVal.
Proof.
  refine (fix go (v w : JsVal) {struct v} : Decision (v = w) :=
    match v, w with
    | JUndefined, JUndefined => left _
    | JNull, JNull => left _
    | JBool a, JBool b => cast_if (decide (a = b))
    | JNum a, JNum b => cast_if (decide (a = b))
    | JStr a, JStr b => cast_if (decide (a = b))
    | JArr l, JArr l' =>
        cast_if
          ((fix all (l l' : list JsVal) {struct l} : Decision (l = l') :=
              match l, l' with
              | [], [] => left _
              | x :: l, y :: l' => cast_if_and (go x y) (all l l')
              | _, _ => right _
              end) l l')
    | JObj, JObj => left _
    | _, _ => right _
    end); clear go; try clear all; congruence.
Defined.

(** [ToBoolean] *)
Definition truthy (v : JsVal) : bool :=
  match v with
  | JUndefined | JNull => false
  | JBool b => b
  | JNum n => negb (n =? 0)
  | JStr s => negb (is_empty s)
  | JArr _ | JObj => true
  end.

Inductive TypeTag : Type :=
| TUndefined | TObject | TBoolean | TNumber | TString.

#[global] Instance TypeTag_eq_dec : EqDecision TypeTag.
Proof. solve_decision. Defined.

Definition typeof (v : JsVal) : TypeTag :=
  match v with
  | JUndefined => TUndefined
  | JNull => TObject
  | JBool _ => TBoolean
  | JNum _ => TNumber
  | JStr _ => TString
  | JArr _ | JObj => TObject
  end.

(** [v !== undefined] and [v !== null] *)
Definition is_undefined (v : JsVal) : bool :=
  match v with JUndefined => true | _ => false end.
Definition is_null (v : JsVal) : bool :=
  match v with JNull => true | _ => false end.

(** [Array.prototype.join] *)
Fixpoint join (sep : jsstring) (l : list jsstring) : jsstring :=
  match l with
  | [] => []
  | [t] => t
  | t :: r => t ++ sep ++ join sep r
  end.

(** [ToString].  An array is converted by [Array.prototype.toString]: its
    elements, converted in turn, are joined with commas, [null] and
    [undefined] giving the empty string; an object by
    [Object.prototype.toString]. *)
Fixpoint ToString (v : JsVal) : jsstring :=
  match v with
  | JUndefined => lit "undefined"
  | JNull => lit "null"
  | JBool true => lit "true"
  | JBool false => lit "false"
  | JNum n => lit (NilZero.string_of_int (Z.to_int n))
  | JStr s => s
  | JArr elements =>
      join (lit ",")
        (List.map
           (fun e =>
              match e with
              | JUndefined | JNull => []
              | _ => ToString e
              end)
           elements)
  | JObj => lit "[object Object]"
  end.

(** [v.trim()], called by the handlers only where [typeof v] is
    ["string"]. *)
Definition trim_of (v : JsVal) : jsstring :=
  match v with JStr s => trim s | _ => [] end.

(** [Array.prototype.includes] on an array of strings: [SameValueZero]
    against each element, so only a string can be found. *)
Definition includes (l : list jsstring) (v : JsVal) : bool :=
  existsb (fun t => bool_decide (v = JStr t)) l.

(** A string as it comes back from a store of UTF-8 text
    ([String.prototype.toWellFormed]): a surrogate code unit that is not
    half of a pair is replaced by U+FFFD. *)
Definition is_high_surrogate (c : N) : bool := ((55296 <=? c) && (c <=? 56319))%N.
Definition is_low_surrogate (c : N) : bool := ((56320 <=? c) && (c <=? 57343))%N.
Definition REPLACEMENT_CHARACTER : N := 65533.

Fixpoint to_well_formed (s : jsstring) : jsstring :=
  match s with
  | [] => []
  | c :: r =>
      if is_high_surrogate c then
        match r with
        | d :: r' =>
            if is_low_surrogate d then c :: d :: to_well_formed r'
            else REPLACEMENT_CHARACTER :: to_well_formed r
        | [] => [REPLACEMENT_CHARACTER]
        end
      else if is_low_surrogate c then REPLACEMENT_CHARACTER :: to_well_formed r
      else c :: to_well_formed r
  end.

Definition is_surrogate (c : N) : bool :=
  is_high_surrogate c || is_low_surrogate c.

(** A string with no unpaired surrogate: one that UTF-8 can hold. *)
Definition well_formed (s : jsstring) : Prop := to_well_formed s = s.

Definition is_digit (c : N) : bool := ((48 <=? c) && (c <=? 57))%N.

(** The pieces of the pattern [/^\d{4}-\d{2}-\d{2}$/]: a matcher consumes
    a prefix and hands back the rest. *)
Fixpoint digits (n : nat) (s : jsstring) : option jsstring :=
  match n with
  | O => Some s
  | S n' =>
      match s with
      | c :: r => if is_digit c then digits n' r else None
      | [] => None
      end
  end.

Definition char (k : N) (s : jsstring) : option jsstring :=
  match s with
  | c :: r => if (c =? k)%N then Some r else None
  | [] => None
  end.

Definition at_end (s : jsstring) : bool := is_empty s.

(** Sequencing of two matchers. *)
Definition seq (p q : jsstring -> option jsstring) (s : jsstring)
  : option jsstring :=
  match p s with
  | Some r => q r
  | None => None
  end.

Definition hyphen : N := 45.

(** [/^\d{4}-\d{2}-\d{2}$/.test(s)] on a string. *)
Definition date_pattern (s : jsstring) : bool :=
  match
    seq (digits 4) (seq (char hyphen) (seq (digits 2)
      (seq (char hyphen) (digits 2)))) s
  with
  | Some rest => at_end rest
  | None => false
  end.

(** [/^\d{4}-\d{2}-\d{2}$/.test(v)]: the argument is converted with
    [ToString] first. *)
Definition date_regex_test (v : JsVal) : bool := date_pattern (ToString v).

(** *** [isNaN] on a string: the [StringNumericLiteral] grammar *)

Definition is_hex_digit (c : N) : bool :=
  (is_digit c || (65 <=? c) && (c <=? 70) || (97 <=? c) && (c <=? 102))%N.
Definition is_octal_digit (c : N) : bool := ((48 <=? c) && (c <=? 55))%N.
Definition is_binary_digit (c : N) : bool := ((c =? 48) || (c =? 49))%N.

Definition all_of (p : N -> bool) (s : jsstring) : bool :=
  negb (is_empty s) && forallb p s.

(** [0x..], [0o..], [0b..] (either case of the letter), unsigned. *)
Definition non_decimal_integer_literal (s : jsstring) : bool :=
  match s with
  | 48%N :: p :: ds =>
      if ((p =? 120) || (p =? 88))%N then all_of is_hex_digit ds
      else if ((p =? 111) || (p =? 79))%N then all_of is_octal_digit ds
      else if ((p =? 98) || (p =? 66))%N then all_of is_binary_digit ds
      else false
  | _ => false
  end.

Definition strip_sign (s : jsstring) : jsstring :=
  match s with
  | c :: r => if ((c =? 43) || (c =? 45))%N then r else s
  | [] => []
  end.

(** Nothing, or [e]/[E], an optional sign and at least one digit. *)
Definition exponent_part_opt (s : jsstring) : bool :=
  match s with
  | [] => true
  | e :: r => ((e =? 101) || (e =? 69))%N && all_of is_digit (strip_sign r)
  end.

Definition str_unsigned_decimal_literal (s : jsstring) : bool :=
  if str_eqb s (lit "Infinity") then true
  else
    let d1 := take_while is_digit s in
    let r1 := drop_while is_digit s in
    match r1 with
    | 46%N :: r2 =>
        let d2 := take_while is_digit r2 in
        let r3 := drop_while is_digit r2 in
        (negb (is_empty d1) || negb (is_empty d2)) && exponent_part_opt r3
    | _ => negb (is_empty d1) && exponent_part_opt r1
    end.

Definition str_numeric_literal (s : jsstring) : bool :=
  non_decimal_integer_literal s || str_unsigned_decimal_literal (strip_sign s).

(** [isNaN(s)] for a string [s]: [Number(s)] is [NaN] unless [s], with
    white space removed at both ends, is empty or a numeric literal. *)
Definition isNaN (s : jsstring) : bool :=
  let t := trim s in
  if is_empty t then false else negb (str_numeric_literal t).

(** *** [parseInt] with no radix argument *)

Definition digit_value (c : N) : Z :=
  if is_digit c then Z.of_N c - 48
  else if ((97 <=? c) && (c <=? 102))%N then Z.of_N c - 87
  else Z.of_N c - 55.

(** The integer that [parseInt] reads before it makes a number of it: the
    sign and the longest run of digits of the radix.  [None]: there is no
    digit. *)
Definition mathInt (s : jsstring) : option Z :=
  let s1 := trimStart s in
  let sign := match s1 with 45%N :: _ => -1 | _ => 1 end in
  let s2 := strip_sign s1 in
  let '(radix, s3) :=
    match s2 with
    | 48%N :: x :: r =>
        if ((x =? 120) || (x =? 88))%N then (16, r) else (10, s2)
    | _ => (10, s2)
    end in
  let ds :=
    take_while (if radix =? 16 then is_hex_digit else is_digit) s3 in
  if is_empty ds then None
  else Some (sign * fold_left (fun acc c => acc * radix + digit_value c) ds 0).

(** The number for an integer: the double nearest to it, the one with the
    even significand when two are as near.  An integer of magnitude below
    [2^53] is its own double; [None] is an infinity, for an integer past the
    largest double. *)
Definition to_double (k : Z) : option Z :=
  let a := Z.abs k in
  let e := Z.log2 a - 52 in
  if e <=? 0 then Some k
  else
    let q := Z.shiftr a e in
    let r := a - Z.shiftl q e in
    let half := Z.shiftl 1 (e - 1) in
    let q' := if (half <? r) || (r =? half) && Z.odd q then q + 1 else q in
    let m := Z.shiftl q' e in
    if 2 ^ 1024 <=? m then None else Some (Z.sgn k * m).

(** [parseInt(s)], as the JSON of an answer shows it: the double that
    [parseInt] returns, or [None] for what [JSON.stringify] prints as
    [null], which is [NaN] (no digit) or an infinity. *)
Definition parseInt (s : jsstring) : option Z :=
  match mathInt s with
  | Some k => to_double k
  | None => None
  end.

End Js.

Import Js.

(* ===================================================================== *)
(** ** The table of [db.js] *)
(* ===================================================================== *)

(** The columns of a row of [equipment] other than its key [id].  [name],
    [type] and [status] are [TEXT NOT NULL]; [lastCleanedDate] is nullable;
    the two timestamps are filled from [CURRENT_TIMESTAMP]. *)
Module Columns.
Record t : Type := mk {
  name : jsstring;
  type : jsstring;
  status : jsstring;
  lastCleanedDate : option jsstring;
  createdAt : jsstring;
  updatedAt : jsstring
}.

Definition set_name (s : jsstring) (r : t) : t :=
  mk s (type r) (status r) (lastCleanedDate r) (createdAt r) (updatedAt r).
Definition set_type (s : jsstring) (r : t) : t :=
  mk (name r) s (status r) (lastCleanedDate r) (createdAt r) (updatedAt r).
Definition set_status (s : jsstring) (r : t) : t :=
  mk (name r) (type r) s (lastCleanedDate r) (createdAt r) (updatedAt r).
Definition set_lastCleanedDate (d : option jsstring) (r : t) : t :=
  mk (name r) (type r) (status r) d (createdAt r) (updatedAt r).
Definition set_updatedAt (ts : jsstring) (r : t) : t :=
  mk (name r) (type r) (status r) (lastCleanedDate r) (createdAt r) ts.
End Columns.

(** A row as [SELECT *] returns it: the key and the other columns. *)
Definition Equipment : Type := Z * Columns.t.

(** The database file: the table, keyed by [id INTEGER PRIMARY KEY], and
    the counter SQLite keeps in [sqlite_sequence] for an [AUTOINCREMENT]
    key, the largest [id] the table has ever held. *)
Record Store : Type := mkStore {
  equipment : gmap Z Columns.t;
  sqlite_sequence : Z
}.

(** [initialize] on a new database file. *)
Definition initialize : Store :=
  {| equipment := ∅; sqlite_sequence := 0 |}.

Inductive SqliteError : Type :=
| SQLITE_FULL
| SQLITE_CONSTRAINT_NOTNULL
| SQLITE_CONSTRAINT_CHECK.

Inductive Result (A : Type) : Type :=
| Ok (a : A)
| Err (e : SqliteError).
Arguments Ok {A} a.
Arguments Err {A} e.

(** The largest key of a table, [2^63 - 1]. *)
Definition MAX_ROWID : Z := 9223372036854775807.

(** [CHECK(type IN ('Machine', 'Vessel', 'Tank', 'Mixer'))] *)
Definition CHECK_type (s : jsstring) : bool :=
  existsb (str_eqb s)
    [lit "Machine"; lit "Vessel"; lit "Tank"; lit "Mixer"].

(** [CHECK(status IN ('Active', 'Inactive', 'Under Maintenance'))] *)
Definition CHECK_status (s : jsstring) : bool :=
  existsb (str_eqb s)
    [lit "Active"; lit "Inactive"; lit "Under Maintenance"].

(** What a [TEXT] column stores for a bound parameter, as a later
    [SELECT] returns it: [null] and [undefined] bind as [NULL]; a string is
    stored as UTF-8, so it comes back with its unpaired surrogates replaced;
    a number or a boolean binds as an integer that the column's affinity
    turns into its decimal text; an array or an object binds as the text
    ["[object Object]"]. *)
Definition bind_text (v : JsVal) : option jsstring :=
  match v with
  | JUndefined | JNull => None
  | JBool true => Some (lit "1")
  | JBool false => Some (lit "0")
  | JNum n => Some (ToString (JNum n))
  | JStr s => Some (to_well_formed s)
  | JArr _ | JObj => Some (lit "[object Object]")
  end.

(** [INSERT INTO equipment (name, type, status, lastCleanedDate)
     VALUES (?, ?, ?, ?)] executed at clock reading [now].  The key is one
    more than the largest the table ever held; the statement fails when
    that was the largest key there is, or when a constraint rejects the
    row.  The result carries [this.lastID]. *)
Definition db_run_insert (name type status lastCleanedDate : JsVal)
    (now : jsstring) (st : Store) : Result (Store * Z) :=
  if MAX_ROWID <=? sqlite_sequence st then Err SQLITE_FULL
  else
    match bind_text name, bind_text type, bind_text status with
    | Some n, Some t, Some s =>
        if CHECK_type t && CHECK_status s then
          let id := sqlite_sequence st + 1 in
          let row :=
            {| Columns.name := n; Columns.type := t; Columns.status := s;
               Columns.lastCleanedDate := bind_text lastCleanedDate;
               Columns.createdAt := now; Columns.updatedAt := now |} in
          Ok ({| equipment := <[id := row]> (equipment st);
                 sqlite_sequence := id |}, id)
        else Err SQLITE_CONSTRAINT_CHECK
    | _, _, _ => Err SQLITE_CONSTRAINT_NOTNULL
    end.

(** One term of the [SET] list built by the update handler, with the
    parameter it is paired with. *)
Inductive SetClause : Type :=
| Set_name (v : JsVal)                 (* 'name = ?' *)
| Set_type (v : JsVal)                 (* 'type = ?' *)
| Set_status (v : JsVal)               (* 'status = ?' *)
| Set_lastCleanedDate (v : JsVal)      (* 'lastCleanedDate = ?' *)
| Set_updatedAt_CURRENT_TIMESTAMP.     (* 'updatedAt = CURRENT_TIMESTAMP' *)

(** The effect of one term on the row being updated; a constraint of the
    table rejects the statement. *)
Definition assign (now : jsstring) (r : Result Columns.t) (c : SetClause)
  : Result Columns.t :=
  match r with
  | Err e => Err e
  | Ok r =>
      match c with
      | Set_name v =>
          match bind_text v with
          | Some s => Ok (Columns.set_name s r)
          | None => Err SQLITE_CONSTRAINT_NOTNULL
          end
      | Set_type v =>
          match bind_text v with
          | Some s =>
              if CHECK_type s then Ok (Columns.set_type s r)
              else Err SQLITE_CONSTRAINT_CHECK
          | None => Err SQLITE_CONSTRAINT_NOTNULL
          end
      | Set_status v =>
          match bind_text v with
          | Some s =>
              if CHECK_status s then Ok (Columns.set_status s r)
              else Err SQLITE_CONSTRAINT_CHECK
          | None => Err SQLITE_CONSTRAINT_NOTNULL
          end
      | Set_lastCleanedDate v =>
          Ok (Columns.set_lastCleanedDate (bind_text v) r)
      | Set_updatedAt_CURRENT_TIMESTAMP => Ok (Columns.set_updatedAt now r)
      end
  end.

(** [ORDER BY id DESC] *)
Definition id_desc : relation Equipment := fun x y => y.1 ≤ x.1.

#[global] Instance id_desc_dec : RelDecision id_desc.
Proof. intros x y. unfold id_desc. apply Z_le_dec. Defined.

(** [SELECT * FROM equipment ORDER BY id DESC] *)
Definition db_all (st : Store) : list Equipment :=
  merge_sort id_desc (map_to_list (equipment st)).

(** [SELECT * FROM equipment WHERE id = ?] with an integer parameter;
    [None] is the [undefined] that [db.get] resolves to for no row. *)
Definition db_get_rowid (k : Z) (st : Store) : option Equipment :=
  match equipment st !! k with
  | Some r => Some (k, r)
  | None => None
  end.

(** The counter is at least the key of every row: what SQLite maintains
    for an [AUTOINCREMENT] table. *)
Definition store_wf (st : Store) : Prop :=
  ∀ k r, equipment st !! k = Some r → k ≤ sqlite_sequence st.

(* ===================================================================== *)
(** ** The handlers of [routes/equipmentRoutes.js] *)
(* ===================================================================== *)

Definition VALID_TYPES : list jsstring :=
  [lit "Machine"; lit "Vessel"; lit "Tank"; lit "Mixer"].
Definition VALID_STATUSES : list jsstring :=
  [lit "Active"; lit "Inactive"; lit "Under Maintenance"].

(** [req.body] after destructuring. *)
Record Body : Type := mkBody {
  name : JsVal;
  type : JsVal;
  status : JsVal;
  lastCleanedDate : JsVal
}.

(** The JSON documents the handlers send:
    - [Listing]: [{success: true, count, data}];
    - [Saved]: [{success: true, message, data}], where [data] is what
      [db.get] resolved to;
    - [Removed]: [{success: true, message, id}];
    - [Refused]: [{success: false, error}];
    - [Invalid]: [{success: false, error, details}];
    - [NotFound]: [{success: false, error, id}];
    - [Failed]: [{success: false, error, message}], where [message] is the
      text of the error that was caught.
    An [id] of [None] is the [null] that the JSON has for a [parseInt] that
    is [NaN] or an infinity. *)
Inductive Payload : Type :=
| Listing (count : nat) (data : list Equipment)
| Saved (message : jsstring) (data : option Equipment)
| Removed (message : jsstring) (id : option Z)
| Refused (error : jsstring)
| Invalid (error : jsstring) (details : list jsstring)
| NotFound (error : jsstring) (id : option Z)
| Failed (error : jsstring) (cause : SqliteError).

Record Response : Type := mkResponse {
  code : Z;
  payload : Payload
}.

(** [res.status(c).json(p)], and [res.json(p)] with the default status. *)
Definition res_status_json (c : Z) (p : Payload) : Response := mkResponse c p.
Definition res_json (p : Payload) : Response := mkResponse 200 p.

(** A handler either goes on to its next statement or has returned a
    response. *)
Inductive Flow (A : Type) : Type :=
| Next (a : A)
| Return (r : Response).
Arguments Next {A} a.
Arguments Return {A} r.

Definition flow_bind {A B : Type} (m : Flow A) (k : A -> Flow B) : Flow B :=
  match m with
  | Next a => k a
  | Return r => Return r
  end.

Notation "'do' x <- m ; k" := (flow_bind m (fun x => k))
  (at level 10, x name, m at level 100, k at level 200,
   format "'[v' 'do'  x  <-  m ; '/' k ']'").

(** The messages of the create handler. *)
Definition create_name_error : jsstring :=
  lit "name is required and must be a non-empty string".
Definition create_type_error : jsstring :=
  lit "type is required and must be one of: " ++ join (lit ", ") VALID_TYPES.
Definition create_status_error : jsstring :=
  lit "status is required and must be one of: "
  ++ join (lit ", ") VALID_STATUSES.
Definition date_error : jsstring :=
  lit "lastCleanedDate must be in YYYY-MM-DD format".

(** The messages of the update handler. *)
Definition update_name_error : jsstring :=
  lit "name must be a non-empty string".
Definition update_type_error : jsstring :=
  lit "type must be one of: " ++ join (lit ", ") VALID_TYPES.
Definition update_status_error : jsstring :=
  lit "status must be one of: " ++ join (lit ", ") VALID_STATUSES.

(** The [errors] array of the create handler, filled by its four [if]s. *)
Definition create_errors (b : Body) : list jsstring :=
  let errors := [] in
  let errors :=
    if negb (truthy (name b))
       || negb (bool_decide (typeof (name b) = TString))
       || is_empty (trim_of (name b))
    then errors ++ [create_name_error] else errors in
  let errors :=
    if negb (truthy (type b)) || negb (includes VALID_TYPES (type b))
    then errors ++ [create_type_error] else errors in
  let errors :=
    if negb (truthy (status b)) || negb (includes VALID_STATUSES (status b))
    then errors ++ [create_status_error] else errors in
  let errors :=
    if truthy (lastCleanedDate b) && negb (date_regex_test (lastCleanedDate b))
    then errors ++ [date_error] else errors in
  errors.

(** The [updates] and [params] arrays of the update handler, with its
    early returns. *)
Definition update_clauses (b : Body) : Flow (list SetClause) :=
  let updates := [] in
  do updates <-
    (if negb (is_undefined (name b)) then
       if negb (bool_decide (typeof (name b) = TString))
          || is_empty (trim_of (name b))
       then Return (res_status_json 400
              (Invalid (lit "Validation failed") [update_name_error]))
       else Next (updates ++ [Set_name (JStr (trim_of (name b)))])
     else Next updates);
  do updates <-
    (if negb (is_undefined (type b)) then
       if negb (includes VALID_TYPES (type b))
       then Return (res_status_json 400
              (Invalid (lit "Validation failed") [update_type_error]))
       else Next (updates ++ [Set_type (type b)])
     else Next updates);
  do updates <-
    (if negb (is_undefined (status b)) then
       if negb (includes VALID_STATUSES (status b))
       then Return (res_status_json 400
              (Invalid (lit "Validation failed") [update_status_error]))
       else Next (updates ++ [Set_status (status b)])
     else Next updates);
  do updates <-
    (if negb (is_undefined (lastCleanedDate b)) then
       if negb (is_null (lastCleanedDate b))
          && negb (date_regex_test (lastCleanedDate b))
       then Return (res_status_json 400
              (Invalid (lit "Validation failed") [date_error]))
       else Next (updates ++ [Set_lastCleanedDate (lastCleanedDate b)])
     else Next updates);
  if (length updates =? 0)%nat
  then Return (res_status_json 400 (Refused (lit "No fields to update")))
  else Next updates.

(** The key SQLite compares with when [WHERE id = ?] is given the text of
    a path parameter: the column's numeric affinity converts the text to
    an integer, or to nothing a key can equal.  The handlers are written,
    and their properties proved, for every such conversion. *)
Class RowidAffinity : Type := rowid_of_text : jsstring -> option Z.

Section Handlers.

Context {affinity : RowidAffinity}.

(** [SELECT * FROM equipment WHERE id = ?] with the path parameter. *)
Definition db_get (id : jsstring) (st : Store) : option Equipment :=
  match rowid_of_text id with
  | Some k => db_get_rowid k st
  | None => None
  end.

(** [UPDATE equipment SET ... WHERE id = ?] executed at clock reading
    [now]. *)
Definition db_run_update (sets : list SetClause) (id : jsstring)
    (now : jsstring) (st : Store) : Result Store :=
  match db_get id st with
  | None => Ok st
  | Some (k, r) =>
      match fold_left (assign now) sets (Ok r) with
      | Ok r' => Ok {| equipment := <[k := r']> (equipment st);
                       sqlite_sequence := sqlite_sequence st |}
      | Err e => Err e
      end
  end.

(** [DELETE FROM equipment WHERE id = ?] *)
Definition db_run_delete (id : jsstring) (st : Store) : Store :=
  match rowid_of_text id with
  | Some k => {| equipment := delete k (equipment st);
                 sqlite_sequence := sqlite_sequence st |}
  | None => st
  end.

(** [router.get('/equipment')] *)
Definition get_equipment (st : Store) : Store * Response :=
  let equipment := db_all st in
  (st, res_json (Listing (length equipment) equipment)).

(** [router.post('/equipment')], run at clock reading [now]. *)
Definition post_equipment (now : jsstring) (b : Body) (st : Store)
  : Store * Response :=
  let errors := create_errors b in
  if (0 <? length errors)%nat then
    (st, res_status_json 400 (Invalid (lit "Validation failed") errors))
  else
    match
      db_run_insert (JStr (trim_of (name b))) (type b) (status b)
        (if truthy (lastCleanedDate b) then lastCleanedDate b else JNull)
        now st
    with
    | Ok (st', result_id) =>
        let newEquipment := db_get_rowid result_id st' in
        (st', res_status_json 201
                (Saved (lit "Equipment created successfully") newEquipment))
    | Err e =>
        (st, res_status_json 500 (Failed (lit "Failed to create equipment") e))
    end.

(** [router.put('/equipment/:id')], run at clock reading [now]. *)
Definition put_equipment (now : jsstring) (id : jsstring) (b : Body)
    (st : Store) : Store * Response :=
  if is_empty id || isNaN id then
    (st, res_status_json 400 (Refused (lit "Invalid equipment ID")))
  else
    match db_get id st with
    | None =>
        (st, res_status_json 404
               (NotFound (lit "Equipment not found") (parseInt id)))
    | Some existing =>
        match update_clauses b with
        | Return r => (st, r)
        | Next updates =>
            let updates := updates ++ [Set_updatedAt_CURRENT_TIMESTAMP] in
            match db_run_update updates id now st with
            | Ok st' =>
                let updated := db_get id st' in
                (st', res_json
                        (Saved (lit "Equipment updated successfully") updated))
            | Err e =>
                (st, res_status_json 500
                       (Failed (lit "Failed to update equipment") e))
            end
        end
    end.

(** [router.delete('/equipment/:id')] *)
Definition delete_equipment (id : jsstring) (st : Store) : Store * Response :=
  if is_empty id || isNaN id then
    (st, res_status_json 400 (Refused (lit "Invalid equipment ID")))
  else
    match db_get id st with
    | None =>
        (st, res_status_json 404
               (NotFound (lit "Equipment not found") (parseInt id)))
    | Some existing =>
        let st' := db_run_delete id st in
        (st', res_json
                (Removed (lit "Equipment deleted successfully") (parseInt id)))
    end.

(** *** Runs of several requests *)

Inductive Request : Type :=
| GET_equipment
| POST_equipment (b : Body)
| PUT_equipment (id : jsstring) (b : Body)
| DELETE_equipment (id : jsstring).

(** The router: one request, arriving at clock reading [now]. *)
Definition handle (now : jsstring) (rq : Request) (st : Store)
  : Store * Response :=
  match rq with
  | GET_equipment => get_equipment st
  | POST_equipment b => post_equipment now b st
  | PUT_equipment id b => put_equipment now id b st
  | DELETE_equipment id => delete_equipment id st
  end.

(** Requests served one after the other, with the responses in order. *)
Fixpoint serve (calls : list (jsstring * Request)) (st : Store)
  : Store * list Response :=
  match calls with
  | [] => (st, [])
  | (now, rq) :: rest =>
      let '(st1, r) := handle now rq st in
      let '(st2, rs) := serve rest st1 in
      (st2, r :: rs)
  end.

(** The states the server can be in, starting from a new database. *)
Definition reachable (st : Store) : Prop :=
  ∃ calls, (serve calls initialize).1 = st.

End Handlers.

(** One such conversion, used to run the handlers on concrete requests:
    it reads the texts this API's client puts in the path, an optional
    minus sign and decimal digits, within the range of a key. *)
Definition rowid_of_decimal : RowidAffinity := fun s =>
  let ds := match s with 45%N :: r => r | _ => s end in
  if all_of is_digit ds then
    match mathInt s with
    | Some k =>
        if (- MAX_ROWID - 1 <=? k) && (k <=? MAX_ROWID) then Some k else None
    | None => None
    end
  else None.

(* ===================================================================== *)
(** ** Vocabulary of the request and response contract *)
(* ===================================================================== *)

(** Two rows of a listing in the order newest first: the id of the first
    is the larger. *)
Definition newer : relation Equipment := fun x y => y.1 < x.1.

(** The enumerations hold in a row, and in every row of a table. *)
Definition row_in_enums (r : Columns.t) : Prop :=
  Columns.type r ∈ VALID_TYPES ∧ Columns.status r ∈ VALID_STATUSES.

Definition enums_hold (st : Store) : Prop :=
  ∀ k r, equipment st !! k = Some r → row_in_enums r.

(** A path parameter the handlers accept as an id: [!id || isNaN(id)] is
    false. *)
Definition numeric_id (id : jsstring) : Prop :=
  is_empty id = false ∧ isNaN id = false.

(** The rules of the fields, as the contract states them: a name is a
    string that is not empty once trimmed; a type and a status are members
    of their enumerations; a date fits the pattern. *)
Definition name_ok (v : JsVal) : bool :=
  match v with
  | JStr s => negb (is_empty (trim s))
  | _ => false
  end.

Definition type_ok (v : JsVal) : bool :=
  match v with
  | JStr t => bool_decide (t ∈ VALID_TYPES)
  | _ => false
  end.

Definition status_ok (v : JsVal) : bool :=
  match v with
  | JStr t => bool_decide (t ∈ VALID_STATUSES)
  | _ => false
  end.

(** On create a date is checked when it is truthy; on update when it is
    supplied and not [null]. *)
Definition date_ok_on_create (v : JsVal) : bool :=
  negb (truthy v) || date_regex_test v.

Definition date_ok_on_update (v : JsVal) : bool :=
  is_null v || date_regex_test v.

(** A field is supplied when the body has it: its value is not
    [undefined]. *)
Definition supplied (v : JsVal) : bool := negb (is_undefined v).

(** The message of a field that breaks its rule, or nothing. *)
Definition failure (broken : bool) (message : jsstring) : list jsstring :=
  if broken then [message] else [].

(** The failures of a create request, one per field that breaks its rule,
    in the order name, type, status, date. *)
Definition create_failures (b : Body) : list jsstring :=
  failure (negb (name_ok (name b))) create_name_error
  ++ failure (negb (type_ok (type b))) create_type_error
  ++ failure (negb (status_ok (status b))) create_status_error
  ++ failure (negb (date_ok_on_create (lastCleanedDate b))) date_error.

(** The failures of an update request, one per supplied field that breaks
    its rule, in the same order. *)
Definition update_failures (b : Body) : list jsstring :=
  failure (supplied (name b) && negb (name_ok (name b))) update_name_error
  ++ failure (supplied (type b) && negb (type_ok (type b))) update_type_error
  ++ failure (supplied (status b) && negb (status_ok (status b)))
       update_status_error
  ++ failure (supplied (lastCleanedDate b)
              && negb (date_ok_on_update (lastCleanedDate b))) date_error.

(** The [SET] terms of the supplied fields, in the same order. *)
Definition clause (v : JsVal) (c : SetClause) : list SetClause :=
  if supplied v then [c] else [].

Definition supplied_clauses (b : Body) : list SetClause :=
  clause (name b) (Set_name (JStr (trim_of (name b))))
  ++ clause (type b) (Set_type (type b))
  ++ clause (status b) (Set_status (status b))
  ++ clause (lastCleanedDate b) (Set_lastCleanedDate (lastCleanedDate b)).

(** The row a successful create stores, and the row a successful update
    leaves in place of [r]. *)
Definition created_row (now : jsstring) (b : Body) : Columns.t :=
  {| Columns.name := to_well_formed (trim_of (name b));
     Columns.type := ToString (type b);
     Columns.status := ToString (status b);
     Columns.lastCleanedDate :=
       if truthy (lastCleanedDate b) then bind_text (lastCleanedDate b)
       else None;
     Columns.createdAt := now;
     Columns.updatedAt := now |}.

Definition updated_row (now : jsstring) (b : Body) (r : Columns.t)
  : Columns.t :=
  {| Columns.name :=
       if supplied (name b) then to_well_formed (trim_of (name b))
       else Columns.name r;
     Columns.type :=
       if supplied (type b) then ToString (type b) else Columns.type r;
     Columns.status :=
       if supplied (status b) then ToString (status b) else Columns.status r;
     Columns.lastCleanedDate :=
       if supplied (lastCleanedDate b) then bind_text (lastCleanedDate b)
       else Columns.lastCleanedDate r;
     Columns.createdAt := Columns.createdAt r;
     Columns.updatedAt := now |}.

Definition some_field_supplied (b : Body) : bool :=
  supplied (name b) || supplied (type b) || supplied (status b)
  || supplied (lastCleanedDate b).

(** *** Concrete requests and states used to exercise the statements *)

Definition noon : jsstring := lit "2025-12-18 12:00:00".
Definition later : jsstring := lit "2025-12-19 08:30:00".

Definition tank_body : Body :=
  mkBody (JStr (lit "  Tank 1  ")) (JStr (lit "Tank")) (JStr (lit "Active"))
         (JStr (lit "2025-12-15")).

(** The database after one create of [tank_body] at [noon]. *)
Definition one_tank : Store := (post_equipment noon tank_body initialize).1.

Definition empty_body : Body :=
  mkBody JUndefined JUndefined JUndefined JUndefined.

(** A body whose four fields all break their rules. *)
Definition bad_body : Body :=
  mkBody (JStr (lit "   ")) (JStr (lit "Pump")) (JNum 3)
         (JStr (lit "15/12/2025")).

(** A date that fits the pattern and names no day of the calendar. *)
Definition month_13_day_40 : jsstring := lit "2025-13-40".

Definition odd_date_body : Body :=
  mkBody (JStr (lit "Mixer A")) (JStr (lit "Mixer")) (JStr (lit "Active"))
         (JStr month_13_day_40).

Definition status_only : Body :=
  mkBody JUndefined JUndefined (JStr (lit "Under Maintenance")) JUndefined.

Definition empty_date_body : Body :=
  mkBody (JStr (lit "Tank 1")) (JStr (lit "Tank")) (JStr (lit "Active"))
         (JStr []).

Definition only_date (v : JsVal) : Body :=
  mkBody JUndefined JUndefined JUndefined v.

(* ===================================================================== *)
(** ** Vocabulary of the further properties *)
(* ===================================================================== *)

(** The id a response reports as created: the key of the record of a 201. *)
Definition created_key (r : Response) : option Z :=
  match payload r with
  | Saved _ (Some (k, _)) => if code r =? 201 then Some k else None
  | _ => None
  end.

(** A row as the form takes it: a name that is not empty, is its own
    trimming and has no unpaired surrogate, and a date that is [NULL] or
    fits the pattern. *)
Definition row_well_formed (r : Columns.t) : Prop :=
  Columns.name r ≠ [] ∧ trim (Columns.name r) = Columns.name r
  ∧ well_formed (Columns.name r)
  ∧ ∀ d, Columns.lastCleanedDate r = Some d → date_pattern d = true.

(** What the handlers let into a row beyond the enumerations: such a name,
    and a date that is [NULL], fits the pattern, or is the text the table
    makes of an array. *)
Definition row_as_checked (r : Columns.t) : Prop :=
  Columns.name r ≠ [] ∧ trim (Columns.name r) = Columns.name r
  ∧ well_formed (Columns.name r)
  ∧ ∀ d, Columns.lastCleanedDate r = Some d →
         date_pattern d = true ∨ d = lit "[object Object]".

(** [b2] supplies every field that [b1] supplies. *)
Definition covers (b1 b2 : Body) : Prop :=
  (supplied (name b1) = true → supplied (name b2) = true)
  ∧ (supplied (type b1) = true → supplied (type b2) = true)
  ∧ (supplied (status b1) = true → supplied (status b2) = true)
  ∧ (supplied (lastCleanedDate b1) = true →
     supplied (lastCleanedDate b2) = true).

(** A listing with the row of key [k] replaced by [r']. *)
Definition replace_row (k : Z) (r' : Columns.t) (x : Equipment) : Equipment :=
  if decide (x.1 = k) then (k, r') else x.

(** The path parameter the client writes for the id of a record: the
    template literal [`${API_BASE}/equipment/${id}`] of
    [updateEquipment] and [deleteEquipment] prints the number. *)
Definition path_of_id (id : Z) : jsstring := ToString (JNum id).

(** The integers a number holds exactly. *)
Definition MAX_SAFE_INTEGER : Z := 9007199254740991.

(** The server in state [st] at clock reading [now], as [fetch] reaches
    it: the response to one request. *)
Definition served `{RowidAffinity} (now : jsstring) (st : Store)
  : Request → Response :=
  fun rq => (handle now rq st).2.

(* ===================================================================== *)
(** ** The client of [services/api.ts] *)
(* ===================================================================== *)

Module Api.

(** What a call of the client settles to: its promise resolves with a
    value, or rejects with [new Error(message)]. *)
Inductive Outcome (A : Type) : Type :=
| Resolved (a : A)
| Thrown (message : jsstring).
Arguments Resolved {A} a.
Arguments Thrown {A} message.

(** [response.ok]: the status is in the range 200 to 299. *)
Definition ok (response : Response) : bool :=
  (200 <=? code response) && (code response <=? 299).

(** The fields [success], [error], [details] and [data] of the document
    that [response.json()] resolves to; [None] and [NoData] are the
    [undefined] of a field the document does not have. *)
Definition success (result : Payload) : bool :=
  match result with
  | Listing _ _ | Saved _ _ | Removed _ _ => true
  | Refused _ | Invalid _ _ | NotFound _ _ | Failed _ _ => false
  end.

Definition error (result : Payload) : option jsstring :=
  match result with
  | Refused e | Invalid e _ | NotFound e _ | Failed e _ => Some e
  | Listing _ _ | Saved _ _ | Removed _ _ => None
  end.

Definition details (result : Payload) : option (list jsstring) :=
  match result with
  | Invalid _ d => Some d
  | _ => None
  end.

Inductive Data : Type :=
| Rows (rows : list Equipment)
| One (row : Equipment)
| NoData.

Definition data (result : Payload) : Data :=
  match result with
  | Listing _ rows => Rows rows
  | Saved _ (Some row) => One row
  | _ => NoData
  end.

(** [a || b] where [a] and [b] are strings or [undefined]: [a] when it is
    a string that is not empty, otherwise [b]; and the same where [b] is a
    string literal. *)
Definition or_undefined (a b : option jsstring) : option jsstring :=
  match a with
  | Some s => if is_empty s then b else a
  | None => b
  end.

Definition or_else (a : option jsstring) (b : jsstring) : jsstring :=
  match a with
  | Some s => if is_empty s then b else s
  | None => b
  end.

Section Client.

(** [fetch] with the method, the path and the body of a request, resolved
    to the response of the server, whose body is a JSON document. *)
Variable fetch : Request -> Response.

Definition getEquipment : Outcome Data :=
  let response := fetch GET_equipment in
  if negb (ok response) then
    let errorData := payload response in
    Thrown (or_else (error errorData) (lit "Failed to fetch equipment"))
  else
    let result := payload response in
    if negb (success result) then
      Thrown (or_else (error result) (lit "Failed to fetch equipment"))
    else Resolved (data result).

Definition addEquipment (equipment : Body) : Outcome Data :=
  let response := fetch (POST_equipment equipment) in
  let result := payload response in
  if negb (ok response) || negb (success result) then
    Thrown (or_else
              (or_undefined (error result)
                 (join (lit ", ") <$> details result))
              (lit "Failed to add equipment"))
  else Resolved (data result).

Definition updateEquipment (id : Z) (equipment : Body) : Outcome Data :=
  let response := fetch (PUT_equipment (path_of_id id) equipment) in
  let result := payload response in
  if negb (ok response) || negb (success result) then
    Thrown (or_else
              (or_undefined (error result)
                 (join (lit ", ") <$> details result))
              (lit "Failed to update equipment"))
  else Resolved (data result).

Definition deleteEquipment (id : Z) : Outcome unit :=
  let response := fetch (DELETE_equipment (path_of_id id)) in
  let result := payload response in
  if negb (ok response) || negb (success result) then
    Thrown (or_else (error result) (lit "Failed to delete equipment"))
  else Resolved tt.

End Client.

End Api.

(* ===================================================================== *)
(** ** The form of [components/EquipmentForm.tsx] *)
(* ===================================================================== *)

Module EquipmentForm.

Definition EQUIPMENT_TYPES : list jsstring :=
  [lit "Machine"; lit "Vessel"; lit "Tank"; lit "Mixer"].
Definition STATUS_OPTIONS : list jsstring :=
  [lit "Active"; lit "Inactive"; lit "Under Maintenance"].

(** The four values the form keeps with [useState]. *)
Record State : Type := mkState {
  name : jsstring;
  type : jsstring;
  status : jsstring;
  lastCleanedDate : jsstring
}.

(** The [newErrors] object of [validateForm]; [None] is a key it does not
    have. *)
Module Errors.
Record t : Type := mk {
  name : option jsstring;
  lastCleanedDate : option jsstring
}.
End Errors.

Definition resetForm : State := mkState [] (lit "Machine") (lit "Active") [].

(** The effect that runs when [editingEquipment] changes: the form takes
    the fields of the record to edit, with [lastCleanedDate || ''] and so the
    empty string for [null]; with no record it is reset. *)
Definition load (editingEquipment : option Equipment) : State :=
  match editingEquipment with
  | Some e =>
      mkState (Columns.name e.2) (Columns.type e.2) (Columns.status e.2)
        (default [] (Columns.lastCleanedDate e.2))
  | None => resetForm
  end.

Section Form.

(** [new Date(lastCleanedDate) > today], where [today] is the end of the
    day on the clock of the browser. *)
Variable in_future : jsstring -> bool.

Definition validateForm (s : State) : Errors.t * bool :=
  let newErrors := Errors.mk None None in
  let newErrors :=
    if is_empty (trim (name s)) then
      Errors.mk (Some (lit "Name is required")) (Errors.lastCleanedDate newErrors)
    else if (length (trim (name s)) <? 2)%nat then
      Errors.mk (Some (lit "Name must be at least 2 characters"))
        (Errors.lastCleanedDate newErrors)
    else if (100 <? length (trim (name s)))%nat then
      Errors.mk (Some (lit "Name must be less than 100 characters"))
        (Errors.lastCleanedDate newErrors)
    else newErrors in
  let newErrors :=
    if negb (is_empty (lastCleanedDate s)) then
      if negb (date_pattern (lastCleanedDate s)) then
        Errors.mk (Errors.name newErrors) (Some (lit "Invalid date format"))
      else if in_future (lastCleanedDate s) then
        Errors.mk (Errors.name newErrors)
          (Some (lit "Date cannot be in the future"))
      else newErrors
    else newErrors in
  (newErrors,
   match Errors.name newErrors, Errors.lastCleanedDate newErrors with
   | None, None => true
   | _, _ => false
   end).

(** [handleSubmit]: what it passes to [onSubmit], as the JSON the client
    sends; [None] when it returns without calling [onSubmit]. *)
Definition handleSubmit (s : State) : option Body :=
  if negb (validateForm s).2 then None
  else
    Some (mkBody (JStr (trim (name s))) (JStr (type s)) (JStr (status s))
            (if negb (is_empty (lastCleanedDate s))
             then JStr (lastCleanedDate s) else JNull)).

End Form.

End EquipmentForm.

(* ===================================================================== *)
(** ** The page of [pages/Index.tsx] *)
(* ===================================================================== *)

(** [String.prototype.includes]: [q] occurs in [s]. *)
Fixpoint starts_with (s q : jsstring) : bool :=
  match q, s with
  | [], _ => true
  | _ :: _, [] => false
  | c :: q', d :: s' => (c =? d)%N && starts_with s' q'
  end.

Fixpoint string_includes (s q : jsstring) : bool :=
  starts_with s q
  || match s with
     | [] => false
     | _ :: s' => string_includes s' q
     end.

(** [a < b] on two strings: the order of the code units at the first place
    where they differ, a proper prefix coming first. *)
Fixpoint string_lt (a b : jsstring) : bool :=
  match a, b with
  | _, [] => false
  | [], _ :: _ => true
  | c :: a', d :: b' => (c <? d)%N || (c =? d)%N && string_lt a' b'
  end.

(** [Array.prototype.sort] with a comparator that orders consistently: the
    sort is stable, so its result is the one sorted arrangement in which
    elements that compare equal keep the order they had.  Inserting the
    elements from the last to the first, each before the first element it
    does not compare above, computes it. *)
Fixpoint sort_insert {A : Type} (compare : A -> A -> Z) (x : A) (l : list A)
  : list A :=
  match l with
  | [] => [x]
  | y :: l' =>
      if compare x y <=? 0 then x :: l else y :: sort_insert compare x l'
  end.

Definition sort {A : Type} (compare : A -> A -> Z) (l : list A) : list A :=
  foldr (sort_insert compare) [] l.

Module Index.

Inductive SortField : Type :=
| by_name | by_type | by_status | by_lastCleanedDate.

Inductive SortDirection : Type := asc | desc.

(** [a[sortField] ?? ''] *)
Definition value (sortField : SortField) (a : Equipment) : jsstring :=
  match sortField with
  | by_name => Columns.name a.2
  | by_type => Columns.type a.2
  | by_status => Columns.status a.2
  | by_lastCleanedDate => default [] (Columns.lastCleanedDate a.2)
  end.

Section Page.

(** [String.prototype.toLowerCase], the case mapping of Unicode. *)
Variable toLowerCase : jsstring -> jsstring.

(** The comparator given to [sort]. *)
Definition compare (sortField : SortField) (sortDirection : SortDirection)
    (a b : Equipment) : Z :=
  let aValue := toLowerCase (value sortField a) in
  let bValue := toLowerCase (value sortField b) in
  if string_lt aValue bValue then
    match sortDirection with asc => -1 | desc => 1 end
  else if string_lt bValue aValue then
    match sortDirection with asc => 1 | desc => -1 end
  else 0.

Definition filteredAndSortedEquipment (equipment : list Equipment)
    (searchQuery typeFilter statusFilter : jsstring)
    (sortField : SortField) (sortDirection : SortDirection)
  : list Equipment :=
  let result := equipment in
  let result :=
    if negb (is_empty searchQuery) then
      let query := toLowerCase searchQuery in
      List.filter
        (fun item =>
           string_includes (toLowerCase (Columns.name item.2)) query
           || string_includes (toLowerCase (Columns.type item.2)) query
           || string_includes (toLowerCase (Columns.status item.2)) query)
        result
    else result in
  let result :=
    if negb (str_eqb typeFilter (lit "all")) then
      List.filter (fun item => str_eqb (Columns.type item.2) typeFilter) result
    else result in
  let result :=
    if negb (str_eqb statusFilter (lit "all")) then
      List.filter (fun item => str_eqb (Columns.status item.2) statusFilter)
        result
    else result in
  sort (compare sortField sortDirection) result.

End Page.

(** [handleSubmit]: an update of the record being edited, or a create. *)
Definition handleSubmit (fetch : Request -> Response)
    (editingEquipment : option Equipment) (data : Body)
  : Api.Outcome Api.Data :=
  match editingEquipment with
  | Some e => Api.updateEquipment fetch e.1 data
  | None => Api.addEquipment fetch data
  end.

(** [handleDelete] *)
Definition handleDelete (fetch : Request -> Response) (id : Z)
  : Api.Outcome unit :=
  Api.deleteEquipment fetch id.

End Index.

(** A record passes the search and the two filters of the page. *)
Definition passes (toLowerCase : jsstring → jsstring)
    (searchQuery typeFilter statusFilter : jsstring) (item : Equipment)
  : bool :=
  (is_empty searchQuery
   || (string_includes (toLowerCase (Columns.name item.2))
         (toLowerCase searchQuery)
       || string_includes (toLowerCase (Columns.type item.2))
            (toLowerCase searchQuery)
       || string_includes (toLowerCase (Columns.status item.2))
            (toLowerCase searchQuery)))
  && ((str_eqb typeFilter (lit "all")
       || str_eqb (Columns.type item.2) typeFilter)
      && (str_eqb statusFilter (lit "all")
          || str_eqb (Columns.status item.2) statusFilter)).


(** *** Further concrete requests and states *)

(** A table whose counter is at the largest key. *)
Definition full_table : Store :=
  {| equipment := ∅; sqlite_sequence := MAX_ROWID |}.

(** The form as filled in for a tank, the body it submits, and a clock by
    which no date is in the future. *)
Definition tank_form : EquipmentForm.State :=
  EquipmentForm.mkState (lit "  Tank 1  ") (lit "Tank") (lit "Active")
    (lit "2025-12-15").

Definition tank_input : Body :=
  mkBody (JStr (lit "Tank 1")) (JStr (lit "Tank")) (JStr (lit "Active"))
         (JStr (lit "2025-12-15")).

Definition never_future : jsstring → bool := fun _ => false.

(** A body that supplies a name and nothing else. *)
Definition name_only (s : jsstring) : Body :=
  mkBody (JStr s) JUndefined JUndefined JUndefined.

(** A name that starts with a high surrogate that no low surrogate follows,
    and a body with that name. *)
Definition lone_surrogate_name : jsstring := 55296%N :: lit "Tank".

Definition lone_surrogate_body : Body :=
  mkBody (JStr lone_surrogate_name) (JStr (lit "Tank")) (JStr (lit "Active"))
         JNull.

(** A body whose date is an array of one date. *)
Definition array_date_body : Body :=
  mkBody (JStr (lit "Tank 2")) (JStr (lit "Tank")) (JStr (lit "Active"))
         (JArr [JStr (lit "2025-12-15")]).

(** An id past the integers a number holds exactly. *)
Definition id_2_53_plus_1 : jsstring := lit "9007199254740993".

(* ===================================================================== *)
(** ** Properties *)
(* ===================================================================== *)

Section Properties.

Context {affinity : RowidAffinity}.

(** *** [trim] *)

Lemma drop_while_spec (p : N → bool) (s : jsstring) :
  ∃ l, s = l ++ drop_while p s ∧ forallb p l = true
       ∧ ∀ c t, drop_while p s = c :: t → p c = false.
Proof.
  induction s as [|c s (l & Hs & Hl & Hhd)]; [by exists [] |].
  simpl. destruct (p c) eqn:Hc.
  - exists (c :: l). simpl. rewrite Hc, Hl. by rewrite <- Hs.
  - exists []. repeat split. by intros c' t [= <- _].
Qed.

Lemma forallb_rev (p : N → bool) (l : jsstring) :
  forallb p (rev l) = forallb p l.
Proof.
  induction l as [|c l IH]; [reflexivity |].
  simpl. rewrite forallb_app, IH. simpl.
  rewrite andb_true_r. apply andb_comm.
Qed.

(** [trim s] is [s] without a run of white space at its start and one at
    its end, and neither starts nor ends with white space. *)
Lemma trim_spec (s : jsstring) :
  ∃ l r,
    s = l ++ trim s ++ r
    ∧ forallb is_whitespace l = true ∧ forallb is_whitespace r = true
    ∧ (∀ c t, trim s = c :: t → is_whitespace c = false)
    ∧ (∀ t c, trim s = t ++ [c] → is_whitespace c = false).
Proof.
  unfold trim, trimEnd, trimStart.
  destruct (drop_while_spec is_whitespace s) as (l & Hs & Hl & Hhd).
  set (s1 := drop_while is_whitespace s) in *.
  destruct (drop_while_spec is_whitespace (rev s1)) as (l' & Hs1 & Hl' & Hhd').
  set (d := drop_while is_whitespace (rev s1)) in *.
  assert (Hs1' : s1 = rev d ++ rev l').
  { by rewrite <- rev_app_distr, <- Hs1, rev_involutive. }
  exists l, (rev l'). repeat split.
  - by rewrite <- Hs1'.
  - exact Hl.
  - by rewrite forallb_rev.
  - intros c t Hd. apply (Hhd c (t ++ rev l')). by rewrite Hs1', Hd.
  - intros t c Hd. apply (Hhd' c (rev t)).
    by rewrite <- (rev_involutive d), Hd, rev_app_distr.
Qed.

(** *** Text as the table stores it *)

Lemma to_well_formed_cases (P : jsstring → jsstring → Prop) :
  P [] [] →
  (∀ c d r, is_high_surrogate c = true → is_low_surrogate d = true →
     P r (to_well_formed r) → P (c :: d :: r) (c :: d :: to_well_formed r)) →
  (∀ c r, is_high_surrogate c = true →
     (∀ d r', r = d :: r' → is_low_surrogate d = false) →
     P r (to_well_formed r) →
     P (c :: r) (REPLACEMENT_CHARACTER :: to_well_formed r)) →
  (∀ c r, is_high_surrogate c = false → is_low_surrogate c = true →
     P r (to_well_formed r) →
     P (c :: r) (REPLACEMENT_CHARACTER :: to_well_formed r)) →
  (∀ c r, is_surrogate c = false →
     P r (to_well_formed r) → P (c :: r) (c :: to_well_formed r)) →
  ∀ s, P s (to_well_formed s).
Proof.
  intros Hnil Hpair Hhigh Hlow Hplain s.
  assert (Hlen : ∀ n s, (length s ≤ n)%nat → P s (to_well_formed s)).
  { clear s. induction n as [|n IH]; intros [|c r] Hs; try exact Hnil;
      cbn [length] in Hs; [lia |].
    cbn [to_well_formed].
    destruct (is_high_surrogate c) eqn:Hc.
    - destruct r as [|d r'].
      + apply (Hhigh c []); [done | done | exact Hnil].
      + destruct (is_low_surrogate d) eqn:Hd.
        * apply Hpair; [done | done |]. apply IH. cbn [length] in Hs. lia.
        * apply Hhigh; [done | by intros ? ? [= <- <-] |]. apply IH. lia.
    - destruct (is_low_surrogate c) eqn:Hc'.
      + apply Hlow; [done | done |]. apply IH. lia.
      + apply Hplain; [unfold is_surrogate; by rewrite Hc, Hc' |].
        apply IH. lia. }
  by apply (Hlen (length s)).
Qed.

Lemma surrogate_halves (c : N) :
  is_high_surrogate c = true → is_low_surrogate c = false.
Proof.
  unfold is_high_surrogate, is_low_surrogate.
  intros [H1 H2]%andb_true_iff. apply N.leb_le in H1, H2.
  apply andb_false_iff. left. apply N.leb_gt. lia.
Qed.

Lemma replacement_plain : is_surrogate REPLACEMENT_CHARACTER = false.
Proof. reflexivity. Qed.

Lemma to_well_formed_plain_head (c : N) (r : jsstring) :
  is_surrogate c = false → to_well_formed (c :: r) = c :: to_well_formed r.
Proof.
  unfold is_surrogate. intros [Hh Hl]%orb_false_iff.
  cbn [to_well_formed]. by rewrite Hh, Hl.
Qed.

Lemma to_well_formed_plain (s : jsstring) :
  forallb (λ c, negb (is_surrogate c)) s = true → to_well_formed s = s.
Proof.
  induction s as [|c s IH]; [done |]. cbn [forallb].
  intros [Hc Hs]%andb_true_iff. apply negb_true_iff in Hc.
  rewrite to_well_formed_plain_head by done. by rewrite IH.
Qed.

Lemma to_well_formed_length (s : jsstring) :
  length (to_well_formed s) = length s.
Proof.
  apply (to_well_formed_cases (λ s t, length t = length s));
    intros; cbn [length]; congruence.
Qed.

Lemma to_well_formed_nil (s : jsstring) : to_well_formed s = [] ↔ s = [].
Proof.
  split; [| by intros ->].
  intros Hs. pose proof (to_well_formed_length s) as Hlen.
  rewrite Hs in Hlen. by destruct s.
Qed.

(** Replacing the unpaired surrogates leaves none to replace. *)
Lemma to_well_formed_idem (s : jsstring) :
  to_well_formed (to_well_formed s) = to_well_formed s.
Proof.
  apply (to_well_formed_cases (λ s t, to_well_formed t = t)).
  - done.
  - intros c d r Hc Hd IH. cbn [to_well_formed]. by rewrite Hc, Hd, IH.
  - intros c r _ _ IH.
    rewrite to_well_formed_plain_head by apply replacement_plain.
    by rewrite IH.
  - intros c r _ _ IH.
    rewrite to_well_formed_plain_head by apply replacement_plain.
    by rewrite IH.
  - intros c r Hc IH. rewrite to_well_formed_plain_head by done. by rewrite IH.
Qed.

(** Each code unit is kept or replaced. *)
Lemma to_well_formed_units (s : jsstring) :
  Forall2 (λ c' c, c' = c ∨ c' = REPLACEMENT_CHARACTER) (to_well_formed s) s.
Proof.
  apply (to_well_formed_cases
           (λ s t, Forall2 (λ c' c, c' = c ∨ c' = REPLACEMENT_CHARACTER) t s));
    intros; repeat (constructor; [by auto |]); first [done | constructor].
Qed.

Lemma whitespace_plain (c : N) : is_whitespace c = true → is_surrogate c = false.
Proof.
  intros Hws. destruct (is_surrogate c) eqn:Hs; [| done].
  exfalso. revert Hws. apply not_true_iff_false.
  unfold is_surrogate, is_high_surrogate, is_low_surrogate in Hs.
  assert (Hc : (55296 ≤ c ≤ 57343)%N).
  { apply orb_true_iff in Hs as [[H1 H2]%andb_true_iff|[H1 H2]%andb_true_iff];
      apply N.leb_le in H1, H2; lia. }
  unfold is_whitespace.
  repeat (apply orb_false_iff; split);
    first [apply N.eqb_neq; lia
          | apply andb_false_iff; first [left; apply N.leb_gt; lia
                                        | right; apply N.leb_gt; lia]].
Qed.

Lemma digit_plain (c : N) : is_digit c = true → is_surrogate c = false.
Proof.
  unfold is_digit. intros [H1 H2]%andb_true_iff. apply N.leb_le in H1, H2.
  unfold is_surrogate, is_high_surrogate, is_low_surrogate.
  apply orb_false_iff; split; apply andb_false_iff; left; apply N.leb_gt; lia.
Qed.

(** White space before or after a string is out of the way of the
    replacement. *)
Lemma to_well_formed_app_l (l s : jsstring) :
  forallb is_whitespace l = true →
  to_well_formed (l ++ s) = l ++ to_well_formed s.
Proof.
  induction l as [|c l IH]; [done |]. cbn [forallb app].
  intros [Hc Hl]%andb_true_iff.
  rewrite to_well_formed_plain_head by (by apply whitespace_plain).
  by rewrite IH.
Qed.

Lemma to_well_formed_app_r (s r : jsstring) :
  forallb is_whitespace r = true →
  to_well_formed (s ++ r) = to_well_formed s ++ r.
Proof.
  intros Hr.
  assert (Hplain : to_well_formed r = r).
  { apply to_well_formed_plain. apply forallb_forall. intros c Hc.
    rewrite forallb_forall in Hr. by rewrite (whitespace_plain c (Hr c Hc)). }
  assert (Hhd : ∀ d r', r = d :: r' → is_low_surrogate d = false).
  { intros d r' ->. cbn [forallb] in Hr. apply andb_true_iff in Hr as [Hd _].
    apply whitespace_plain in Hd. unfold is_surrogate in Hd.
    by apply orb_false_iff in Hd as [_ ?]. }
  apply (to_well_formed_cases
           (λ s t, to_well_formed (s ++ r) = t ++ r)).
  - exact Hplain.
  - intros c d s' Hc Hd IH. cbn [app to_well_formed]. by rewrite Hc, Hd, IH.
  - intros c s' Hc Hnext IH. cbn [app to_well_formed]. rewrite Hc.
    destruct s' as [|d s''].
    + cbn [app]. destruct r as [|d r']; [done |].
      by rewrite (Hhd d r' eq_refl), Hplain.
    + cbn [app]. rewrite (Hnext d s'' eq_refl). by rewrite <- IH.
  - intros c s' Hc Hc' IH. cbn [app to_well_formed]. by rewrite Hc, Hc', IH.
  - intros c s' Hc IH. cbn [app].
    rewrite to_well_formed_plain_head by done. by rewrite IH.
Qed.

Lemma to_well_formed_trim (s : jsstring) :
  to_well_formed s = s → to_well_formed (trim s) = trim s.
Proof.
  destruct (trim_spec s) as (l & r & Hs & Hl & Hr & _).
  intros Hwf.
  assert (H : to_well_formed (l ++ trim s ++ r) = l ++ trim s ++ r)
    by (by rewrite <- Hs).
  rewrite to_well_formed_app_l, to_well_formed_app_r in H by done.
  apply app_inv_head in H. by apply app_inv_tail in H.
Qed.

(** *** The date pattern *)

Lemma char_Some (k : N) (s rest : jsstring) :
  char k s = Some rest ↔ s = k :: rest.
Proof.
  destruct s as [|c r]; simpl; [split; discriminate |].
  destruct (N.eqb_spec c k) as [->|Hne]; split; intros ?; by simplify_eq.
Qed.

Lemma digits_Some (n : nat) (s rest : jsstring) :
  digits n s = Some rest ↔
  ∃ ds, s = ds ++ rest ∧ length ds = n ∧ forallb is_digit ds = true.
Proof.
  revert s. induction n as [|n IH]; intros s; simpl.
  - split.
    + intros [= ->]. by exists [].
    + intros ([|] & -> & Hlen & _); [reflexivity | discriminate].
  - destruct s as [|c r].
    + split; [discriminate |]. intros ([|] & Heq & Hlen & _); discriminate.
    + destruct (is_digit c) eqn:Hc.
      * rewrite IH. split.
        -- intros (ds & -> & <- & Hds). exists (c :: ds). simpl.
           by rewrite Hc, Hds.
        -- intros ([|c' ds] & Heq & Hlen & Hds); [discriminate |].
           injection Heq as -> ->. injection Hlen as Hlen.
           apply andb_true_iff in Hds as [_ Hds]. eauto.
      * split; [discriminate |].
        intros ([|c' ds] & Heq & Hlen & Hds); [discriminate |].
        injection Heq as -> ->. simpl in Hds. by rewrite Hc in Hds.
Qed.

(** The pattern is a matter of shape only: four digits, a hyphen, two
    digits, a hyphen, two digits, and nothing else. *)
Lemma date_pattern_shape (s : jsstring) :
  date_pattern s = true ↔
  ∃ yyyy mm dd,
    s = yyyy ++ [hyphen] ++ mm ++ [hyphen] ++ dd
    ∧ length yyyy = 4%nat ∧ length mm = 2%nat ∧ length dd = 2%nat
    ∧ forallb is_digit yyyy = true ∧ forallb is_digit mm = true
    ∧ forallb is_digit dd = true.
Proof.
  unfold date_pattern, seq. split.
  - destruct (digits 4 s) as [r1|] eqn:H1; [|discriminate].
    destruct (char hyphen r1) as [r2|] eqn:H2; [|discriminate].
    destruct (digits 2 r2) as [r3|] eqn:H3; [|discriminate].
    destruct (char hyphen r3) as [r4|] eqn:H4; [|discriminate].
    destruct (digits 2 r4) as [r5|] eqn:H5; [|discriminate].
    destruct r5; [|discriminate]. intros _.
    apply digits_Some in H1 as (yyyy & -> & ? & ?).
    apply char_Some in H2 as ->.
    apply digits_Some in H3 as (mm & -> & ? & ?).
    apply char_Some in H4 as ->.
    apply digits_Some in H5 as (dd & -> & ? & ?).
    exists yyyy, mm, dd. rewrite app_nil_r. auto 10.
  - intros (yyyy & mm & dd & -> & Hy & Hm & Hd & Hyd & Hmd & Hdd).
    assert (digits 4 (yyyy ++ [hyphen] ++ mm ++ [hyphen] ++ dd)
            = Some ([hyphen] ++ mm ++ [hyphen] ++ dd)) as ->
      by (apply digits_Some; eauto).
    cbn [app char]. rewrite N.eqb_refl.
    assert (digits 2 (mm ++ hyphen :: dd) = Some (hyphen :: dd)) as ->
      by (apply digits_Some; eauto).
    cbn [char]. rewrite N.eqb_refl.
    assert (digits 2 dd = Some []) as ->; [|reflexivity].
    apply digits_Some. exists dd. by rewrite app_nil_r.
Qed.

(** A string of the shape of a date is stored as it is. *)
Lemma to_well_formed_date (d : jsstring) :
  date_pattern d = true → to_well_formed d = d.
Proof.
  intros (yyyy & mm & dd & -> & _ & _ & _ & Hy & Hm & Hd)%date_pattern_shape.
  apply to_well_formed_plain. rewrite !forallb_app. cbn [forallb].
  assert (Hdigits : ∀ ds, forallb is_digit ds = true →
                          forallb (λ c, negb (is_surrogate c)) ds = true).
  { intros ds Hds. apply forallb_forall. intros c Hc.
    rewrite forallb_forall in Hds. by rewrite (digit_plain c (Hds c Hc)). }
  by rewrite !Hdigits.
Qed.

(** *** The checks of the handlers against the rules of the fields *)

Lemma includes_spec (l : list jsstring) (v : JsVal) :
  includes l v = true ↔ ∃ t, v = JStr t ∧ t ∈ l.
Proof.
  unfold includes. rewrite existsb_exists. split.
  - intros (t & Hin & Heq). apply bool_decide_eq_true in Heq.
    exists t. split; [exact Heq | by apply list_elem_of_In].
  - intros (t & -> & Hin). exists t.
    split; [by apply list_elem_of_In | by apply bool_decide_eq_true].
Qed.

Lemma includes_string (l : list jsstring) (t : jsstring) :
  includes l (JStr t) = bool_decide (t ∈ l).
Proof.
  apply eq_true_iff_eq. rewrite includes_spec, bool_decide_eq_true.
  split; [intros (t' & [= ->] & Hin); exact Hin | eauto].
Qed.

Lemma includes_not_string (l : list jsstring) (v : JsVal) :
  typeof v ≠ TString → includes l v = false.
Proof.
  intros Hty. apply not_true_is_false. intros (t & -> & _)%includes_spec.
  by apply Hty.
Qed.

Lemma create_checks_name (v : JsVal) :
  negb (truthy v) || negb (bool_decide (typeof v = TString))
  || is_empty (trim_of v) = negb (name_ok v).
Proof.
  destruct v as [| |[]|n|[|c s]| |]; try reflexivity.
  - simpl. destruct (n =? 0); reflexivity.
  - cbn [truthy is_empty negb typeof orb trim_of name_ok].
    rewrite bool_decide_eq_true_2 by reflexivity.
    by rewrite negb_involutive.
Qed.

Lemma create_checks_enum (l : list jsstring) (v : JsVal) :
  [] ∉ l →
  negb (truthy v) || negb (includes l v)
  = negb (match v with JStr t => bool_decide (t ∈ l) | _ => false end).
Proof.
  intros Hl. destruct v as [| |b|n|t|l'|]; try reflexivity.
  - rewrite includes_not_string by discriminate. by destruct b.
  - rewrite includes_not_string by discriminate. apply orb_true_r.
  - rewrite includes_string. destruct t as [|c t]; [|reflexivity].
    by rewrite bool_decide_eq_false_2.
  - by rewrite includes_not_string.
  - by rewrite includes_not_string.
Qed.

Lemma VALID_TYPES_nonempty : [] ∉ VALID_TYPES.
Proof. by apply (bool_decide_unpack _). Qed.

Lemma VALID_STATUSES_nonempty : [] ∉ VALID_STATUSES.
Proof. by apply (bool_decide_unpack _). Qed.

Lemma create_errors_spec (b : Body) : create_errors b = create_failures b.
Proof.
  unfold create_errors, create_failures, failure, date_ok_on_create.
  rewrite create_checks_name.
  rewrite (create_checks_enum VALID_TYPES) by apply VALID_TYPES_nonempty.
  rewrite (create_checks_enum VALID_STATUSES) by apply VALID_STATUSES_nonempty.
  fold (type_ok (type b)). fold (status_ok (status b)).
  rewrite negb_orb, negb_involutive.
  destruct (negb (name_ok _)), (negb (type_ok _)), (negb (status_ok _)),
    (truthy _ && negb _); reflexivity.
Qed.

Lemma update_checks_name (v : JsVal) :
  supplied v = true →
  negb (bool_decide (typeof v = TString)) || is_empty (trim_of v)
  = negb (name_ok v).
Proof.
  destruct v as [| |[]|n|s| |]; try reflexivity; try discriminate.
  intros _. cbn [typeof trim_of name_ok].
  rewrite bool_decide_eq_true_2 by reflexivity.
  by rewrite negb_involutive.
Qed.

Lemma update_checks_enum (l : list jsstring) (v : JsVal) :
  includes l v = match v with JStr t => bool_decide (t ∈ l) | _ => false end.
Proof.
  destruct v; try (apply includes_not_string; discriminate).
  apply includes_string.
Qed.

(** The update handler's walk over the fields: it returns at the first
    supplied field that breaks its rule, then refuses a body with no
    field, and otherwise hands over the terms of the supplied fields. *)
Lemma update_clauses_spec (b : Body) :
  update_clauses b =
  match update_failures b with
  | message :: _ =>
      Return (mkResponse 400 (Invalid (lit "Validation failed") [message]))
  | [] =>
      if some_field_supplied b then Next (supplied_clauses b)
      else Return (mkResponse 400 (Refused (lit "No fields to update")))
  end.
Proof.
  unfold update_clauses, update_failures, supplied_clauses, some_field_supplied,
    failure, clause, date_ok_on_update, res_status_json.
  rewrite !update_checks_enum.
  fold (type_ok (type b)). fold (status_ok (status b)).
  fold (supplied (name b)). fold (supplied (type b)).
  fold (supplied (status b)). fold (supplied (lastCleanedDate b)).
  destruct (supplied (name b)) eqn:Hn.
  1: rewrite (update_checks_name _ Hn).
  all: rewrite ?negb_orb.
  all: destruct (name_ok (name b)), (supplied (type b)), (type_ok (type b)),
         (supplied (status b)), (status_ok (status b)),
         (supplied (lastCleanedDate b)), (is_null (lastCleanedDate b)),
         (date_regex_test (lastCleanedDate b)); reflexivity.
Qed.

Lemma failure_nil (broken : bool) (message : jsstring) :
  failure broken message = [] ↔ broken = false.
Proof. destruct broken; simpl; split; congruence. Qed.

Lemma create_failures_nil (b : Body) :
  create_failures b = [] ↔
  name_ok (name b) = true ∧ type_ok (type b) = true
  ∧ status_ok (status b) = true
  ∧ date_ok_on_create (lastCleanedDate b) = true.
Proof.
  unfold create_failures. rewrite !app_nil, !failure_nil, !negb_false_iff.
  tauto.
Qed.

Lemma update_failures_nil (b : Body) :
  update_failures b = [] ↔
  (supplied (name b) = true → name_ok (name b) = true)
  ∧ (supplied (type b) = true → type_ok (type b) = true)
  ∧ (supplied (status b) = true → status_ok (status b) = true)
  ∧ (supplied (lastCleanedDate b) = true →
     date_ok_on_update (lastCleanedDate b) = true).
Proof.
  unfold update_failures. rewrite !app_nil, !failure_nil.
  destruct (supplied (name b)), (name_ok (name b)), (supplied (type b)),
    (type_ok (type b)), (supplied (status b)), (status_ok (status b)),
    (supplied (lastCleanedDate b)), (date_ok_on_update (lastCleanedDate b));
    simpl; intuition congruence.
Qed.

Lemma name_ok_inv (v : JsVal) :
  name_ok v = true ↔ ∃ s, v = JStr s ∧ trim s ≠ [].
Proof.
  split.
  - destruct v as [| | | |s| |]; try discriminate. simpl. intros Hs.
    exists s. split; [reflexivity |]. by destruct (trim s).
  - intros (s & -> & Hs). simpl. by destruct (trim s).
Qed.

Lemma type_ok_inv (v : JsVal) :
  type_ok v = true ↔ ∃ t, v = JStr t ∧ t ∈ VALID_TYPES.
Proof.
  split.
  - destruct v as [| | | |t| |]; try discriminate. simpl.
    intros Ht%bool_decide_eq_true. eauto.
  - intros (t & -> & Ht). by apply bool_decide_eq_true.
Qed.

Lemma status_ok_inv (v : JsVal) :
  status_ok v = true ↔ ∃ t, v = JStr t ∧ t ∈ VALID_STATUSES.
Proof.
  split.
  - destruct v as [| | | |t| |]; try discriminate. simpl.
    intros Ht%bool_decide_eq_true. eauto.
  - intros (t & -> & Ht). by apply bool_decide_eq_true.
Qed.

(** *** The constraints of the table against the enumerations of the
    handlers *)

Lemma CHECK_type_spec (t : jsstring) : CHECK_type t = true ↔ t ∈ VALID_TYPES.
Proof.
  unfold CHECK_type, VALID_TYPES. rewrite existsb_exists. split.
  - intros (t' & Hin & ->%bool_decide_eq_true). by apply list_elem_of_In.
  - intros Hin. exists t. split; [by apply list_elem_of_In |].
    by apply bool_decide_eq_true.
Qed.

Lemma CHECK_status_spec (t : jsstring) :
  CHECK_status t = true ↔ t ∈ VALID_STATUSES.
Proof.
  unfold CHECK_status, VALID_STATUSES. rewrite existsb_exists. split.
  - intros (t' & Hin & ->%bool_decide_eq_true). by apply list_elem_of_In.
  - intros Hin. exists t. split; [by apply list_elem_of_In |].
    by apply bool_decide_eq_true.
Qed.

(** The words of the enumerations are stored as they are. *)
Lemma to_well_formed_type (t : jsstring) :
  t ∈ VALID_TYPES → to_well_formed t = t.
Proof.
  unfold VALID_TYPES. rewrite !elem_of_cons, elem_of_nil.
  intros [-> | [-> | [-> | [-> | []]]]]; reflexivity.
Qed.

Lemma to_well_formed_status (t : jsstring) :
  t ∈ VALID_STATUSES → to_well_formed t = t.
Proof.
  unfold VALID_STATUSES. rewrite !elem_of_cons, elem_of_nil.
  intros [-> | [-> | [-> | []]]]; reflexivity.
Qed.

(** *** The message about the date is told apart from the others *)

Lemma in_failure (m message : jsstring) (broken : bool) :
  m ∈ failure broken message ↔ broken = true ∧ m = message.
Proof.
  destruct broken; simpl.
  - rewrite list_elem_of_singleton. split; [by intros -> | by intros [_ ->]].
  - rewrite elem_of_nil. split; [done | by intros [? _]].
Qed.

Lemma date_error_in_create_failures (b : Body) :
  date_error ∈ create_failures b ↔
  date_ok_on_create (lastCleanedDate b) = false.
Proof.
  unfold create_failures. rewrite !elem_of_app, !in_failure, !negb_true_iff.
  split; [|by do 3 right].
  intros [[_ Heq]|[[_ Heq]|[[_ Heq]|[Hd _]]]]; try done;
    vm_compute in Heq; discriminate.
Qed.

Lemma date_error_in_update_failures (b : Body) :
  date_error ∈ update_failures b ↔
  supplied (lastCleanedDate b) = true
  ∧ date_ok_on_update (lastCleanedDate b) = false.
Proof.
  unfold update_failures.
  rewrite !elem_of_app, !in_failure, !andb_true_iff, !negb_true_iff.
  split; [|by do 3 right].
  intros [[_ Heq]|[[_ Heq]|[[_ Heq]|[Hd _]]]]; try done;
    vm_compute in Heq; discriminate.
Qed.


Lemma type_error_in_create_failures (b : Body) :
  create_type_error ∈ create_failures b ↔ type_ok (type b) = false.
Proof.
  unfold create_failures. rewrite !elem_of_app, !in_failure, !negb_true_iff.
  split; [|by right; left].
  intros [[_ Heq]|[[Ht _]|[[_ Heq]|[_ Heq]]]]; try done;
    vm_compute in Heq; discriminate.
Qed.

(** *** What a create does *)

Lemma post_invalid (now : jsstring) (b : Body) (st : Store) :
  create_failures b ≠ [] →
  post_equipment now b st
  = (st, mkResponse 400 (Invalid (lit "Validation failed") (create_failures b))).
Proof.
  intros Hf. unfold post_equipment. rewrite create_errors_spec.
  destruct (create_failures b); [done | reflexivity].
Qed.

Lemma post_full (now : jsstring) (b : Body) (st : Store) :
  create_failures b = [] →
  MAX_ROWID ≤ sqlite_sequence st →
  post_equipment now b st
  = (st, mkResponse 500 (Failed (lit "Failed to create equipment") SQLITE_FULL)).
Proof.
  intros Hf Hfull. unfold post_equipment, db_run_insert.
  rewrite create_errors_spec, Hf. simpl.
  destruct (Z.leb_spec MAX_ROWID (sqlite_sequence st)); [reflexivity | lia].
Qed.

Lemma post_created (now : jsstring) (b : Body) (st : Store) :
  create_failures b = [] →
  sqlite_sequence st < MAX_ROWID →
  let id := sqlite_sequence st + 1 in
  post_equipment now b st
  = ({| equipment := <[id := created_row now b]> (equipment st);
        sqlite_sequence := id |},
     mkResponse 201
       (Saved (lit "Equipment created successfully")
          (Some (id, created_row now b)))).
Proof.
  intros Hf Hroom id.
  unfold post_equipment, db_run_insert. rewrite create_errors_spec, Hf.
  apply create_failures_nil in Hf as (Hn & Ht & Hs & _).
  apply name_ok_inv in Hn as (n & Hn & _).
  apply type_ok_inv in Ht as (t & Ht & Htin%CHECK_type_spec).
  apply status_ok_inv in Hs as (s & Hs & Hsin%CHECK_status_spec).
  cbn [length Nat.ltb Nat.leb].
  destruct (Z.leb_spec MAX_ROWID (sqlite_sequence st)); [lia |].
  unfold created_row. rewrite Ht, Hs. cbn [bind_text ToString].
  rewrite (to_well_formed_type t), (to_well_formed_status s)
    by (by apply CHECK_type_spec || by apply CHECK_status_spec).
  rewrite Htin, Hsin. cbn [andb]. fold id.
  unfold db_get_rowid. cbn [equipment].
  rewrite lookup_insert_eq.
  destruct (truthy (lastCleanedDate b)); reflexivity.
Qed.

(** *** Lookups *)

Lemma db_get_rowid_Some k st e :
  db_get_rowid k st = Some e ↔ ∃ r, e = (k, r) ∧ equipment st !! k = Some r.
Proof.
  unfold db_get_rowid. destruct (equipment st !! k) as [r|]; split.
  - intros [= <-]. eauto.
  - intros (r' & -> & [= ->]). reflexivity.
  - discriminate.
  - intros (r' & _ & [=]).
Qed.

Lemma db_get_Some id st k r :
  db_get id st = Some (k, r) ↔
  rowid_of_text id = Some k ∧ equipment st !! k = Some r.
Proof.
  unfold db_get. destruct (rowid_of_text id) as [k'|]; split.
  - intros (r' & [= -> ->] & Hr)%db_get_rowid_Some. auto.
  - intros [[= ->] Hr]. apply db_get_rowid_Some. eauto.
  - discriminate.
  - intros [[=] _].
Qed.


(** *** The listing *)

#[local] Instance id_desc_total : Total id_desc.
Proof. intros x y. unfold id_desc. lia. Qed.

#[local] Instance id_desc_trans : Transitive id_desc.
Proof. intros x y z. unfold id_desc. lia. Qed.

Lemma db_all_perm (st : Store) :
  db_all st ≡ₚ map_to_list (equipment st).
Proof. apply merge_sort_Permutation. Qed.

Lemma db_all_elem (st : Store) (k : Z) (r : Columns.t) :
  (k, r) ∈ db_all st ↔ equipment st !! k = Some r.
Proof. by rewrite db_all_perm, elem_of_map_to_list. Qed.

Lemma db_all_NoDup (st : Store) : NoDup (db_all st).*1.
Proof. rewrite db_all_perm. apply NoDup_fst_map_to_list. Qed.

Lemma db_all_sorted (st : Store) :
  StronglySorted id_desc (db_all st).
Proof. apply StronglySorted_merge_sort; apply _. Qed.

Lemma desc_NoDup_newer (l : list Equipment) :
  StronglySorted id_desc l → NoDup l.*1 → StronglySorted newer l.
Proof.
  induction 1 as [|x l Hl IH Hx]; [constructor |].
  rewrite fmap_cons, NoDup_cons. intros [Hnin Hnd].
  constructor; [by apply IH |].
  rewrite Forall_forall in Hx |- *. intros y Hy.
  specialize (Hx y Hy). unfold id_desc in Hx. unfold newer.
  assert (y.1 ≠ x.1); [|lia].
  intros Heq. apply Hnin. rewrite <- Heq. by apply list_elem_of_fmap_2.
Qed.

(** Two listings of the same rows, both newest first, are the same. *)
Lemma newer_unique (l1 l2 : list Equipment) :
  StronglySorted newer l1 → StronglySorted newer l2 → l1 ≡ₚ l2 → l1 = l2.
Proof.
  apply StronglySorted_unique_strong.
  intros x y _ _. unfold newer. lia.
Qed.

(** A row whose id is above every id of the table comes first in the
    listing, before the rows that were there. *)
Lemma db_all_insert_top (st : Store) (k seq' : Z) (r : Columns.t) :
  (∀ k' r', equipment st !! k' = Some r' → k' < k) →
  db_all {| equipment := <[k := r]> (equipment st);
                    sqlite_sequence := seq' |}
  = (k, r) :: db_all st.
Proof.
  intros Htop.
  assert (Hfresh : equipment st !! k = None).
  { destruct (equipment st !! k) as [r'|] eqn:Hk; [|done].
    specialize (Htop k r' Hk). lia. }
  apply newer_unique.
  - apply desc_NoDup_newer; [apply db_all_sorted | apply db_all_NoDup].
  - constructor.
    + apply desc_NoDup_newer; [apply db_all_sorted | apply db_all_NoDup].
    + apply Forall_forall. intros [k' r'] Hin%db_all_elem.
      unfold newer. simpl. eauto.
  - rewrite !db_all_perm. cbn [equipment].
    by apply map_to_list_insert.
Qed.

(** *** What an update does *)

Lemma put_missing (now id : jsstring) (b : Body) (st : Store) :
  numeric_id id →
  db_get id st = None →
  put_equipment now id b st
  = (st, mkResponse 404 (NotFound (lit "Equipment not found") (parseInt id))).
Proof.
  intros [Hne Hnum] Hget.
  unfold put_equipment. rewrite Hne, Hnum, Hget. reflexivity.
Qed.

Lemma put_invalid (now id : jsstring) (b : Body) (st : Store)
    (existing : Equipment) (message : jsstring) (rest : list jsstring) :
  numeric_id id →
  db_get id st = Some existing →
  update_failures b = message :: rest →
  put_equipment now id b st
  = (st, mkResponse 400 (Invalid (lit "Validation failed") [message])).
Proof.
  intros [Hne Hnum] Hsel Hf. unfold put_equipment.
  rewrite Hne, Hnum, Hsel, update_clauses_spec, Hf. reflexivity.
Qed.

Lemma put_no_fields (now id : jsstring) (b : Body) (st : Store)
    (existing : Equipment) :
  numeric_id id →
  db_get id st = Some existing →
  some_field_supplied b = false →
  put_equipment now id b st
  = (st, mkResponse 400 (Refused (lit "No fields to update"))).
Proof.
  intros [Hne Hnum] Hsel Hnone. unfold put_equipment.
  rewrite Hne, Hnum, Hsel, update_clauses_spec, Hnone.
  assert (update_failures b = []) as ->; [|reflexivity].
  unfold some_field_supplied in Hnone.
  apply orb_false_iff in Hnone as [[[Hn Ht]%orb_false_iff Hs]%orb_false_iff Hd].
  unfold update_failures. by rewrite Hn, Ht, Hs, Hd.
Qed.

Lemma assign_supplied (now : jsstring) (b : Body) (r : Columns.t) :
  update_failures b = [] →
  fold_left (assign now)
    (supplied_clauses b ++ [Set_updatedAt_CURRENT_TIMESTAMP]) (Ok r)
  = Ok (updated_row now b r).
Proof.
  intros (Hn & Ht & Hs & _)%update_failures_nil.
  unfold supplied_clauses, updated_row, clause.
  destruct (name b) as [| | | |n| |];
    try (specialize (Hn eq_refl); discriminate); clear Hn.
  all: destruct (type b) as [| | | |t| |];
    try (specialize (Ht eq_refl); discriminate).
  all: try (specialize (Ht eq_refl); cbn in Ht;
            apply bool_decide_eq_true in Ht;
            pose proof (to_well_formed_type _ Ht) as Ht';
            apply CHECK_type_spec in Ht).
  all: destruct (status b) as [| | | |u| |];
    try (specialize (Hs eq_refl); discriminate).
  all: try (specialize (Hs eq_refl); cbn in Hs;
            apply bool_decide_eq_true in Hs;
            pose proof (to_well_formed_status _ Hs) as Hs';
            apply CHECK_status_spec in Hs).
  all: destruct (supplied (lastCleanedDate b)).
  all: repeat (cbn [supplied is_undefined negb app fold_left assign bind_text
                    ToString trim_of]; rewrite ?Ht', ?Hs', ?Ht, ?Hs).
  all: reflexivity.
Qed.

Lemma put_updated (now id : jsstring) (b : Body) (st : Store)
    (k : Z) (r : Columns.t) :
  numeric_id id →
  db_get id st = Some (k, r) →
  update_failures b = [] →
  some_field_supplied b = true →
  put_equipment now id b st
  = ({| equipment := <[k := updated_row now b r]> (equipment st);
        sqlite_sequence := sqlite_sequence st |},
     mkResponse 200
       (Saved (lit "Equipment updated successfully")
          (Some (k, updated_row now b r)))).
Proof.
  intros [Hne Hnum] Hsel Hf Hsome. unfold put_equipment, db_run_update.
  rewrite Hne, Hnum, Hsel, update_clauses_spec, Hf, Hsome.
  rewrite (assign_supplied _ _ _ Hf).
  apply db_get_Some in Hsel as [Hk _].
  unfold db_get, db_get_rowid. rewrite Hk.
  cbn [equipment]. rewrite lookup_insert_eq. reflexivity.
Qed.

(** Every way a create can go. *)
Lemma post_cases (now : jsstring) (b : Body) (st : Store) :
  (create_failures b ≠ []
   ∧ post_equipment now b st
     = (st, mkResponse 400
              (Invalid (lit "Validation failed") (create_failures b))))
  ∨ (create_failures b = [] ∧ MAX_ROWID ≤ sqlite_sequence st
     ∧ post_equipment now b st
       = (st, mkResponse 500
                (Failed (lit "Failed to create equipment") SQLITE_FULL)))
  ∨ (create_failures b = [] ∧ sqlite_sequence st < MAX_ROWID
     ∧ post_equipment now b st
       = ({| equipment :=
               <[sqlite_sequence st + 1 := created_row now b]> (equipment st);
             sqlite_sequence := sqlite_sequence st + 1 |},
          mkResponse 201
            (Saved (lit "Equipment created successfully")
               (Some (sqlite_sequence st + 1, created_row now b))))).
Proof.
  destruct (create_failures b) as [|m l] eqn:Hf.
  - right.
    destruct (Z.lt_ge_cases (sqlite_sequence st) MAX_ROWID) as [Hroom|Hfull].
    + right. by rewrite (post_created now b st Hf Hroom).
    + left. by rewrite (post_full now b st Hf Hfull).
  - left. split; [done |]. rewrite <- Hf. apply post_invalid. by rewrite Hf.
Qed.

(** A create into a well-formed table: the new row is listed first. *)
Lemma post_created_listing (now : jsstring) (b : Body) (st : Store) :
  store_wf st →
  create_failures b = [] →
  sqlite_sequence st < MAX_ROWID →
  ∃ st',
    post_equipment now b st
    = (st', mkResponse 201
              (Saved (lit "Equipment created successfully")
                 (Some (sqlite_sequence st + 1, created_row now b))))
    ∧ store_wf st'
    ∧ sqlite_sequence st' = sqlite_sequence st + 1
    ∧ db_all st'
      = (sqlite_sequence st + 1, created_row now b) :: db_all st.
Proof.
  intros Hwf Hf Hroom. eexists. split; [apply (post_created now b st Hf Hroom) |].
  split; [|split; [reflexivity |]].
  - intros k r. cbn [equipment sqlite_sequence].
    intros [[<- _]|[_ Hk]]%lookup_insert_Some; [lia |].
    specialize (Hwf k r Hk). lia.
  - apply db_all_insert_top. intros k r Hk.
    specialize (Hwf k r Hk). lia.
Qed.

(** Every way an update can go. *)
Lemma put_cases (now id : jsstring) (b : Body) (st : Store) :
  (is_empty id || isNaN id = true
   ∧ put_equipment now id b st
     = (st, mkResponse 400 (Refused (lit "Invalid equipment ID"))))
  ∨ (numeric_id id ∧ db_get id st = None
     ∧ put_equipment now id b st
       = (st, mkResponse 404
                (NotFound (lit "Equipment not found") (parseInt id))))
  ∨ (∃ k r first others,
       numeric_id id ∧ db_get id st = Some (k, r)
       ∧ update_failures b = first :: others
       ∧ put_equipment now id b st
         = (st, mkResponse 400 (Invalid (lit "Validation failed") [first])))
  ∨ (∃ k r,
       numeric_id id ∧ db_get id st = Some (k, r)
       ∧ update_failures b = [] ∧ some_field_supplied b = false
       ∧ put_equipment now id b st
         = (st, mkResponse 400 (Refused (lit "No fields to update"))))
  ∨ (∃ k r,
       numeric_id id ∧ db_get id st = Some (k, r)
       ∧ update_failures b = [] ∧ some_field_supplied b = true
       ∧ put_equipment now id b st
         = ({| equipment := <[k := updated_row now b r]> (equipment st);
               sqlite_sequence := sqlite_sequence st |},
            mkResponse 200
              (Saved (lit "Equipment updated successfully")
                 (Some (k, updated_row now b r))))).
Proof.
  destruct (is_empty id || isNaN id) eqn:Hid.
  { left. split; [reflexivity |]. unfold put_equipment. by rewrite Hid. }
  right. apply orb_false_iff in Hid.
  destruct (db_get id st) as [[k r]|] eqn:Hsel.
  2: { left. by rewrite put_missing. }
  right. destruct (update_failures b) as [|first others] eqn:Hf.
  2: { left. exists k, r, first, others.
       by rewrite (put_invalid now id b st (k, r) first others). }
  right. destruct (some_field_supplied b) eqn:Hsome.
  - right. exists k, r. by rewrite (put_updated now id b st k r).
  - left. exists k, r. by rewrite (put_no_fields now id b st (k, r)).
Qed.

(** The [details] of a 400 are the failures of the request. *)
Lemma post_details (now : jsstring) (b : Body) (st : Store)
    (e : jsstring) (details : list jsstring) :
  (post_equipment now b st).2 = mkResponse 400 (Invalid e details) →
  details = create_failures b.
Proof.
  destruct (create_failures b) as [|m l] eqn:Hf.
  - destruct (Z.lt_ge_cases (sqlite_sequence st) MAX_ROWID) as [Hroom|Hfull].
    + by rewrite (post_created now b st Hf Hroom).
    + by rewrite (post_full now b st Hf Hfull).
  - rewrite post_invalid by (by rewrite Hf). rewrite Hf. by intros [= _ <-].
Qed.

Lemma put_details (now id : jsstring) (b : Body) (st : Store)
    (e : jsstring) (details : list jsstring) :
  (put_equipment now id b st).2 = mkResponse 400 (Invalid e details) →
  ∃ first others, update_failures b = first :: others ∧ details = [first].
Proof.
  destruct (put_cases now id b st)
    as [[_ ->]|[(_ & _ & ->)|[(k & r & first & others & _ & _ & Hf & ->)
       |[(k & r & _ & _ & _ & _ & ->)|(k & r & _ & _ & _ & _ & ->)]]]];
    try discriminate.
  intros [= _ <-]. eauto.
Qed.

Lemma supplied_true (v : JsVal) : supplied v = true ↔ v ≠ JUndefined.
Proof. by destruct v. Qed.

Lemma is_null_false (v : JsVal) : is_null v = false ↔ v ≠ JNull.
Proof. by destruct v. Qed.

(** When the other supplied fields keep their rules, only the date can
    fail an update. *)
Lemma update_failures_date_only (b : Body) :
  (supplied (name b) = true → name_ok (name b) = true) →
  (supplied (type b) = true → type_ok (type b) = true) →
  (supplied (status b) = true → status_ok (status b) = true) →
  update_failures b
  = failure (supplied (lastCleanedDate b)
             && negb (date_ok_on_update (lastCleanedDate b))) date_error.
Proof.
  intros Hn Ht Hs. unfold update_failures.
  destruct (supplied (name b)); [rewrite Hn by done|];
    (destruct (supplied (type b)); [rewrite Ht by done|]);
    (destruct (supplied (status b)); [rewrite Hs by done|]); reflexivity.
Qed.

(** *** Runs: the key counter *)

Lemma handle_sequence (now : jsstring) (rq : Request) (st : Store) :
  sqlite_sequence st ≤ sqlite_sequence (handle now rq st).1.
Proof.
  destruct rq as [|b|id b|id]; cbn [handle].
  - reflexivity.
  - destruct (post_cases now b st) as [[_ ->]|[(_ & _ & ->)|(_ & _ & ->)]];
      cbn [fst sqlite_sequence]; lia.
  - destruct (put_cases now id b st)
      as [[_ ->]|[(_ & _ & ->)|[(k & r & first & others & _ & _ & _ & ->)
         |[(k & r & _ & _ & _ & _ & ->)|(k & r & _ & _ & _ & _ & ->)]]]];
      cbn [fst sqlite_sequence]; lia.
  - unfold delete_equipment, db_run_delete.
    destruct (is_empty id || isNaN id); [reflexivity |].
    destruct (db_get id st); [|reflexivity].
    destruct (rowid_of_text id); reflexivity.
Qed.

Lemma serve_cons (now : jsstring) (rq : Request)
    (calls : list (jsstring * Request)) (st : Store) :
  serve ((now, rq) :: calls) st
  = ((serve calls (handle now rq st).1).1,
     (handle now rq st).2 :: (serve calls (handle now rq st).1).2).
Proof.
  cbn [serve]. destruct (handle now rq st) as [st1 r]. cbn [fst snd].
  by destruct (serve calls st1).
Qed.

Lemma serve_sequence (calls : list (jsstring * Request)) (st : Store) :
  sqlite_sequence st ≤ sqlite_sequence (serve calls st).1.
Proof.
  revert st. induction calls as [|[now rq] calls IH]; intros st; [reflexivity |].
  rewrite serve_cons. cbn [fst].
  etrans; [apply (handle_sequence now rq) | apply IH].
Qed.

(** A create answered 201 reports the row it stored, under the key that
    follows the counter, and leaves the counter at that key. *)
Lemma post_201 (now : jsstring) (b : Body) (st : Store) :
  code (post_equipment now b st).2 = 201 →
  ∃ row,
    payload (post_equipment now b st).2
    = Saved (lit "Equipment created successfully")
        (Some (sqlite_sequence st + 1, row))
    ∧ equipment (post_equipment now b st).1 !! (sqlite_sequence st + 1)
      = Some row
    ∧ sqlite_sequence (post_equipment now b st).1 = sqlite_sequence st + 1.
Proof.
  destruct (post_cases now b st) as [[_ ->]|[(_ & _ & ->)|(_ & _ & ->)]];
    try discriminate.
  intros _. eexists. split; [reflexivity |].
  cbn [fst equipment sqlite_sequence]. by rewrite lookup_insert_eq.
Qed.

Lemma serve_created_above (calls : list (jsstring * Request)) (st : Store)
    (j : nat) (tj : jsstring) (bj : Body) (rj : Response) :
  calls !! j = Some (tj, POST_equipment bj) →
  (serve calls st).2 !! j = Some rj →
  code rj = 201 →
  ∃ kj rowj,
    payload rj = Saved (lit "Equipment created successfully") (Some (kj, rowj))
    ∧ sqlite_sequence st < kj.
Proof.
  revert st j. induction calls as [|[now rq] calls IH]; intros st j; [done |].
  rewrite serve_cons. cbn [snd]. destruct j as [|j]; cbn [lookup list_lookup].
  - intros [= -> ->] [= <-] Hcode. cbn [handle] in *.
    destruct (post_201 _ _ _ Hcode) as (row & Hp & _ & _).
    exists (sqlite_sequence st + 1), row. split; [exact Hp | lia].
  - intros Hj Hrj Hcode.
    destruct (IH _ _ Hj Hrj Hcode) as (kj & rowj & Hp & Hlt).
    exists kj, rowj. split; [exact Hp |].
    pose proof (handle_sequence now rq st). lia.
Qed.

(** *** Runs: the counter stays above the keys *)

Lemma handle_wf (now : jsstring) (rq : Request) (st : Store) :
  store_wf st → store_wf (handle now rq st).1.
Proof.
  intros Hwf. destruct rq as [|b|id b|id]; cbn [handle].
  - done.
  - destruct (post_cases now b st) as [[_ ->]|[(_ & _ & ->)|(_ & _ & ->)]];
      try done.
    intros k r. cbn [fst equipment sqlite_sequence].
    intros [[<- _]|[_ Hk]]%lookup_insert_Some; [lia |].
    specialize (Hwf k r Hk). lia.
  - destruct (put_cases now id b st)
      as [[_ ->]|[(_ & _ & ->)|[(k & r & first & others & _ & _ & _ & ->)
         |[(k & r & _ & _ & _ & _ & ->)|(k & r & _ & Hsel & _ & _ & ->)]]]];
      try done.
    apply db_get_Some in Hsel as [_ Hr].
    intros k' r'. cbn [fst equipment sqlite_sequence].
    intros [[<- _]|[_ Hk]]%lookup_insert_Some; by eapply Hwf.
  - unfold delete_equipment, db_run_delete.
    destruct (is_empty id || isNaN id); [done |].
    destruct (db_get id st); [|done].
    destruct (rowid_of_text id) as [k|]; [|done].
    intros k' r'. cbn [fst equipment sqlite_sequence].
    intros [_ Hk]%lookup_delete_Some. by eapply Hwf.
Qed.

Lemma serve_wf (calls : list (jsstring * Request)) (st : Store) :
  store_wf st → store_wf (serve calls st).1.
Proof.
  revert st. induction calls as [|[now rq] calls IH]; intros st Hst; [done |].
  rewrite serve_cons. cbn [fst]. by apply IH, handle_wf.
Qed.

Lemma reachable_wf (st : Store) : reachable st → store_wf st.
Proof.
  intros [calls <-]. apply serve_wf. intros k r Hk.
  unfold initialize in Hk. cbn [equipment] in Hk.
  by rewrite lookup_empty in Hk.
Qed.

(** *** Runs: the enumerations *)

Lemma assign_in_enums (now : jsstring) (sets : list SetClause)
    (r r' : Columns.t) :
  row_in_enums r →
  fold_left (assign now) sets (Ok r) = Ok r' →
  row_in_enums r'.
Proof.
  revert r. induction sets as [|c sets IH]; intros r Hr; cbn [fold_left].
  { by intros [= <-]. }
  destruct (assign now (Ok r) c) as [r1|e] eqn:Hc.
  - apply IH. destruct Hr as [Ht Hs]. unfold row_in_enums.
    destruct c as [v|v|v|v|]; cbn [assign] in Hc.
    + destruct (bind_text v); [|discriminate]. by injection Hc as <-.
    + destruct (bind_text v) as [t|]; [|discriminate].
      destruct (CHECK_type t) eqn:Hck; [|discriminate].
      injection Hc as <-. by apply CHECK_type_spec in Hck.
    + destruct (bind_text v) as [t|]; [|discriminate].
      destruct (CHECK_status t) eqn:Hck; [|discriminate].
      injection Hc as <-. by apply CHECK_status_spec in Hck.
    + by injection Hc as <-.
    + by injection Hc as <-.
  - intros Hfold. exfalso. clear -Hfold.
    induction sets as [|c' sets IH']; [discriminate |]. by apply IH'.
Qed.

(** The constraints of the table keep the enumerations, whatever
    parameters the statements are given. *)
Lemma insert_keeps_enums (n t s d : JsVal) (now : jsstring) (st st' : Store)
    (k : Z) :
  enums_hold st →
  db_run_insert n t s d now st = Ok (st', k) →
  enums_hold st'.
Proof.
  intros Hst. unfold db_run_insert.
  destruct (MAX_ROWID <=? sqlite_sequence st); [discriminate |].
  destruct (bind_text n) as [n'|]; [|discriminate].
  destruct (bind_text t) as [t'|]; [|discriminate].
  destruct (bind_text s) as [s'|]; [|discriminate].
  destruct (CHECK_type t') eqn:Ht; [|discriminate].
  destruct (CHECK_status s') eqn:Hs; [|discriminate].
  cbn [andb]. intros [= <- <-] k' r. cbn [equipment].
  intros [[_ <-]|[_ Hk]]%lookup_insert_Some; [|by eapply Hst].
  split; [by apply CHECK_type_spec | by apply CHECK_status_spec].
Qed.

Lemma update_keeps_enums (sets : list SetClause) (id now : jsstring)
    (st st' : Store) :
  enums_hold st →
  db_run_update sets id now st = Ok st' →
  enums_hold st'.
Proof.
  intros Hst. unfold db_run_update.
  destruct (db_get id st) as [[k r]|] eqn:Hsel;
    [|by intros [= <-]].
  apply db_get_Some in Hsel as [_ Hr].
  destruct (fold_left (assign now) sets (Ok r)) as [r'|e] eqn:Hfold;
    [|discriminate].
  intros [= <-] k' r1. cbn [equipment].
  intros [[_ <-]|[_ Hk]]%lookup_insert_Some; [|by eapply Hst].
  eapply assign_in_enums; [|exact Hfold]. by eapply Hst.
Qed.

Lemma delete_keeps_enums (id : jsstring) (st : Store) :
  enums_hold st → enums_hold (db_run_delete id st).
Proof.
  intros Hst. unfold db_run_delete. destruct (rowid_of_text id) as [k|]; [|done].
  intros k' r. cbn [equipment]. intros [_ Hk]%lookup_delete_Some.
  by eapply Hst.
Qed.

Lemma handle_enums (now : jsstring) (rq : Request) (st : Store) :
  enums_hold st → enums_hold (handle now rq st).1.
Proof.
  intros Hst. destruct rq as [|b|id b|id]; cbn [handle].
  - done.
  - unfold post_equipment. destruct (0 <? length (create_errors b))%nat; [done |].
    destruct (db_run_insert _ _ _ _ now st) as [[st' k]|e] eqn:Hins; [|done].
    by eapply insert_keeps_enums.
  - unfold put_equipment. destruct (is_empty id || isNaN id); [done |].
    destruct (db_get id st) as [existing|]; [|done].
    destruct (update_clauses b) as [updates|r]; [|done].
    destruct (db_run_update _ id now st) as [st'|err] eqn:Hupd; [|done].
    by eapply update_keeps_enums.
  - unfold delete_equipment. destruct (is_empty id || isNaN id); [done |].
    destruct (db_get id st); [|done].
    by apply delete_keeps_enums.
Qed.

Lemma serve_enums (calls : list (jsstring * Request)) (st : Store) :
  enums_hold st → enums_hold (serve calls st).1.
Proof.
  revert st. induction calls as [|[now rq] calls IH]; intros st Hst; [done |].
  rewrite serve_cons. cbn [fst]. by apply IH, handle_enums.
Qed.

(** *** The number that [parseInt] makes of an integer *)

Lemma to_double_safe (k : Z) :
  - MAX_SAFE_INTEGER ≤ k ≤ MAX_SAFE_INTEGER → to_double k = Some k.
Proof.
  intros Hk. unfold to_double.
  assert (Hlog : Z.log2 (Z.abs k) - 52 ≤ 0).
  { destruct (Z.eq_dec (Z.abs k) 0) as [-> | Hne]; [done |].
    assert (Z.log2 (Z.abs k) < 53); [| lia].
    apply Z.log2_lt_pow2; unfold MAX_SAFE_INTEGER in Hk; lia. }
  by destruct (Z.leb_spec (Z.log2 (Z.abs k) - 52) 0); [| lia].
Qed.

Lemma to_double_near (k n : Z) :
  to_double k = Some n → Z.abs (n - k) * 2 ^ 53 ≤ Z.abs k.
Proof.
  unfold to_double.
  set (a := Z.abs k). set (e := Z.log2 a - 52).
  destruct (Z.leb_spec e 0) as [He | He].
  { intros [= <-]. rewrite Z.sub_diag. cbn. lia. }
  set (q := Z.shiftr a e). set (r := a - Z.shiftl q e).
  set (half := Z.shiftl 1 (e - 1)).
  set (q' := if (half <? r) || (r =? half) && Z.odd q then q + 1 else q).
  destruct (2 ^ 1024 <=? Z.shiftl q' e); [discriminate |].
  intros [= <-].
  assert (Ha : 0 < a).
  { destruct (Z.eq_dec a 0) as [Ha | Ha]; [| lia].
    subst e. rewrite Ha in He. cbn in He. lia. }
  assert (Hpow : 2 ^ e = 2 * 2 ^ (e - 1)).
  { rewrite <- Z.pow_succ_r by lia. f_equal. lia. }
  assert (Hhalf : half = 2 ^ (e - 1)).
  { unfold half. rewrite Z.shiftl_mul_pow2 by lia. lia. }
  assert (Hq : q = a / 2 ^ e) by (unfold q; apply Z.shiftr_div_pow2; lia).
  assert (Hr : 0 ≤ r < 2 ^ e).
  { unfold r. rewrite Z.shiftl_mul_pow2, Hq by lia.
    pose proof (Z.mod_pos_bound a (2 ^ e)) as Hm.
    rewrite Z.mod_eq in Hm by lia. lia. }
  assert (Hbig : 2 ^ (52 + e) ≤ a).
  { replace (52 + e) with (Z.log2 a) by (unfold e; lia).
    apply Z.log2_spec. lia. }
  assert (H52 : 2 ^ (52 + e) = 2 ^ 52 * 2 ^ e) by (apply Z.pow_add_r; lia).
  assert (Herr : Z.abs (Z.shiftl q' e - a) ≤ 2 ^ (e - 1)).
  { rewrite Z.shiftl_mul_pow2 by lia. unfold r in Hr.
    rewrite Z.shiftl_mul_pow2 in Hr by lia.
    unfold q'. fold r.
    assert (Hra : r = a - q * 2 ^ e)
      by (unfold r; rewrite Z.shiftl_mul_pow2 by lia; done).
    destruct (Z.ltb_spec half r) as [Hlt | Hge]; cbn [orb].
    - lia.
    - destruct (Z.eqb_spec r half) as [Heq | Hne]; cbn [andb].
      + destruct (Z.odd q); lia.
      + lia. }
  assert (Hsgn : Z.abs (Z.sgn k * Z.shiftl q' e - k)
                 = Z.abs (Z.shiftl q' e - a)).
  { unfold a. destruct k; cbn [Z.sgn Z.abs]; lia. }
  rewrite Hsgn. clear Hsgn.
  change (2 ^ 53) with (2 ^ 52 * 2).
  nia.
Qed.

(** *** The claims *)


(** C2, as the code has it.  The check of the date is one of shape only:
    a string passes exactly when it is four digits, a hyphen, two digits, a
    hyphen and two digits.  ["2025-13-40"] has that shape, so no 400 of a
    create or of an update that supplies it lists the message about the
    date; a create whose other fields keep their rules stores it and
    answers 201 while the table has a key left, and is answered 500 once
    the last key is taken; an update of an existing record whose other
    supplied fields keep their rules stores it and answers 200. *)
Theorem date_check_is_shape_only :
  ∀ (now : jsstring) (b : Body) (st : Store),
    lastCleanedDate b = JStr month_13_day_40 →
    (∀ s, date_regex_test (JStr s) = true ↔
       ∃ yyyy mm dd,
         s = yyyy ++ [hyphen] ++ mm ++ [hyphen] ++ dd
         ∧ length yyyy = 4%nat ∧ length mm = 2%nat ∧ length dd = 2%nat
         ∧ forallb is_digit yyyy = true ∧ forallb is_digit mm = true
         ∧ forallb is_digit dd = true)
    ∧ date_regex_test (lastCleanedDate b) = true
    ∧ (∀ e details,
         (post_equipment now b st).2 = mkResponse 400 (Invalid e details) →
         date_error ∉ details)
    ∧ (∀ id e details,
         (put_equipment now id b st).2 = mkResponse 400 (Invalid e details) →
         date_error ∉ details)
    ∧ (name_ok (name b) = true → type_ok (type b) = true →
       status_ok (status b) = true → sqlite_sequence st < MAX_ROWID →
       ∃ st' k row,
         post_equipment now b st
         = (st', mkResponse 201
                   (Saved (lit "Equipment created successfully")
                      (Some (k, row))))
         ∧ equipment st' !! k = Some row
         ∧ Columns.lastCleanedDate row = Some month_13_day_40)
    ∧ (name_ok (name b) = true → type_ok (type b) = true →
       status_ok (status b) = true → MAX_ROWID ≤ sqlite_sequence st →
       post_equipment now b st
       = (st, mkResponse 500
                (Failed (lit "Failed to create equipment") SQLITE_FULL)))
    ∧ (∀ id k r,
         numeric_id id → db_get id st = Some (k, r) →
         (supplied (name b) = true → name_ok (name b) = true) →
         (supplied (type b) = true → type_ok (type b) = true) →
         (supplied (status b) = true → status_ok (status b) = true) →
         ∃ st' row,
           put_equipment now id b st
           = (st', mkResponse 200
                     (Saved (lit "Equipment updated successfully")
                        (Some (k, row))))
           ∧ equipment st' !! k = Some row
           ∧ Columns.lastCleanedDate row = Some month_13_day_40).
Proof.
  intros now b st Hdate.
  assert (Hpass : date_regex_test (lastCleanedDate b) = true)
    by (rewrite Hdate; reflexivity).
  split; [intros s; apply date_pattern_shape |].
  split; [exact Hpass |].
  split; [|split; [|split; [|split]]].
  - intros e details ->%post_details.
    intros Hin%date_error_in_create_failures.
    unfold date_ok_on_create in Hin. by rewrite Hpass, orb_true_r in Hin.
  - intros id e details (first & others & Hf & ->)%put_details.
    intros <-%list_elem_of_singleton.
    assert (Hin : date_error ∈ update_failures b)
      by (rewrite Hf; apply list_elem_of_here).
    apply date_error_in_update_failures in Hin as [_ Hin].
    unfold date_ok_on_update in Hin. by rewrite Hpass, orb_true_r in Hin.
  - intros Hn Ht Hs Hroom.
    assert (Hf : create_failures b = []).
    { apply create_failures_nil. unfold date_ok_on_create.
      by rewrite Hpass, orb_true_r. }
    eexists _, _, _. split; [apply (post_created now b st Hf Hroom) |].
    cbn [equipment]. rewrite lookup_insert_eq. split; [reflexivity |].
    unfold created_row. cbn [Columns.lastCleanedDate]. by rewrite Hdate.
  - intros Hn Ht Hs Hfull. apply post_full; [| exact Hfull].
    apply create_failures_nil. unfold date_ok_on_create.
    by rewrite Hpass, orb_true_r.
  - intros id k r Hid Hsel Hn Ht Hs.
    assert (Hf : update_failures b = []).
    { apply update_failures_nil. unfold date_ok_on_update.
      by rewrite Hpass, orb_true_r. }
    assert (Hsome : some_field_supplied b = true).
    { unfold some_field_supplied. rewrite Hdate. apply orb_true_r. }
    eexists _, _. split; [apply (put_updated now id b st k r Hid Hsel Hf Hsome) |].
    cbn [equipment]. rewrite lookup_insert_eq. split; [reflexivity |].
    unfold updated_row. cbn [Columns.lastCleanedDate]. by rewrite Hdate.
Qed.

(** C3. An update is answered 200 exactly when its id is numeric and
    selects a row, its body supplies at least one of the four fields, and
    every supplied field keeps its rule.  It then replaces that one row:
    the fields the body does not supply keep their values, the supplied
    ones take the values sent, [createdAt] stays and [updatedAt] is the
    clock reading of the update; every other row and the key counter stay.
    Of the values sent, the name is stored trimmed, as the table holds
    text: with an unpaired surrogate replaced, so as the trimmed name itself
    when the name has none; a [null] date is stored as [NULL], and a date
    that is an array as the text the table makes of an array.  An update
    answered otherwise changes nothing. *)
Theorem update_changes_only_supplied_fields :
  ∀ (now id : jsstring) (b : Body) (st : Store),
    (∀ k r,
       numeric_id id → db_get id st = Some (k, r) →
       some_field_supplied b = true → update_failures b = [] →
       code (put_equipment now id b st).2 = 200)
    ∧ (code (put_equipment now id b st).2 = 200 →
       ∃ k r r',
         db_get id st = Some (k, r)
         ∧ put_equipment now id b st
           = ({| equipment := <[k := r']> (equipment st);
                 sqlite_sequence := sqlite_sequence st |},
              mkResponse 200
                (Saved (lit "Equipment updated successfully") (Some (k, r'))))
         ∧ (name b = JUndefined → Columns.name r' = Columns.name r)
         ∧ (type b = JUndefined → Columns.type r' = Columns.type r)
         ∧ (status b = JUndefined → Columns.status r' = Columns.status r)
         ∧ (lastCleanedDate b = JUndefined →
            Columns.lastCleanedDate r' = Columns.lastCleanedDate r)
         ∧ (∀ s, name b = JStr s →
            Columns.name r' = to_well_formed (trim s)
            ∧ (well_formed s → Columns.name r' = trim s))
         ∧ (∀ t, type b = JStr t → Columns.type r' = t)
         ∧ (∀ u, status b = JStr u → Columns.status r' = u)
         ∧ (∀ d, lastCleanedDate b = JStr d →
            Columns.lastCleanedDate r' = Some d)
         ∧ (lastCleanedDate b = JNull → Columns.lastCleanedDate r' = None)
         ∧ (∀ l, lastCleanedDate b = JArr l →
            Columns.lastCleanedDate r' = Some (lit "[object Object]"))
         ∧ Columns.createdAt r' = Columns.createdAt r
         ∧ Columns.updatedAt r' = now)
    ∧ (code (put_equipment now id b st).2 ≠ 200 →
       (put_equipment now id b st).1 = st).
Proof.
  intros now id b st. split; [|split].
  - intros k r Hid Hsel Hsome Hf.
    by rewrite (put_updated now id b st k r).
  - destruct (put_cases now id b st)
      as [[_ ->]|[(_ & _ & ->)|[(k & r & first & others & _ & _ & _ & ->)
         |[(k & r & _ & _ & _ & _ & ->)|(k & r & _ & Hsel & Hf & _ & ->)]]]];
      try discriminate.
    intros _. exists k, r, (updated_row now b r).
    split; [exact Hsel |]. split; [reflexivity |].
    apply update_failures_nil in Hf as (_ & _ & _ & Hd).
    unfold updated_row.
    cbn [Columns.name Columns.type Columns.status Columns.lastCleanedDate
         Columns.createdAt Columns.updatedAt].
    split; [by intros -> |]. split; [by intros -> |].
    split; [by intros -> |]. split; [by intros -> |].
    split.
    { intros s' ->. cbn [supplied is_undefined negb trim_of].
      split; [reflexivity | apply to_well_formed_trim]. }
    split; [by intros ? -> |]. split; [by intros ? -> |].
    split.
    { intros d Hdate. rewrite Hdate in Hd |- *.
      cbn [supplied is_undefined negb bind_text]. f_equal.
      apply to_well_formed_date. by apply (Hd eq_refl). }
    split; [by intros -> |]. split; [by intros ? -> |]. done.
  - destruct (put_cases now id b st)
      as [[_ ->]|[(_ & _ & ->)|[(k & r & first & others & _ & _ & _ & ->)
         |[(k & r & _ & _ & _ & _ & ->)|(k & r & _ & Hsel & _ & _ & ->)]]]];
      done.
Qed.

(** C4. In every state of the database the list operation answers 200
    with every stored row, each once, in the order of strictly descending
    id (newest first).  So when records A, B and C are created in that
    order, in a state the server can reach, the listing that follows starts
    with C, B, A and goes on with the rows that were there before. *)
Theorem listing_is_newest_first :
  ∀ (st : Store),
    (∃ l,
       get_equipment st = (st, mkResponse 200 (Listing (length l) l))
       ∧ (∀ k r, (k, r) ∈ l ↔ equipment st !! k = Some r)
       ∧ NoDup l.*1
       ∧ StronglySorted newer l)
    ∧ (∀ (ta tb tc tg : jsstring) (a b c : Body),
         reachable st →
         create_failures a = [] → create_failures b = [] →
         create_failures c = [] →
         sqlite_sequence st + 3 ≤ MAX_ROWID →
         let n := sqlite_sequence st in
         let A := (n + 1, created_row ta a) in
         let B := (n + 2, created_row tb b) in
         let C := (n + 3, created_row tc c) in
         let created := Saved (lit "Equipment created successfully") in
         (serve [(ta, POST_equipment a); (tb, POST_equipment b);
               (tc, POST_equipment c); (tg, GET_equipment)] st).2
         = [mkResponse 201 (created (Some A));
            mkResponse 201 (created (Some B));
            mkResponse 201 (created (Some C));
            mkResponse 200
              (Listing (3 + length (db_all st))
                 (C :: B :: A :: db_all st))]).
Proof.
  intros st. split.
  - exists (db_all st). split; [reflexivity |].
    split; [apply db_all_elem |]. split; [apply db_all_NoDup |].
    apply desc_NoDup_newer; [apply db_all_sorted | apply db_all_NoDup].
  - intros ta tb tc tg a b c Hwf%reachable_wf Ha Hb Hc Hroom n A B C created.
    destruct (post_created_listing ta a st Hwf Ha)
      as (st1 & Hp1 & Hwf1 & Hn1 & Hl1); [lia |].
    destruct (post_created_listing tb b st1 Hwf1 Hb)
      as (st2 & Hp2 & Hwf2 & Hn2 & Hl2); [lia |].
    destruct (post_created_listing tc c st2 Hwf2 Hc)
      as (st3 & Hp3 & Hwf3 & Hn3 & Hl3); [lia |].
    cbn [serve handle]. rewrite Hp1, Hp2, Hp3.
    unfold get_equipment. cbn [snd].
    rewrite Hl3, Hl2, Hl1, Hn2, Hn1.
    subst A B C created n.
    replace (sqlite_sequence st + 1 + 1 + 1) with (sqlite_sequence st + 3) by lia.
    replace (sqlite_sequence st + 1 + 1) with (sqlite_sequence st + 2) by lia.
    reflexivity.
Qed.

(** C5. In every run of requests, from any state of the database, a
    create answered 201 reports a record whose id is strictly greater than
    the id reported by every create answered 201 earlier in the run,
    whatever came between them, deletes of those records included. *)
Theorem created_ids_increase :
  ∀ (calls : list (jsstring * Request)) (st0 : Store) (i j : nat)
    (ti tj : jsstring) (bi bj : Body) (ri rj : Response),
    (i < j)%nat →
    calls !! i = Some (ti, POST_equipment bi) →
    calls !! j = Some (tj, POST_equipment bj) →
    (serve calls st0).2 !! i = Some ri →
    (serve calls st0).2 !! j = Some rj →
    code ri = 201 → code rj = 201 →
    ∃ ki rowi kj rowj,
      payload ri
      = Saved (lit "Equipment created successfully") (Some (ki, rowi))
      ∧ payload rj
        = Saved (lit "Equipment created successfully") (Some (kj, rowj))
      ∧ ki < kj.
Proof.
  induction calls as [|[now rq] calls IH]; intros st0 i j ti tj bi bj ri rj;
    [done |].
  rewrite serve_cons. cbn [snd]. intros Hij.
  destruct j as [|j]; [lia |]. destruct i as [|i]; cbn [lookup list_lookup].
  - intros [= -> ->] Hj [= <-] Hrj Hci Hcj. cbn [handle] in *.
    destruct (post_201 _ _ _ Hci) as (rowi & Hpi & _ & Hseq).
    destruct (serve_created_above _ _ _ _ _ _ Hj Hrj Hcj) as (kj & rowj & Hpj & Hlt).
    exists (sqlite_sequence st0 + 1), rowi, kj, rowj.
    split; [exact Hpi |]. split; [exact Hpj |]. lia.
  - intros Hi Hj Hri Hrj Hci Hcj.
    apply (IH (handle now rq st0).1 i j ti tj bi bj ri rj); try done. lia.
Qed.

(** C6. In every state the server can reach from a new database, the type
    of every row is one of Machine, Vessel, Tank, Mixer and its status one
    of Active, Inactive, Under Maintenance.  The table itself keeps this:
    an insert or an update that succeeds leaves the enumerations in force
    whatever parameters it was given, and an insert of the type ["Pump"]
    is refused by the [CHECK] constraint.  A create with the type
    ["Pump"] is answered 400, and [details] has the message about the
    type. *)
Theorem enumerations_hold_in_every_state :
  (∀ st, reachable st → enums_hold st)
  ∧ (∀ n t s d now st st' k,
       enums_hold st → db_run_insert n t s d now st = Ok (st', k) →
       enums_hold st')
  ∧ (∀ sets id now st st',
       enums_hold st → db_run_update sets id now st = Ok st' → enums_hold st')
  ∧ (∀ n s d now st,
       sqlite_sequence st < MAX_ROWID →
       is_Some (bind_text n) → is_Some (bind_text s) →
       db_run_insert n (JStr (lit "Pump")) s d now st
       = Err SQLITE_CONSTRAINT_CHECK)
  ∧ (∀ now b st,
       type b = JStr (lit "Pump") →
       ∃ details,
         post_equipment now b st
         = (st, mkResponse 400 (Invalid (lit "Validation failed") details))
         ∧ create_type_error ∈ details).
Proof.
  split; [|split; [|split; [|split]]].
  - intros st [calls <-]. apply serve_enums. intros k r Hk.
    unfold initialize in Hk. cbn [equipment] in Hk.
    by rewrite lookup_empty in Hk.
  - intros n t s d now st st' k Hst Hins. by eapply insert_keeps_enums.
  - intros sets id now st st' Hst Hupd. by eapply update_keeps_enums.
  - intros n s d now st Hroom [n' Hn] [s' Hs]. unfold db_run_insert.
    destruct (Z.leb_spec MAX_ROWID (sqlite_sequence st)); [lia |].
    by rewrite Hn, Hs.
  - intros now b st Hpump.
    assert (Hin : create_type_error ∈ create_failures b).
    { apply type_error_in_create_failures. by rewrite Hpump. }
    exists (create_failures b). split; [|exact Hin].
    apply post_invalid. intros Hnil. rewrite Hnil in Hin.
    by apply elem_of_nil in Hin.
Qed.



(** C9. On create a falsy [lastCleanedDate] (absent, [null] or the empty
    string among them) is never checked against the pattern: no 400 lists
    the message about the date, and when the other fields keep their rules
    the row is stored with a [NULL] date.  On update of an existing record
    an empty-string date is answered 400 and nothing changes, with the
    message about the date when the other supplied fields keep their
    rules: there the date escapes the pattern only when it is absent or
    [null]. *)
Theorem empty_date_on_create_and_on_update :
  ∀ (now : jsstring) (b : Body) (st : Store),
    (truthy JUndefined = false ∧ truthy JNull = false
     ∧ truthy (JStr []) = false ∧ date_regex_test (JStr []) = false)
    ∧ (truthy (lastCleanedDate b) = false →
       (∀ e details,
          (post_equipment now b st).2 = mkResponse 400 (Invalid e details) →
          date_error ∉ details)
       ∧ (name_ok (name b) = true → type_ok (type b) = true →
          status_ok (status b) = true → sqlite_sequence st < MAX_ROWID →
          ∃ st' k row,
            post_equipment now b st
            = (st', mkResponse 201
                      (Saved (lit "Equipment created successfully")
                         (Some (k, row))))
            ∧ equipment st' !! k = Some row
            ∧ Columns.lastCleanedDate row = None))
    ∧ (∀ id existing,
         numeric_id id → db_get id st = Some existing →
         (lastCleanedDate b = JStr [] →
          ∃ first,
            put_equipment now id b st
            = (st, mkResponse 400
                     (Invalid (lit "Validation failed") [first])))
         ∧ ((supplied (name b) = true → name_ok (name b) = true) →
            (supplied (type b) = true → type_ok (type b) = true) →
            (supplied (status b) = true → status_ok (status b) = true) →
            (put_equipment now id b st
             = (st, mkResponse 400
                      (Invalid (lit "Validation failed") [date_error]))
             ↔ lastCleanedDate b ≠ JUndefined ∧ lastCleanedDate b ≠ JNull
               ∧ date_regex_test (lastCleanedDate b) = false))).
Proof.
  intros now b st. split; [by repeat split |]. split.
  - intros Hfalsy.
    assert (Hok : date_ok_on_create (lastCleanedDate b) = true)
      by (unfold date_ok_on_create; by rewrite Hfalsy).
    split.
    + intros e details ->%post_details Hin%date_error_in_create_failures.
      congruence.
    + intros Hn Ht Hs Hroom.
      assert (Hf : create_failures b = [])
        by (apply create_failures_nil; done).
      eexists _, _, _. split; [apply (post_created now b st Hf Hroom) |].
      cbn [equipment]. rewrite lookup_insert_eq. split; [reflexivity |].
      unfold created_row. cbn [Columns.lastCleanedDate]. by rewrite Hfalsy.
  - intros id existing Hid Hsel. split.
    + intros Hempty.
      assert (Hin : date_error ∈ update_failures b).
      { apply date_error_in_update_failures. by rewrite Hempty. }
      destruct (update_failures b) as [|first others] eqn:Hf;
        [by apply elem_of_nil in Hin |].
      exists first. by apply (put_invalid now id b st existing first others).
    + intros Hn Ht Hs.
      assert (Hf := update_failures_date_only b Hn Ht Hs).
      rewrite <- supplied_true, <- is_null_false.
      unfold date_ok_on_update in Hf.
      destruct (supplied (lastCleanedDate b)) eqn:Hsup,
        (is_null (lastCleanedDate b)) eqn:Hnull,
        (date_regex_test (lastCleanedDate b)) eqn:Hre;
        cbn in Hf.
      all: try (rewrite (put_invalid now id b st existing _ _ Hid Hsel Hf);
                by intuition).
      all: split; [|by intros (? & ? & ?)].
      all: destruct (put_cases now id b st)
          as [[_ ->]|[(_ & _ & ->)|[(k & r & first & others & _ & _ & Hf' & ->)
             |[(k & r & _ & _ & _ & _ & ->)|(k & r & _ & _ & _ & _ & ->)]]]];
          try discriminate.
      all: by rewrite Hf in Hf'.
Qed.

(** C10. An update whose path id is numeric but selects no row answers 404
    with the parsed id, whatever the body holds: the lookup comes before
    every check of a field and before the check that a field was supplied;
    the database is left as it was.  The parsed id is the number that
    [parseInt] makes of the digits: the integer they write when its
    magnitude is below [2^53], and the double nearest to it above. *)
Theorem put_unknown_id_is_404 :
  ∀ (now id : jsstring) (b : Body) (st : Store),
    numeric_id id →
    db_get id st = None →
    put_equipment now id b st
    = (st, mkResponse 404 (NotFound (lit "Equipment not found") (parseInt id)))
    ∧ (∀ k, mathInt id = Some k →
         (- MAX_SAFE_INTEGER ≤ k ≤ MAX_SAFE_INTEGER → parseInt id = Some k)
         ∧ (∀ n, parseInt id = Some n →
              Z.abs (n - k) * 2 ^ 53 ≤ Z.abs k)).
Proof.
  intros now id b st [Hne Hnum] Hget. split.
  - unfold put_equipment. rewrite Hne, Hnum, Hget. reflexivity.
  - intros k Hk. unfold parseInt. rewrite Hk. split.
    + apply to_double_safe.
    + apply to_double_near.
Qed.

End Properties.

(* ===================================================================== *)
(** ** Further properties of the handlers *)
(* ===================================================================== *)

Section Further.

Context {affinity : RowidAffinity}.

(** Every way a delete can go. *)
Lemma delete_cases (id : jsstring) (st : Store) :
  (is_empty id || isNaN id = true
   ∧ delete_equipment id st
     = (st, mkResponse 400 (Refused (lit "Invalid equipment ID"))))
  ∨ (numeric_id id ∧ db_get id st = None
     ∧ delete_equipment id st
       = (st, mkResponse 404
                (NotFound (lit "Equipment not found") (parseInt id))))
  ∨ (∃ k r,
       numeric_id id ∧ db_get id st = Some (k, r)
       ∧ delete_equipment id st
         = ({| equipment := delete k (equipment st);
               sqlite_sequence := sqlite_sequence st |},
            mkResponse 200
              (Removed (lit "Equipment deleted successfully")
                 (parseInt id)))).
Proof.
  unfold delete_equipment, db_run_delete.
  destruct (is_empty id || isNaN id) eqn:Hid; [by left |].
  right. apply orb_false_iff in Hid.
  destruct (db_get id st) as [[k r]|] eqn:Hsel; [right | by left].
  exists k, r. apply db_get_Some in Hsel as Hk. destruct Hk as [-> _].
  done.
Qed.

(** X1. A request that is not answered 200 or 201 leaves the database as
    it was, and so does every listing. *)
Theorem refused_requests_change_nothing :
  ∀ (now : jsstring) (rq : Request) (st : Store),
    (code (handle now rq st).2 ≠ 200 → code (handle now rq st).2 ≠ 201 →
     (handle now rq st).1 = st)
    ∧ (rq = GET_equipment → (handle now rq st).1 = st).
Proof.
  intros now rq st. split; [|by intros ->].
  destruct rq as [|b|id b|id]; cbn [handle].
  - done.
  - destruct (post_cases now b st) as [[_ ->]|[(_ & _ & ->)|(_ & _ & ->)]];
      done.
  - destruct (put_cases now id b st)
      as [[_ ->]|[(_ & _ & ->)|[(k & r & first & others & _ & _ & _ & ->)
         |[(k & r & _ & _ & _ & _ & ->)|(k & r & _ & _ & _ & _ & ->)]]]];
      done.
  - destruct (delete_cases id st)
      as [[_ ->]|[(_ & _ & ->)|(k & r & _ & _ & ->)]]; done.
Qed.

(** X2. What the handlers hand to the table after their checks never
    breaks a constraint of the table.  The [INSERT] of a create whose
    [errors] array is empty goes through when a key is left, and fails for
    the lack of a key and for nothing else; the [UPDATE] of an update that
    passes the checks of its fields does not fail.  The constraints are not
    idle: handed a type outside the enumeration, or no name, the [INSERT]
    fails on them. *)
Theorem checked_values_keep_the_constraints :
  ∀ (now id : jsstring) (b : Body) (st : Store),
    let insert :=
      db_run_insert (JStr (trim_of (name b))) (type b) (status b)
        (if truthy (lastCleanedDate b) then lastCleanedDate b else JNull)
        now st in
    (create_errors b = [] →
     (sqlite_sequence st < MAX_ROWID → ∃ st' k, insert = Ok (st', k))
     ∧ (∀ e, insert = Err e →
          e = SQLITE_FULL ∧ MAX_ROWID ≤ sqlite_sequence st))
    ∧ (∀ updates,
         update_clauses b = Next updates →
         ∃ st',
           db_run_update (updates ++ [Set_updatedAt_CURRENT_TIMESTAMP]) id
             now st
           = Ok st')
    ∧ db_run_insert (JStr (lit "Tank 1")) (JStr (lit "Pump"))
        (JStr (lit "Active")) JNull now initialize
      = Err SQLITE_CONSTRAINT_CHECK
    ∧ db_run_insert JNull (JStr (lit "Tank")) (JStr (lit "Active")) JNull
        now initialize
      = Err SQLITE_CONSTRAINT_NOTNULL.
Proof.
  intros now id b st insert.
  split; [| split; [| split; reflexivity]].
  - rewrite create_errors_spec. intros Hf.
    assert (Hpost := post_cases now b st).
    unfold post_equipment in Hpost. rewrite create_errors_spec, Hf in Hpost.
    cbn [length Nat.ltb Nat.leb] in Hpost. fold insert in Hpost.
    destruct Hpost as [[Hbad _]|[(_ & Hfull & Heq)|(_ & Hroom & Heq)]];
      [done | |].
    + destruct insert as [[st' k]|e]; [discriminate |].
      injection Heq as ->. split; [lia |]. by intros e [= <-].
    + destruct insert as [[st' k]|e]; [| discriminate].
      split; [eauto | discriminate].
  - intros updates Hnext. rewrite update_clauses_spec in Hnext.
    destruct (update_failures b) as [|m l] eqn:Hf; [| discriminate].
    destruct (some_field_supplied b); [| discriminate].
    injection Hnext as <-. unfold db_run_update.
    destruct (db_get id st) as [[k r]|]; [| eauto].
    rewrite (assign_supplied now b r Hf). eauto.
Qed.

(** X3. An update is answered 400 with "No fields to update" exactly when
    its id is numeric and selects a row and its body supplies none of the
    four fields; the database is left as it was. *)
Theorem update_without_fields :
  ∀ (now id : jsstring) (b : Body) (st : Store),
    put_equipment now id b st
    = (st, mkResponse 400 (Refused (lit "No fields to update")))
    ↔ numeric_id id ∧ is_Some (db_get id st)
      ∧ name b = JUndefined ∧ type b = JUndefined
      ∧ status b = JUndefined ∧ lastCleanedDate b = JUndefined.
Proof.
  intros now id b st. split.
  - destruct (put_cases now id b st)
      as [[_ ->]|[(_ & _ & ->)|[(k & r & first & others & _ & _ & _ & ->)
         |[(k & r & Hid & Hsel & _ & Hnone & ->)|(k & r & _ & _ & _ & _ & ->)]]]];
      try discriminate.
    intros _. split; [exact Hid |]. split; [by rewrite Hsel |].
    unfold some_field_supplied in Hnone.
    apply orb_false_iff in Hnone
      as [[[Hn Ht]%orb_false_iff Hs]%orb_false_iff Hd].
    by destruct (name b), (type b), (status b), (lastCleanedDate b).
  - intros (Hid & [existing Hsel] & Hn & Ht & Hs & Hd).
    apply (put_no_fields now id b st existing Hid Hsel).
    unfold some_field_supplied. by rewrite Hn, Ht, Hs, Hd.
Qed.

(** *** What the rows hold *)

Lemma trim_fixed (s : jsstring) :
  (∀ c t, s = c :: t → is_whitespace c = false) →
  (∀ t c, s = t ++ [c] → is_whitespace c = false) →
  trim s = s.
Proof.
  intros Hhd Htl. unfold trim, trimEnd, trimStart.
  assert (Hstart : drop_while is_whitespace s = s).
  { destruct s as [|c t]; [done |]. simpl. by rewrite (Hhd c t). }
  rewrite Hstart.
  assert (Hend : drop_while is_whitespace (rev s) = rev s).
  { destruct (rev s) as [|c t] eqn:Hrev; [done |]. simpl.
    rewrite (Htl (rev t) c); [done |].
    by rewrite <- (rev_involutive s), Hrev. }
  by rewrite Hend, rev_involutive.
Qed.

Lemma trim_idem (s : jsstring) : trim (trim s) = trim s.
Proof.
  destruct (trim_spec s) as (l & r & _ & _ & _ & Hhd & Htl).
  by apply trim_fixed.
Qed.

(** A trimmed string stays trimmed when its unpaired surrogates are
    replaced. *)
Lemma trim_to_well_formed (s : jsstring) :
  trim s = s → trim (to_well_formed s) = to_well_formed s.
Proof.
  intros Hs. destruct (trim_spec s) as (_ & _ & _ & _ & _ & Hhd & Hlast).
  rewrite Hs in Hhd, Hlast.
  pose proof (to_well_formed_units s) as Hunits.
  apply trim_fixed.
  - intros c' t' Heq. rewrite Heq in Hunits.
    apply Forall2_cons_inv_l in Hunits as (c & t & [-> | ->] & _ & ->).
    + by eapply Hhd.
    + reflexivity.
  - intros t' c' Heq. rewrite Heq in Hunits.
    apply Forall2_app_inv_l in Hunits as (t & k & _ & Hk & ->).
    apply Forall2_cons_inv_l in Hk as (c & k' & Hc & Hnil & ->).
    apply Forall2_nil_inv_l in Hnil as ->.
    destruct Hc as [-> | ->]; [by eapply Hlast | reflexivity].
Qed.

Lemma bound_date_fits (v : JsVal) (d : jsstring) :
  date_regex_test v = true → bind_text v = Some d →
  date_pattern d = true ∨ d = lit "[object Object]".
Proof.
  unfold date_regex_test.
  destruct v as [| |[]|n|s|l|]; cbn [bind_text]; try discriminate.
  - intros Hp [= <-]. by left.
  - cbn [ToString]. intros Hp [= <-]. left.
    by rewrite to_well_formed_date.
  - intros _ [= <-]. by right.
Qed.

Lemma stored_name_as_checked (s : jsstring) :
  trim s ≠ [] →
  to_well_formed (trim s) ≠ []
  ∧ trim (to_well_formed (trim s)) = to_well_formed (trim s)
  ∧ well_formed (to_well_formed (trim s)).
Proof.
  intros Hne. split; [by rewrite to_well_formed_nil |].
  split; [apply trim_to_well_formed, trim_idem | apply to_well_formed_idem].
Qed.

Lemma created_row_as_checked (now : jsstring) (b : Body) :
  create_failures b = [] → row_as_checked (created_row now b).
Proof.
  intros (Hn & _ & _ & Hd)%create_failures_nil.
  apply name_ok_inv in Hn as (s & Hs & Hne).
  destruct (stored_name_as_checked s Hne) as (H1 & H2 & H3).
  unfold row_as_checked, created_row.
  cbn [Columns.name Columns.lastCleanedDate]. rewrite Hs. cbn [trim_of].
  split; [exact H1 |]. split; [exact H2 |]. split; [exact H3 |].
  intros d. unfold date_ok_on_create in Hd.
  destruct (truthy (lastCleanedDate b)); [|discriminate].
  cbn [negb orb] in Hd. by apply bound_date_fits.
Qed.

Lemma updated_row_as_checked (now : jsstring) (b : Body) (r : Columns.t) :
  update_failures b = [] → row_as_checked r →
  row_as_checked (updated_row now b r).
Proof.
  intros (Hn & _ & _ & Hd)%update_failures_nil (Hr1 & Hr2 & Hr3 & Hr4).
  assert (Hdate : ∀ d,
            (if supplied (lastCleanedDate b)
             then bind_text (lastCleanedDate b)
             else Columns.lastCleanedDate r) = Some d →
            date_pattern d = true ∨ d = lit "[object Object]").
  { destruct (supplied (lastCleanedDate b)); [| exact Hr4].
    intros d. specialize (Hd eq_refl). unfold date_ok_on_update in Hd.
    destruct (is_null (lastCleanedDate b)) eqn:Hnull.
    - by destruct (lastCleanedDate b).
    - by apply bound_date_fits. }
  unfold row_as_checked, updated_row.
  cbn [Columns.name Columns.lastCleanedDate].
  destruct (supplied (name b)).
  - apply name_ok_inv in Hn as (s & Hs & Hne); [|done].
    destruct (stored_name_as_checked s Hne) as (H1 & H2 & H3).
    rewrite Hs. cbn [trim_of]. done.
  - done.
Qed.

Lemma handle_as_checked (now : jsstring) (rq : Request) (st : Store) :
  (∀ k r, equipment st !! k = Some r → row_as_checked r) →
  ∀ k r, equipment (handle now rq st).1 !! k = Some r → row_as_checked r.
Proof.
  intros Hst. destruct rq as [|b|id b|id]; cbn [handle].
  - done.
  - destruct (post_cases now b st) as [[_ ->]|[(_ & _ & ->)|(Hf & _ & ->)]];
      try done.
    intros k r. cbn [fst equipment].
    intros [[_ <-]|[_ Hk]]%lookup_insert_Some; [|by eapply Hst].
    by apply created_row_as_checked.
  - destruct (put_cases now id b st)
      as [[_ ->]|[(_ & _ & ->)|[(k & r & first & others & _ & _ & _ & ->)
         |[(k & r & _ & _ & _ & _ & ->)|(k & r & _ & Hsel & Hf & _ & ->)]]]];
      try done.
    apply db_get_Some in Hsel as [_ Hr].
    intros k' r'. cbn [fst equipment].
    intros [[_ <-]|[_ Hk]]%lookup_insert_Some; [|by eapply Hst].
    apply updated_row_as_checked; [done | by eapply Hst].
  - destruct (delete_cases id st)
      as [[_ ->]|[(_ & _ & ->)|(k & r & _ & _ & ->)]]; try done.
    intros k' r'. cbn [fst equipment].
    intros [_ Hk]%lookup_delete_Some. by eapply Hst.
Qed.

(** X4. Whatever the requests, the rows keep what the handlers check.  In
    a database whose names are non-empty, trimmed and free of unpaired
    surrogates, and whose dates are [NULL], fit the pattern or are the text
    ["[object Object]"], every run of requests leaves such rows only; so it
    is in every state reached from a new database.  The last kind of date
    does arise: the pattern is tried on the print of the value, which for an
    array of one date is that date, and the table stores an array as that
    text. *)
Theorem rows_keep_what_is_checked :
  (∀ (calls : list (jsstring * Request)) (st : Store),
     (∀ k r, equipment st !! k = Some r → row_as_checked r) →
     ∀ k r, equipment (serve calls st).1 !! k = Some r → row_as_checked r)
  ∧ (∀ st, reachable st →
     ∀ k r, equipment st !! k = Some r →
       Columns.name r ≠ [] ∧ trim (Columns.name r) = Columns.name r
       ∧ to_well_formed (Columns.name r) = Columns.name r
       ∧ ∀ d, Columns.lastCleanedDate r = Some d →
              date_pattern d = true ∨ d = lit "[object Object]")
  ∧ (∀ (now : jsstring) (b : Body) (st : Store) (l : list JsVal),
       lastCleanedDate b = JArr l →
       code (post_equipment now b st).2 = 201 →
       date_pattern (ToString (JArr l)) = true
       ∧ ∃ k row,
           equipment (post_equipment now b st).1 !! k = Some row
           ∧ Columns.lastCleanedDate row = Some (lit "[object Object]")).
Proof.
  assert (Hserve : ∀ (calls : list (jsstring * Request)) (st : Store),
     (∀ k r, equipment st !! k = Some r → row_as_checked r) →
     ∀ k r, equipment (serve calls st).1 !! k = Some r → row_as_checked r).
  { induction calls as [|[now rq] calls IH]; intros st Hst; [done |].
    rewrite serve_cons. cbn [fst]. by apply IH, handle_as_checked. }
  split; [exact Hserve |]. split.
  - intros st [calls <-] k r Hk. apply (Hserve calls initialize) with k;
      [|exact Hk].
    intros k' r' Hk'. unfold initialize in Hk'. cbn [equipment] in Hk'.
    by rewrite lookup_empty in Hk'.
  - intros now b st l Hdate.
    destruct (post_cases now b st) as [[_ ->]|[(_ & _ & ->)|(Hf & _ & ->)]];
      try discriminate.
    intros _. apply create_failures_nil in Hf as (_ & _ & _ & Hd).
    unfold date_ok_on_create, date_regex_test in Hd. rewrite Hdate in Hd.
    split; [exact Hd |].
    eexists _, _. cbn [fst equipment]. rewrite lookup_insert_eq.
    split; [reflexivity |].
    unfold created_row. cbn [Columns.lastCleanedDate]. by rewrite Hdate.
Qed.

(** *** Keys and creation times *)

Ltac unchanged_row :=
  split; [done |];
  let Hr := fresh in let Hr' := fresh in
  intros ? ? Hr Hr'; rewrite Hr in Hr'; by injection Hr' as ->.

Lemma handle_key (now : jsstring) (rq : Request) (st : Store) (k : Z) :
  store_wf st → k ≤ sqlite_sequence st →
  (equipment st !! k = None → equipment (handle now rq st).1 !! k = None)
  ∧ (∀ r r', equipment st !! k = Some r →
       equipment (handle now rq st).1 !! k = Some r' →
       Columns.createdAt r' = Columns.createdAt r).
Proof.
  intros Hwf Hk. destruct rq as [|b|id b|id]; cbn [handle].
  - unfold get_equipment. cbn [fst]. unchanged_row.
  - destruct (post_cases now b st) as [[_ ->]|[(_ & _ & ->)|(_ & _ & ->)]];
      cbn [fst equipment].
    1,2: unchanged_row.
    rewrite lookup_insert_ne by lia.
    unchanged_row.
  - destruct (put_cases now id b st)
      as [[_ ->]|[(_ & _ & ->)|[(k' & r0 & first & others & _ & _ & _ & ->)
         |[(k' & r0 & _ & _ & _ & _ & ->)|(k' & r0 & _ & Hsel & _ & _ & ->)]]]];
      cbn [fst equipment].
    1,2,3,4: unchanged_row.
    apply db_get_Some in Hsel as [_ Hr0].
    destruct (decide (k' = k)) as [->|Hne].
    + rewrite lookup_insert_eq. split; [by rewrite Hr0 |].
      intros r r' Hr [= <-]. rewrite Hr0 in Hr. by injection Hr as <-.
    + rewrite lookup_insert_ne by done.
      unchanged_row.
  - destruct (delete_cases id st)
      as [[_ ->]|[(_ & _ & ->)|(k' & r0 & _ & _ & ->)]];
      cbn [fst equipment].
    1,2: unchanged_row.
    destruct (decide (k' = k)) as [->|Hne].
    + rewrite lookup_delete_eq. split; [done | by intros r r' _ [=]].
    + rewrite lookup_delete_ne by done.
      unchanged_row.
Qed.

Lemma serve_key (calls : list (jsstring * Request)) (st : Store) (k : Z) :
  store_wf st → k ≤ sqlite_sequence st →
  (equipment st !! k = None → equipment (serve calls st).1 !! k = None)
  ∧ (∀ r r', equipment st !! k = Some r →
       equipment (serve calls st).1 !! k = Some r' →
       Columns.createdAt r' = Columns.createdAt r).
Proof.
  revert st. induction calls as [|[now rq] calls IH]; intros st Hwf Hk.
  { cbn [serve fst]. unchanged_row. }
  rewrite serve_cons. cbn [fst].
  destruct (handle_key now rq st k Hwf Hk) as [Hnone Hsome].
  destruct (IH (handle now rq st).1) as [IHnone IHsome].
  { by apply handle_wf. }
  { pose proof (handle_sequence now rq st). lia. }
  split; [by intros ?%Hnone%IHnone |].
  intros r r' Hr Hr'.
  destruct (equipment (handle now rq st).1 !! k) as [r1|] eqn:H1.
  - rewrite (IHsome r1 r' eq_refl Hr'). by apply Hsome.
  - by rewrite IHnone in Hr'.
Qed.

(** X5. Through any run of requests the creation time of a record stays
    what it was, and a key at or below the counter that has no row (the id
    of a record since deleted) gets none again. *)
Theorem creation_time_and_deleted_ids :
  ∀ (calls : list (jsstring * Request)) (st : Store) (k : Z),
    store_wf st →
    (∀ r r', equipment st !! k = Some r →
       equipment (serve calls st).1 !! k = Some r' →
       Columns.createdAt r' = Columns.createdAt r)
    ∧ (k ≤ sqlite_sequence st → equipment st !! k = None →
       equipment (serve calls st).1 !! k = None).
Proof.
  intros calls st k Hwf. split.
  - intros r r' Hr. apply (serve_key calls st k Hwf); [by eapply Hwf | done].
  - intros Hk. by apply (serve_key calls st k Hwf).
Qed.

Lemma handle_created_key (now : jsstring) (rq : Request) (st : Store) :
  (created_key (handle now rq st).2 = Some (sqlite_sequence st + 1)
   ∧ sqlite_sequence (handle now rq st).1 = sqlite_sequence st + 1)
  ∨ (created_key (handle now rq st).2 = None
     ∧ sqlite_sequence (handle now rq st).1 = sqlite_sequence st).
Proof.
  destruct rq as [|b|id b|id]; cbn [handle].
  - by right.
  - destruct (post_cases now b st) as [[_ ->]|[(_ & _ & ->)|(_ & _ & ->)]];
      [by right | by right | by left].
  - right.
    destruct (put_cases now id b st)
      as [[_ ->]|[(_ & _ & ->)|[(k & r & first & others & _ & _ & _ & ->)
         |[(k & r & _ & _ & _ & _ & ->)|(k & r & _ & _ & _ & _ & ->)]]]];
      done.
  - right.
    destruct (delete_cases id st)
      as [[_ ->]|[(_ & _ & ->)|(k & r & _ & _ & ->)]]; done.
Qed.

(** X6. The ids that the creates of a run report, in order, are the
    integers that follow the counter the run started with, one after the
    other, and the counter ends at the last of them: in a new database the
    creates answered 201 report 1, 2, 3, ... whatever else is requested in
    between. *)
Theorem created_ids_are_consecutive :
  ∀ (calls : list (jsstring * Request)) (st : Store),
    sqlite_sequence st ≤ sqlite_sequence (serve calls st).1
    ∧ omap created_key (serve calls st).2
      = seqZ (sqlite_sequence st + 1)
          (sqlite_sequence (serve calls st).1 - sqlite_sequence st).
Proof.
  induction calls as [|[now rq] calls IH]; intros st.
  { cbn [serve fst snd omap]. split; [lia |]. by rewrite seqZ_nil by lia. }
  rewrite serve_cons. cbn [fst snd].
  destruct (IH (handle now rq st).1) as [IHle IHeq].
  destruct (handle_created_key now rq st) as [[Hkey Hseq]|[Hkey Hseq]].
  - split; [lia |]. cbn [omap list_omap]. rewrite Hkey.
    fold (omap created_key (serve calls (handle now rq st).1).2).
    rewrite IHeq, Hseq.
    rewrite (seqZ_cons (sqlite_sequence st + 1)) by lia.
    f_equal. f_equal; lia.
  - split; [lia |]. cbn [omap list_omap]. rewrite Hkey.
    fold (omap created_key (serve calls (handle now rq st).1).2).
    by rewrite IHeq, Hseq.
Qed.

(** *** The listing after a create, a delete, an update *)

Lemma db_all_newer (st : Store) : StronglySorted newer (db_all st).
Proof.
  apply desc_NoDup_newer; [apply db_all_sorted | apply db_all_NoDup].
Qed.

Lemma db_all_length (st : Store) : length (db_all st) = size (equipment st).
Proof. rewrite db_all_perm. apply length_map_to_list. Qed.

Lemma filter_newer (P : Equipment → Prop) `{∀ x, Decision (P x)}
    (l : list Equipment) :
  StronglySorted newer l → StronglySorted newer (filter P l).
Proof.
  induction 1 as [|x l Hl IH Hx]; [constructor |].
  rewrite filter_cons. destruct (decide (P x)); [|exact IH].
  constructor; [exact IH |].
  apply Forall_forall. intros y [_ Hy]%list_elem_of_filter.
  rewrite Forall_forall in Hx. by apply Hx.
Qed.

Lemma filter_keeps_all (P : Equipment → Prop) `{∀ x, Decision (P x)}
    (l : list Equipment) :
  Forall P l → filter P l = l.
Proof.
  induction 1 as [|x l Hx Hl IH]; [done |].
  by rewrite filter_cons_True, IH.
Qed.

Lemma fmap_fixed (f : Equipment → Equipment) (l : list Equipment) :
  Forall (λ x, f x = x) l → f <$> l = l.
Proof.
  induction 1 as [|x l Hx Hl IH]; [done |].
  by rewrite fmap_cons, Hx, IH.
Qed.

(** X7. A create answered 201 in a database whose counter is at least
    every key takes a key that no row has, adds that one row, stamped with
    the clock reading as its creation and update time, and leaves every
    other row as it was; the listing gains the new row at its head. *)
Theorem create_adds_one_row :
  ∀ (now : jsstring) (b : Body) (st : Store),
    store_wf st →
    code (post_equipment now b st).2 = 201 →
    ∃ k row,
      post_equipment now b st
      = ({| equipment := <[k := row]> (equipment st); sqlite_sequence := k |},
         mkResponse 201
           (Saved (lit "Equipment created successfully") (Some (k, row))))
      ∧ equipment st !! k = None
      ∧ Columns.createdAt row = now ∧ Columns.updatedAt row = now
      ∧ db_all (post_equipment now b st).1 = (k, row) :: db_all st
      ∧ size (equipment (post_equipment now b st).1)
        = S (size (equipment st)).
Proof.
  intros now b st Hwf.
  destruct (post_cases now b st) as [[_ ->]|[(_ & _ & ->)|(Hf & Hroom & Hp)]];
    try discriminate.
  intros _.
  destruct (post_created_listing now b st Hwf Hf Hroom)
    as (st' & Hp' & _ & _ & Hl).
  assert (Hfresh : equipment st !! (sqlite_sequence st + 1) = None).
  { destruct (equipment st !! (sqlite_sequence st + 1)) as [r|] eqn:Hk;
      [|done].
    specialize (Hwf _ _ Hk). lia. }
  exists (sqlite_sequence st + 1), (created_row now b).
  split; [exact Hp |]. split; [exact Hfresh |].
  split; [done |]. split; [done |].
  rewrite Hp'. cbn [fst]. split; [exact Hl |].
  rewrite Hp in Hp'. injection Hp' as <-. cbn [equipment].
  by apply map_size_insert_None.
Qed.

(** X8. After a delete answered 200 the listing is the listing of before
    without the row of the deleted key, the other rows in the order they
    had, and it is one row shorter. *)
Theorem delete_and_listing :
  ∀ (id : jsstring) (st : Store) (k : Z) (r : Columns.t),
    numeric_id id →
    db_get id st = Some (k, r) →
    db_all (delete_equipment id st).1 = filter (λ x, x.1 ≠ k) (db_all st)
    ∧ length (db_all st) = S (length (db_all (delete_equipment id st).1))
    ∧ ∀ r', (k, r') ∉ db_all (delete_equipment id st).1.
Proof.
  intros id st k r Hid Hsel.
  destruct (delete_cases id st)
    as [[Hbad _]|[(_ & Hnone & _)|(k' & r' & _ & Hsel' & ->)]].
  { destruct Hid as [Hne Hnum]. by rewrite Hne, Hnum in Hbad. }
  { by rewrite Hsel in Hnone. }
  rewrite Hsel in Hsel'. injection Hsel' as <- <-. cbn [fst].
  apply db_get_Some in Hsel as [_ Hr].
  set (st' := {| equipment := delete k (equipment st);
                 sqlite_sequence := sqlite_sequence st |}).
  split; [|split].
  - apply newer_unique.
    + apply db_all_newer.
    + apply filter_newer, db_all_newer.
    + rewrite !db_all_perm. cbn [st' equipment].
      rewrite <- (map_to_list_delete (equipment st) k r Hr).
      rewrite filter_cons_False by (cbn; tauto).
      rewrite filter_keeps_all; [done |].
      apply Forall_forall. intros [k' r'] Hin%elem_of_map_to_list.
      apply lookup_delete_Some in Hin as [Hne _]. cbn. congruence.
  - rewrite !db_all_length. cbn [st' equipment].
    rewrite <- (insert_delete_id (equipment st) k r Hr) at 1.
    apply map_size_insert_None, lookup_delete_eq.
  - intros r'. rewrite db_all_elem. cbn [st' equipment].
    by rewrite lookup_delete_eq.
Qed.

(** X9. After an update answered 200 the listing is the listing of before
    with the row of the updated key replaced: the same ids in the same
    order, and as many rows. *)
Theorem update_and_listing :
  ∀ (now id : jsstring) (b : Body) (st : Store),
    code (put_equipment now id b st).2 = 200 →
    ∃ k r',
      (put_equipment now id b st).2
      = mkResponse 200
          (Saved (lit "Equipment updated successfully") (Some (k, r')))
      ∧ db_all (put_equipment now id b st).1
        = replace_row k r' <$> db_all st
      ∧ (db_all (put_equipment now id b st).1).*1 = (db_all st).*1.
Proof.
  intros now id b st.
  destruct (put_cases now id b st)
    as [[_ ->]|[(_ & _ & ->)|[(k & r & first & others & _ & _ & _ & ->)
       |[(k & r & _ & _ & _ & _ & ->)|(k & r & _ & Hsel & _ & _ & ->)]]]];
    try discriminate.
  intros _. exists k, (updated_row now b r). split; [done |]. cbn [fst].
  apply db_get_Some in Hsel as [_ Hr].
  set (r' := updated_row now b r).
  assert (Hkeys : ∀ x : Equipment, (replace_row k r' x).1 = x.1).
  { intros [k0 r0]. unfold replace_row. cbn. by destruct (decide (k0 = k)). }
  assert (Hall : db_all {| equipment := <[k := r']> (equipment st);
                           sqlite_sequence := sqlite_sequence st |}
                 = replace_row k r' <$> db_all st).
  { apply newer_unique.
    - apply db_all_newer.
    - eapply StronglySorted_fmap; [|apply db_all_newer].
      intros x y. unfold newer. by rewrite !Hkeys.
    - rewrite !db_all_perm. cbn [equipment].
      rewrite <- (insert_delete_eq (equipment st)).
      rewrite map_to_list_insert by apply lookup_delete_eq.
      rewrite <- (map_to_list_delete (equipment st) k r Hr).
      rewrite fmap_cons. unfold replace_row at 1. cbn.
      rewrite decide_True by done. constructor.
      rewrite fmap_fixed; [done |].
      apply Forall_forall. intros [k0 r0] Hin%elem_of_map_to_list.
      apply lookup_delete_Some in Hin as [Hne _].
      unfold replace_row. cbn. by rewrite decide_False by congruence. }
  split; [exact Hall |].
  rewrite Hall, <- list_fmap_compose.
  apply list_fmap_ext. intros i x _. apply Hkeys.
Qed.

(** X10. The last update wins: when an update that supplies every field
    an earlier one supplied follows it on the same id, and each would be
    answered 200 on its own, the answer and the database are those of the
    later update alone.  So an update sent twice does what it does once. *)
Theorem last_update_wins :
  ∀ (now1 now2 id : jsstring) (b1 b2 : Body) (st : Store),
    code (put_equipment now1 id b1 st).2 = 200 →
    code (put_equipment now2 id b2 st).2 = 200 →
    covers b1 b2 →
    put_equipment now2 id b2 (put_equipment now1 id b1 st).1
    = put_equipment now2 id b2 st.
Proof.
  intros now1 now2 id b1 b2 st.
  destruct (put_cases now1 id b1 st)
    as [[_ ->]|[(_ & _ & ->)|[(k & r & first & others & _ & _ & _ & ->)
       |[(k & r & _ & _ & _ & _ & ->)|(k & r & Hid & Hsel & _ & _ & ->)]]]];
    try discriminate.
  intros _.
  destruct (put_cases now2 id b2 st)
    as [[_ ->]|[(_ & _ & ->)|[(k2 & r2 & first & others & _ & _ & _ & ->)
       |[(k2 & r2 & _ & _ & _ & _ & ->)|(k2 & r2 & _ & Hsel2 & Hf2 & Hsome2 & ->)]]]];
    try discriminate.
  intros _ (Hn & Ht & Hs & Hd).
  rewrite Hsel in Hsel2. injection Hsel2 as <- <-. cbn [fst].
  set (r1 := updated_row now1 b1 r).
  assert (Hsel1 : db_get id {| equipment := <[k := r1]> (equipment st);
                               sqlite_sequence := sqlite_sequence st |}
                  = Some (k, r1)).
  { apply db_get_Some in Hsel as [Hk _]. apply db_get_Some.
    split; [exact Hk |]. cbn [equipment]. apply lookup_insert_eq. }
  rewrite (put_updated now2 id b2 _ k r1 Hid Hsel1 Hf2 Hsome2).
  cbn [equipment sqlite_sequence]. rewrite insert_insert_eq.
  assert (Heq : updated_row now2 b2 r1 = updated_row now2 b2 r);
    [|by rewrite Heq].
  unfold r1, updated_row. cbn [Columns.name Columns.type Columns.status
    Columns.lastCleanedDate Columns.createdAt].
  destruct (supplied (name b2)), (supplied (type b2)), (supplied (status b2)),
    (supplied (lastCleanedDate b2)), (supplied (name b1)), (supplied (type b1)),
    (supplied (status b1)), (supplied (lastCleanedDate b1));
    try reflexivity;
    first [by specialize (Hn eq_refl) | by specialize (Ht eq_refl)
          | by specialize (Hs eq_refl) | by specialize (Hd eq_refl)].
Qed.

(** *** The path the client writes for an id *)

Lemma digit_not_whitespace (c : N) : is_digit c = true → is_whitespace c = false.
Proof.
  unfold is_digit, is_whitespace. intros [H1 H2]%andb_true_iff.
  apply N.leb_le in H1, H2.
  repeat (apply orb_false_iff; split);
    first [apply N.eqb_neq; lia
          | apply andb_false_iff; first [left; apply N.leb_gt; lia
                                        | right; apply N.leb_gt; lia]].
Qed.

Lemma digit_not_sign (c : N) :
  is_digit c = true → ((c =? 43) || (c =? 45))%N = false ∧ (c =? 45)%N = false.
Proof.
  unfold is_digit. intros [H1 H2]%andb_true_iff. apply N.leb_le in H1, H2.
  split; [apply orb_false_iff; split |]; apply N.eqb_neq; lia.
Qed.

Lemma digit_not_x (c : N) :
  is_digit c = true → ((c =? 120) || (c =? 88))%N = false.
Proof.
  unfold is_digit. intros [H1 H2]%andb_true_iff. apply N.leb_le in H1, H2.
  apply orb_false_iff; split; apply N.eqb_neq; lia.
Qed.

Lemma take_while_all (p : N → bool) (s : jsstring) :
  forallb p s = true → take_while p s = s ∧ drop_while p s = [].
Proof.
  induction s as [|c s IH]; [done |]. simpl.
  intros [-> [-> ->]%IH]%andb_true_iff. done.
Qed.

Lemma last_digit (ds t : jsstring) (c : N) :
  forallb is_digit ds = true → ds = t ++ [c] → is_digit c = true.
Proof.
  intros Hds ->. rewrite forallb_app in Hds.
  apply andb_true_iff in Hds as [_ Hc]. simpl in Hc.
  by rewrite andb_true_r in Hc.
Qed.

(** A run of decimal digits, and one after a minus sign, is its own
    trimming. *)
Lemma trim_digits (ds : jsstring) :
  ds ≠ [] → forallb is_digit ds = true →
  trim ds = ds ∧ trim (45%N :: ds) = 45%N :: ds.
Proof.
  intros Hne Hds. split; apply trim_fixed.
  - intros c t ->. simpl in Hds. apply andb_true_iff in Hds as [Hc _].
    by apply digit_not_whitespace.
  - intros t c Heq. by eapply digit_not_whitespace, last_digit.
  - by intros c t [= <- _].
  - intros t c Heq. destruct t as [|c0 t].
    + destruct ds; [done | discriminate].
    + injection Heq as _ Heq. by eapply digit_not_whitespace, last_digit.
Qed.

Lemma digits_numeric (ds : jsstring) :
  ds ≠ [] → forallb is_digit ds = true →
  str_unsigned_decimal_literal ds = true.
Proof.
  intros Hne Hds. unfold str_unsigned_decimal_literal.
  destruct (str_eqb ds (lit "Infinity")); [done |].
  destruct (take_while_all is_digit ds Hds) as [-> ->].
  by destruct ds.
Qed.

Lemma isNaN_digits (ds : jsstring) :
  ds ≠ [] → forallb is_digit ds = true →
  isNaN ds = false ∧ isNaN (45%N :: ds) = false.
Proof.
  intros Hne Hds. destruct (trim_digits ds Hne Hds) as [Ht1 Ht2].
  unfold isNaN. rewrite Ht1, Ht2. cbn [is_empty].
  unfold str_numeric_literal.
  assert (Hstrip : strip_sign ds = ds).
  { destruct ds as [|c ds]; [done |]. simpl in Hds |- *.
    apply andb_true_iff in Hds as [Hc _].
    by rewrite (proj1 (digit_not_sign c Hc)). }
  rewrite Hstrip. cbn [strip_sign N.eqb Pos.eqb orb].
  rewrite (digits_numeric ds Hne Hds), !orb_true_r.
  by destruct ds.
Qed.

Ltac use_radix H :=
  match goal with
  | |- context [let '(_, _) := ?m in _] =>
      match type of H with
      | _ = ?v => replace m with v by (symmetry; exact H)
      end
  end.

Lemma mathInt_digits (ds : jsstring) :
  ds ≠ [] → forallb is_digit ds = true →
  mathInt ds
  = Some (fold_left (fun acc c => acc * 10 + digit_value c) ds 0)
  ∧ mathInt (45%N :: ds)
    = Some (- fold_left (fun acc c => acc * 10 + digit_value c) ds 0).
Proof.
  intros Hne Hds.
  assert (Hradix :
    match ds with
    | 48%N :: x :: r =>
        if ((x =? 120) || (x =? 88))%N then (16, r) else (10, ds)
    | _ => (10, ds)
    end = (10, ds)).
  { destruct ds as [|c [|x r]]; [done | by repeat case_match |].
    assert (Hx : is_digit x = true).
    { simpl in Hds. by apply andb_true_iff in Hds as [_ [? _]%andb_true_iff]. }
    rewrite (digit_not_x x Hx). by repeat case_match. }
  destruct (take_while_all is_digit ds Hds) as [Htake _].
  destruct ds as [|c ds']; [done |].
  assert (Hc : is_digit c = true)
    by (simpl in Hds; by apply andb_true_iff in Hds as [? _]).
  destruct (digit_not_sign c Hc) as [Hs1 Hs2].
  assert (Hws := digit_not_whitespace c Hc).
  split.
  - unfold mathInt, trimStart. cbn [drop_while]. rewrite Hws.
    cbn [strip_sign]. rewrite Hs1.
    assert (Hsign : match c :: ds' with 45%N :: _ => -1 | _ => 1 end = 1).
    { apply N.eqb_neq in Hs2. by repeat case_match. }
    rewrite Hsign. use_radix Hradix. cbn [Z.eqb Pos.eqb]. rewrite Htake.
    cbn [is_empty]. f_equal; lia.
  - unfold mathInt, trimStart. cbn [drop_while is_whitespace].
    cbn [N.leb N.eqb N.compare Pos.compare Pos.compare_cont Pos.eqb andb orb
         strip_sign].
    use_radix Hradix. cbn [Z.eqb Pos.eqb]. rewrite Htake.
    cbn [is_empty]. f_equal; lia.
Qed.

Lemma uint_digits (d : Decimal.uint) :
  forallb is_digit (lit (NilEmpty.string_of_uint d)) = true.
Proof. induction d; [done | simpl; exact IHd ..]. Qed.

Lemma uint_value_acc (d : Decimal.uint) (acc : positive) :
  fold_left (fun acc c => acc * 10 + digit_value c)
    (lit (NilEmpty.string_of_uint d)) (Z.pos acc)
  = Z.pos (Pos.of_uint_acc d acc).
Proof.
  revert acc. induction d; intros acc; [done | ..];
    cbn [NilEmpty.string_of_uint lit list_ascii_of_string List.map fold_left
         Pos.of_uint_acc];
    (etrans; [|apply IHd]); f_equal; vm_compute digit_value; lia.
Qed.

Lemma uint_value (d : Decimal.uint) :
  fold_left (fun acc c => acc * 10 + digit_value c)
    (lit (NilEmpty.string_of_uint d)) 0
  = Z.of_N (Pos.of_uint d).
Proof.
  induction d; [done | exact IHd | ..];
    cbn [NilEmpty.string_of_uint lit list_ascii_of_string List.map fold_left
         Pos.of_uint N.of_nat Z.of_N];
    (etrans; [|apply uint_value_acc]); f_equal.
Qed.

Lemma path_of_positive (p : positive) :
  ∃ ds, ds ≠ [] ∧ forallb is_digit ds = true
        ∧ fold_left (fun acc c => acc * 10 + digit_value c) ds 0 = Z.pos p
        ∧ path_of_id (Z.pos p) = ds
        ∧ path_of_id (Z.neg p) = 45%N :: ds.
Proof.
  exists (lit (NilEmpty.string_of_uint (Pos.to_uint p))).
  pose proof (DecimalPos.Unsigned.to_uint_nonnil p) as Hnn.
  split; [by destruct (Pos.to_uint p) |].
  split; [apply uint_digits |].
  split; [by rewrite uint_value, DecimalPos.Unsigned.of_to |].
  unfold path_of_id, ToString, NilZero.string_of_int, NilZero.string_of_uint.
  cbn [Z.to_int]. by destruct (Pos.to_uint p).
Qed.

Lemma path_numeric (k : Z) :
  numeric_id (path_of_id k) ∧ mathInt (path_of_id k) = Some k.
Proof.
  destruct k as [|p|p]; [by vm_compute | ..];
    destruct (path_of_positive p) as (ds & Hne & Hds & Hval & Hpos & Hneg);
    destruct (isNaN_digits ds Hne Hds) as [Hn1 Hn2];
    destruct (mathInt_digits ds Hne Hds) as [Hp1 Hp2].
  - rewrite Hpos. split; [split; [by destruct ds | exact Hn1] |].
    by rewrite Hp1, Hval.
  - rewrite Hneg. split; [split; [done | exact Hn2] |].
    by rewrite Hp2, Hval.
Qed.

Lemma path_parsed (k : Z) :
  - MAX_SAFE_INTEGER ≤ k ≤ MAX_SAFE_INTEGER → parseInt (path_of_id k) = Some k.
Proof.
  intros Hk. unfold parseInt. rewrite (proj2 (path_numeric k)).
  by apply to_double_safe.
Qed.

Lemma rowid_of_decimal_path (k : Z) :
  - MAX_ROWID - 1 ≤ k ≤ MAX_ROWID → rowid_of_decimal (path_of_id k) = Some k.
Proof.
  intros Hk. unfold rowid_of_decimal.
  rewrite (proj2 (path_numeric k)).
  assert (Hds : all_of is_digit
                  match path_of_id k with 45%N :: r => r | _ => path_of_id k end
                = true).
  { destruct k as [|p|p]; [by vm_compute | ..];
      destruct (path_of_positive p) as (ds & Hne & Hds & _ & Hpos & Hneg).
    - rewrite Hpos. unfold all_of. destruct ds as [|c ds]; [done |].
      assert (Hc : c ≠ 45%N).
      { simpl in Hds. apply andb_true_iff in Hds as [Hc _].
        apply digit_not_sign in Hc as [_ Hc]. by apply N.eqb_neq. }
      assert (Hm : match c :: ds with 45%N :: r => r | _ => c :: ds end
                   = c :: ds) by (by repeat case_match).
      by rewrite Hm, Hds.
    - rewrite Hneg. unfold all_of. rewrite Hds. by destruct ds. }
  rewrite Hds.
  destruct (Z.leb_spec (- MAX_ROWID - 1) k), (Z.leb_spec k MAX_ROWID);
    try done; lia.
Qed.

(** X11. The path the client writes for an id is one the server accepts
    and reads back as that id: for an integer a number holds exactly,
    [isNaN] is false of its print and [parseInt] returns it.  So, the
    table reading the print as that key, a delete sent for id [k] removes
    the row of key [k] and no other and answers 200 with [k], or answers
    404 with [k] when there is no such row; the conversion of decimal
    texts reads every key so. *)
Theorem client_path_is_read_back :
  ∀ (k : Z) (st : Store),
    - MAX_SAFE_INTEGER ≤ k ≤ MAX_SAFE_INTEGER →
    is_empty (path_of_id k) = false
    ∧ isNaN (path_of_id k) = false
    ∧ parseInt (path_of_id k) = Some k
    ∧ rowid_of_decimal (path_of_id k) = Some k
    ∧ (rowid_of_text (path_of_id k) = Some k →
       (∀ r, equipment st !! k = Some r →
          delete_equipment (path_of_id k) st
          = ({| equipment := delete k (equipment st);
                sqlite_sequence := sqlite_sequence st |},
             mkResponse 200
               (Removed (lit "Equipment deleted successfully") (Some k))))
       ∧ (equipment st !! k = None →
          delete_equipment (path_of_id k) st
          = (st, mkResponse 404
                   (NotFound (lit "Equipment not found") (Some k)))
          ∧ ∀ now b,
              put_equipment now (path_of_id k) b st
              = (st, mkResponse 404
                       (NotFound (lit "Equipment not found") (Some k))))).
Proof.
  intros k st Hk. destruct (path_numeric k) as [[Hne Hnum] _].
  pose proof (path_parsed k Hk) as Hparse.
  split; [exact Hne |]. split; [exact Hnum |]. split; [exact Hparse |].
  split.
  { apply rowid_of_decimal_path. unfold MAX_SAFE_INTEGER, MAX_ROWID in *. lia. }
  intros Hrow. split.
  - intros r Hr.
    assert (Hsel : db_get (path_of_id k) st = Some (k, r))
      by by apply db_get_Some.
    destruct (delete_cases (path_of_id k) st)
      as [[Hbad _]|[(_ & Hnone & _)|(k' & r' & _ & Hsel' & ->)]].
    + by rewrite Hne, Hnum in Hbad.
    + by rewrite Hsel in Hnone.
    + rewrite Hsel in Hsel'. injection Hsel' as <- <-. by rewrite Hparse.
  - intros Hr.
    assert (Hsel : db_get (path_of_id k) st = None).
    { unfold db_get, db_get_rowid. by rewrite Hrow, Hr. }
    split.
    + destruct (delete_cases (path_of_id k) st)
        as [[Hbad _]|[(_ & _ & ->)|(k' & r' & _ & Hsel' & _)]].
      * by rewrite Hne, Hnum in Hbad.
      * by rewrite Hparse.
      * by rewrite Hsel in Hsel'.
    + intros now b. rewrite put_missing by done. by rewrite Hparse.
Qed.

Lemma validateForm_true (in_future : jsstring → bool) (s : EquipmentForm.State) :
  (EquipmentForm.validateForm in_future s).2 = true ↔
  (2 ≤ length (trim (EquipmentForm.name s)) ≤ 100)%nat
  ∧ (EquipmentForm.lastCleanedDate s = []
     ∨ date_pattern (EquipmentForm.lastCleanedDate s) = true
       ∧ in_future (EquipmentForm.lastCleanedDate s) = false).
Proof.
  unfold EquipmentForm.validateForm. cbn [snd].
  destruct (trim (EquipmentForm.name s)) as [|c n] eqn:Hn; cbn [is_empty].
  { cbn [length]. split; [intros H; exfalso; revert H; by repeat case_match | intros [[? _] _]; lia]. }
  destruct (Nat.ltb_spec (length (c :: n)) 2) as [Hlo|Hlo].
  { cbn [EquipmentForm.Errors.name]. split; [intros H; exfalso; revert H; by repeat case_match | intros [[? _] _]; lia]. }
  destruct (Nat.ltb_spec 100 (length (c :: n))) as [Hhi|Hhi].
  { cbn [EquipmentForm.Errors.name]. split; [intros H; exfalso; revert H; by repeat case_match | intros [[_ ?] _]; lia]. }
  destruct (EquipmentForm.lastCleanedDate s) as [|d ds] eqn:Hd; cbn [is_empty negb].
  { cbn. cbn [length] in Hlo, Hhi. split; [intros _; split; [lia | by left] | done]. }
  cbn [length] in Hlo, Hhi.
  destruct (date_pattern (d :: ds)) eqn:Hpat; cbn [negb].
  - destruct (in_future (d :: ds)) eqn:Hfut; cbn.
    + split; [done | intros [_ [? | [_ ?]]]; done].
    + split; [intros _; split; [lia | by right] | done].
  - cbn. split; [done | intros [_ [? | [? _]]]; done].
Qed.


Lemma handleSubmit_Some (in_future : jsstring → bool)
    (s : EquipmentForm.State) (b : Body) :
  EquipmentForm.handleSubmit in_future s = Some b ↔
  (EquipmentForm.validateForm in_future s).2 = true
  ∧ b = mkBody (JStr (trim (EquipmentForm.name s)))
          (JStr (EquipmentForm.type s)) (JStr (EquipmentForm.status s))
          (if negb (is_empty (EquipmentForm.lastCleanedDate s))
           then JStr (EquipmentForm.lastCleanedDate s) else JNull).
Proof.
  unfold EquipmentForm.handleSubmit.
  destruct (EquipmentForm.validateForm in_future s).2; cbn [negb].
  - split; [by intros [= <-] | by intros [_ ->]].
  - split; [done | by intros [? _]].
Qed.

Lemma submitted_body_passes (in_future : jsstring → bool)
    (s : EquipmentForm.State) (b : Body) :
  EquipmentForm.handleSubmit in_future s = Some b →
  EquipmentForm.type s ∈ EquipmentForm.EQUIPMENT_TYPES →
  EquipmentForm.status s ∈ EquipmentForm.STATUS_OPTIONS →
  create_failures b = [] ∧ update_failures b = []
  ∧ some_field_supplied b = true
  ∧ ∀ now,
      created_row now b
      = {| Columns.name := to_well_formed (trim (EquipmentForm.name s));
           Columns.type := EquipmentForm.type s;
           Columns.status := EquipmentForm.status s;
           Columns.lastCleanedDate :=
             if is_empty (EquipmentForm.lastCleanedDate s) then None
             else Some (EquipmentForm.lastCleanedDate s);
           Columns.createdAt := now;
           Columns.updatedAt := now |}.
Proof.
  intros [Hvalid ->]%handleSubmit_Some Htype Hstatus.
  apply validateForm_true in Hvalid as [[Hlo _] Hdate].
  assert (Hname : is_empty (trim (trim (EquipmentForm.name s))) = false).
  { rewrite trim_idem. destruct (trim (EquipmentForm.name s)); [simpl in Hlo; lia | done]. }
  assert (Hd1 : date_ok_on_create
                  (if negb (is_empty (EquipmentForm.lastCleanedDate s))
                   then JStr (EquipmentForm.lastCleanedDate s) else JNull)
                = true).
  { destruct Hdate as [-> | [Hpat _]]; [done |].
    destruct (EquipmentForm.lastCleanedDate s); [done |].
    unfold date_ok_on_create, date_regex_test. cbn [is_empty negb truthy ToString orb].
    exact Hpat. }
  assert (Hd2 : date_ok_on_update
                  (if negb (is_empty (EquipmentForm.lastCleanedDate s))
                   then JStr (EquipmentForm.lastCleanedDate s) else JNull)
                = true).
  { destruct Hdate as [-> | [Hpat _]]; [done |].
    destruct (EquipmentForm.lastCleanedDate s); [done |].
    unfold date_ok_on_update, date_regex_test. cbn [is_empty negb is_null ToString orb].
    exact Hpat. }
  assert (Ht : type_ok (JStr (EquipmentForm.type s)) = true)
    by (by apply bool_decide_eq_true).
  assert (Hs : status_ok (JStr (EquipmentForm.status s)) = true)
    by (by apply bool_decide_eq_true).
  split; [| split; [| split]].
  - apply create_failures_nil. cbn [name type status lastCleanedDate name_ok].
    by rewrite Hname.
  - apply update_failures_nil. cbn [name type status lastCleanedDate name_ok].
    by rewrite Hname.
  - done.
  - intros now. unfold created_row.
    cbn [name type status lastCleanedDate trim_of ToString].
    rewrite trim_idem.
    destruct Hdate as [-> | [Hpat _]]; [done |].
    destruct (EquipmentForm.lastCleanedDate s) as [|c d]; [done |].
    cbn [is_empty negb truthy bind_text].
    by rewrite (to_well_formed_date _ Hpat).
Qed.


Lemma add_outcome (now : jsstring) (b : Body) (st : Store) :
  (create_failures b ≠ [] →
   Api.addEquipment (served now st) b = Api.Thrown (lit "Validation failed"))
  ∧ (create_failures b = [] → MAX_ROWID ≤ sqlite_sequence st →
     Api.addEquipment (served now st) b
     = Api.Thrown (lit "Failed to create equipment"))
  ∧ (create_failures b = [] → sqlite_sequence st < MAX_ROWID →
     Api.addEquipment (served now st) b
     = Api.Resolved (Api.One (sqlite_sequence st + 1, created_row now b))).
Proof.
  unfold Api.addEquipment, served. cbn [handle].
  split; [| split].
  - intros Hbad. by rewrite post_invalid.
  - intros Hok Hfull. by rewrite post_full.
  - intros Hok Hroom. by rewrite post_created.
Qed.

Lemma update_outcome (now : jsstring) (k : Z) (b : Body) (st : Store) :
  rowid_of_text (path_of_id k) = Some k →
  (equipment st !! k = None →
   Api.updateEquipment (served now st) k b
   = Api.Thrown (lit "Equipment not found"))
  ∧ ∀ r, equipment st !! k = Some r →
      (update_failures b ≠ [] →
       Api.updateEquipment (served now st) k b
       = Api.Thrown (lit "Validation failed"))
      ∧ (update_failures b = [] → some_field_supplied b = false →
         Api.updateEquipment (served now st) k b
         = Api.Thrown (lit "No fields to update"))
      ∧ (update_failures b = [] → some_field_supplied b = true →
         Api.updateEquipment (served now st) k b
         = Api.Resolved (Api.One (k, updated_row now b r))).
Proof.
  intros Hrow. destruct (path_numeric k) as [Hnum _].
  unfold Api.updateEquipment, served. cbn [handle].
  split.
  - intros Hnone. rewrite put_missing; [done | done |].
    unfold db_get, db_get_rowid. by rewrite Hrow, Hnone.
  - intros r Hr.
    assert (Hsel : db_get (path_of_id k) st = Some (k, r))
      by by apply db_get_Some.
    split; [| split].
    + intros Hbad. destruct (update_failures b) as [|m rest] eqn:Hf; [done |].
      by rewrite (put_invalid now _ b st (k, r) m rest).
    + intros Hok Hnone. by rewrite (put_no_fields now _ b st (k, r)).
    + intros Hok Hsome. by rewrite (put_updated now _ b st k r).
Qed.

Lemma delete_outcome (now : jsstring) (k : Z) (st : Store) :
  rowid_of_text (path_of_id k) = Some k →
  (equipment st !! k = None →
   Api.deleteEquipment (served now st) k
   = Api.Thrown (lit "Equipment not found"))
  ∧ (is_Some (equipment st !! k) →
     Api.deleteEquipment (served now st) k = Api.Resolved tt).
Proof.
  intros Hrow. destruct (path_numeric k) as [[Hne Hnum] _].
  unfold Api.deleteEquipment, served. cbn [handle].
  destruct (delete_cases (path_of_id k) st)
    as [[Hbad _]|[(_ & Hnone & ->)|(k' & r' & _ & Hsel & ->)]].
  - by rewrite Hne, Hnum in Hbad.
  - split; [done |]. intros [r Hr].
    assert (db_get (path_of_id k) st = Some (k, r)) by by apply db_get_Some.
    congruence.
  - apply db_get_Some in Hsel as [Hrow' Hr]. rewrite Hrow in Hrow'.
    injection Hrow' as <-. split; [by rewrite Hr | done].
Qed.


(** *** The order of strings *)

Lemma string_lt_irrefl (a : jsstring) : string_lt a a = false.
Proof.
  induction a as [|c a IH]; [done |]. cbn [string_lt].
  by rewrite N.ltb_irrefl, N.eqb_refl, IH.
Qed.

Lemma string_lt_trans (a b c : jsstring) :
  string_lt a b = true → string_lt b c = true → string_lt a c = true.
Proof.
  revert b c. induction a as [|x a IH]; intros [|y b] [|z c]; try done.
  cbn [string_lt]. rewrite !orb_true_iff, !andb_true_iff, !N.ltb_lt, !N.eqb_eq.
  intros [Hxy | [-> Hab]] [Hyz | [-> Hbc]].
  - left. lia.
  - by left.
  - by left.
  - right. split; [done | by apply (IH b)].
Qed.

Lemma string_lt_total (a b : jsstring) :
  string_lt a b = false → string_lt b a = false → a = b.
Proof.
  revert b. induction a as [|x a IH]; intros [|y b]; try done.
  cbn [string_lt]. rewrite !orb_false_iff, !andb_false_iff, !N.ltb_ge, !N.eqb_neq.
  intros [Hxy [Hne | Hab]] [Hyx [Hne' | Hba]].
  - exfalso. apply Hne. lia.
  - exfalso. apply Hne. lia.
  - exfalso. apply Hne'. lia.
  - assert (x = y) as -> by lia. f_equal. by apply IH.
Qed.

(** *** [sort] *)

Section Sorting.

Context {A : Type} (cmp : A → A → Z).

Lemma sort_insert_perm (x : A) (l : list A) : sort_insert cmp x l ≡ₚ x :: l.
Proof.
  induction l as [|y l IH]; [done |]. cbn [sort_insert].
  destruct (cmp x y <=? 0); [done |].
  by rewrite IH, Permutation_swap.
Qed.

Lemma sort_perm (l : list A) : sort cmp l ≡ₚ l.
Proof.
  induction l as [|x l IH]; [done |].
  unfold sort in *. cbn [foldr]. by rewrite sort_insert_perm, IH.
Qed.

Lemma sort_insert_filter (P : A → bool) (x : A) (l : list A) :
  (∀ y z, P y = true → P z = true → cmp y z ≤ 0) →
  List.filter P (sort_insert cmp x l) = List.filter P (x :: l).
Proof.
  intros Hclass. induction l as [|y l IH]; [done |]. cbn [sort_insert].
  destruct (Z.leb_spec (cmp x y) 0) as [Hle|Hgt]; [done |].
  cbn [List.filter] in *. rewrite IH.
  destruct (P x) eqn:Hx, (P y) eqn:Hy; try done.
  specialize (Hclass x y Hx Hy). lia.
Qed.

Lemma sort_filter (P : A → bool) (l : list A) :
  (∀ y z, P y = true → P z = true → cmp y z ≤ 0) →
  List.filter P (sort cmp l) = List.filter P l.
Proof.
  intros Hclass. induction l as [|x l IH]; [done |].
  unfold sort in *. cbn [foldr]. rewrite sort_insert_filter by done.
  cbn [List.filter]. by rewrite IH.
Qed.

Hypothesis cmp_total : ∀ x y, 0 < cmp x y → cmp y x ≤ 0.
Hypothesis cmp_trans : ∀ x y z, cmp x y ≤ 0 → cmp y z ≤ 0 → cmp x z ≤ 0.

Lemma sort_insert_sorted (x : A) (l : list A) :
  StronglySorted (λ y z, cmp y z ≤ 0) l →
  StronglySorted (λ y z, cmp y z ≤ 0) (sort_insert cmp x l).
Proof.
  induction 1 as [|y l Hl IH Hy]; cbn [sort_insert].
  - by repeat constructor.
  - destruct (Z.leb_spec (cmp x y) 0) as [Hle|Hgt].
    + constructor; [by constructor |].
      constructor; [done |].
      eapply Forall_impl; [exact Hy |]. intros z Hz. by eapply cmp_trans.
    + constructor; [done |].
      rewrite sort_insert_perm. constructor; [by apply cmp_total | done].
Qed.

Lemma sort_sorted (l : list A) :
  StronglySorted (λ y z, cmp y z ≤ 0) (sort cmp l).
Proof.
  induction l as [|x l IH]; [constructor |].
  unfold sort in *. cbn [foldr]. by apply sort_insert_sorted.
Qed.

End Sorting.

Lemma refine_sorted {A K : Type} (R1 R2 : relation A) (key : A → K)
    `{EqDecision K} (l : list A) :
  StronglySorted R1 l →
  (∀ v, StronglySorted R2 (List.filter (λ x, bool_decide (key x = v)) l)) →
  StronglySorted (λ x y, R1 x y ∧ (key x = key y → R2 x y)) l.
Proof.
  induction 1 as [|x l Hl IH Hx]; intros Hties; [constructor |].
  constructor.
  - apply IH. intros v. specialize (Hties v). cbn [List.filter] in Hties.
    destruct (bool_decide (key x = v)); [| done].
    by apply StronglySorted_inv in Hties as [? _].
  - apply Forall_forall. intros y Hy. split.
    + by eapply Forall_forall in Hx.
    + intros Hkey. specialize (Hties (key x)). cbn [List.filter] in Hties.
      rewrite bool_decide_eq_true_2 in Hties by done.
      apply StronglySorted_inv in Hties as [_ Hall].
      eapply Forall_forall in Hall; [exact Hall |].
      apply list_elem_of_In, filter_In. split; [by apply list_elem_of_In |].
      by apply bool_decide_eq_true.
Qed.

Lemma filter_bool_newer (f : Equipment → bool) (l : list Equipment) :
  StronglySorted newer l → StronglySorted newer (List.filter f l).
Proof.
  induction 1 as [|x l Hl IH Hx]; cbn [List.filter]; [constructor |].
  destruct (f x); [| done]. constructor; [done |].
  apply Forall_forall. intros y [Hy _]%list_elem_of_In%filter_In.
  eapply Forall_forall in Hx; [exact Hx |]. by apply list_elem_of_In.
Qed.


(** *** The page *)

Lemma filter_if {A : Type} (c : bool) (f : A → bool) (l : list A) :
  (if negb c then List.filter f l else l) = List.filter (λ x, c || f x) l.
Proof.
  destruct c; cbn [negb orb]; [| done].
  induction l as [|x l IH]; [done |]. cbn [List.filter]. by rewrite <- IH.
Qed.

Lemma filter_twice {A : Type} (f g : A → bool) (l : list A) :
  List.filter g (List.filter f l) = List.filter (λ x, f x && g x) l.
Proof.
  induction l as [|x l IH]; [done |]. cbn [List.filter].
  destruct (f x); cbn [andb List.filter]; [| done].
  by rewrite IH.
Qed.

Lemma page_filter (toLowerCase : jsstring → jsstring)
    (l : list Equipment) (q tf sf : jsstring)
    (f : Index.SortField) (d : Index.SortDirection) :
  Index.filteredAndSortedEquipment toLowerCase l q tf sf f d
  = sort (Index.compare toLowerCase f d)
      (List.filter (passes toLowerCase q tf sf) l).
Proof.
  unfold Index.filteredAndSortedEquipment. f_equal.
  by rewrite !filter_if, !filter_twice.
Qed.

Lemma compare_asc (toLowerCase : jsstring → jsstring)
    (f : Index.SortField) (x y : Equipment) :
  Index.compare toLowerCase f Index.asc x y ≤ 0
  ↔ string_lt (toLowerCase (Index.value f y)) (toLowerCase (Index.value f x))
    = false.
Proof.
  unfold Index.compare.
  destruct (string_lt (toLowerCase (Index.value f x))
              (toLowerCase (Index.value f y))) eqn:Hxy,
           (string_lt (toLowerCase (Index.value f y))
              (toLowerCase (Index.value f x))) eqn:Hyx; try done.
  pose proof (string_lt_trans _ _ _ Hxy Hyx) as H.
  by rewrite string_lt_irrefl in H.
Qed.

Lemma compare_desc (toLowerCase : jsstring → jsstring)
    (f : Index.SortField) (x y : Equipment) :
  Index.compare toLowerCase f Index.desc x y ≤ 0
  ↔ string_lt (toLowerCase (Index.value f x)) (toLowerCase (Index.value f y))
    = false.
Proof.
  unfold Index.compare.
  destruct (string_lt (toLowerCase (Index.value f x))
              (toLowerCase (Index.value f y))) eqn:Hxy,
           (string_lt (toLowerCase (Index.value f y))
              (toLowerCase (Index.value f x))) eqn:Hyx; try done.
Qed.

Lemma string_lt_neg_trans (a b c : jsstring) :
  string_lt b a = false → string_lt c b = false → string_lt c a = false.
Proof.
  intros Hba Hcb. destruct (string_lt c a) eqn:Hca; [| done].
  destruct (string_lt a b) eqn:Hab.
  - by rewrite (string_lt_trans _ _ _ Hca Hab) in Hcb.
  - rewrite (string_lt_total a b Hab Hba) in Hca. by rewrite Hca in Hcb.
Qed.

Lemma compare_total (toLowerCase : jsstring → jsstring)
    (f : Index.SortField) (d : Index.SortDirection) (x y : Equipment) :
  0 < Index.compare toLowerCase f d x y →
  Index.compare toLowerCase f d y x ≤ 0.
Proof.
  unfold Index.compare.
  destruct (string_lt (toLowerCase (Index.value f x))
              (toLowerCase (Index.value f y))) eqn:Hxy,
           (string_lt (toLowerCase (Index.value f y))
              (toLowerCase (Index.value f x))) eqn:Hyx, d; try done.
  all: pose proof (string_lt_trans _ _ _ Hxy Hyx) as H;
    by rewrite string_lt_irrefl in H.
Qed.

Lemma compare_trans (toLowerCase : jsstring → jsstring)
    (f : Index.SortField) (d : Index.SortDirection) (x y z : Equipment) :
  Index.compare toLowerCase f d x y ≤ 0 →
  Index.compare toLowerCase f d y z ≤ 0 →
  Index.compare toLowerCase f d x z ≤ 0.
Proof.
  destruct d.
  - rewrite !compare_asc. intros Hxy Hyz. by eapply string_lt_neg_trans.
  - rewrite !compare_desc. intros Hxy Hyz. by eapply string_lt_neg_trans.
Qed.

Lemma compare_tie (toLowerCase : jsstring → jsstring)
    (f : Index.SortField) (d : Index.SortDirection) (x y : Equipment) :
  toLowerCase (Index.value f x) = toLowerCase (Index.value f y) →
  Index.compare toLowerCase f d x y ≤ 0.
Proof.
  intros Htie. unfold Index.compare. by rewrite Htie, string_lt_irrefl.
Qed.

Lemma sorted_impl {A : Type} (R R' : relation A) (l : list A) :
  (∀ x y, R x y → R' x y) → StronglySorted R l → StronglySorted R' l.
Proof.
  intros HR. induction 1 as [|x l Hl IH Hx]; constructor; [done |].
  eapply Forall_impl; [exact Hx | by auto].
Qed.

Lemma filter_all {A : Type} (f : A → bool) (l : list A) :
  (∀ x, f x = true) → List.filter f l = l.
Proof.
  intros Hf. induction l as [|x l IH]; [done |].
  cbn [List.filter]. by rewrite Hf, IH.
Qed.

Lemma filter_bool_NoDup (f : Equipment → bool) (l : list Equipment) :
  NoDup l.*1 → NoDup (List.filter f l).*1.
Proof.
  induction l as [|x l IH]; [done |]. cbn [List.filter].
  intros [Hx Hl]%NoDup_cons.
  destruct (f x); [| by apply IH].
  cbn. apply NoDup_cons. split; [| by apply IH].
  intros Hin. apply Hx. apply list_elem_of_fmap in Hin as (y & -> & Hy).
  apply list_elem_of_fmap. exists y. split; [done |].
  apply list_elem_of_In, filter_In in Hy as [Hy _]. by apply list_elem_of_In.
Qed.

(** X15. The page shows the records of the table that pass the search and
    the two filters, each once: the client's listing resolves with the
    listing of the server; a record is shown exactly when it is in the table
    and the search text is empty or occurs, case folded, in its name, type
    or status, and each filter is "all" or equals its field; no id is shown
    twice; with no search text and both filters at "all" every record is
    shown. *)
Theorem page_shows_the_matching_records :
  ∀ (toLowerCase : jsstring → jsstring) (now : jsstring) (st : Store)
    (q tf sf : jsstring) (f : Index.SortField) (d : Index.SortDirection),
    let shown :=
      Index.filteredAndSortedEquipment toLowerCase (db_all st) q tf sf f d in
    Api.getEquipment (served now st) = Api.Resolved (Api.Rows (db_all st))
    ∧ (∀ k r, (k, r) ∈ shown ↔
         equipment st !! k = Some r
         ∧ (q = []
            ∨ string_includes (toLowerCase (Columns.name r)) (toLowerCase q)
              = true
            ∨ string_includes (toLowerCase (Columns.type r)) (toLowerCase q)
              = true
            ∨ string_includes (toLowerCase (Columns.status r)) (toLowerCase q)
              = true)
         ∧ (tf = lit "all" ∨ Columns.type r = tf)
         ∧ (sf = lit "all" ∨ Columns.status r = sf))
    ∧ NoDup shown.*1
    ∧ (length shown ≤ size (equipment st))%nat
    ∧ (q = [] → tf = lit "all" → sf = lit "all" → shown ≡ₚ db_all st).
Proof.
  intros toLowerCase now st q tf sf f d shown.
  assert (Hshown : shown ≡ₚ List.filter (passes toLowerCase q tf sf) (db_all st)).
  { unfold shown. rewrite page_filter. apply sort_perm. }
  split; [done |]. split; [| split; [| split]].
  - intros k r. rewrite Hshown, list_elem_of_In, filter_In, <- list_elem_of_In.
    rewrite db_all_elem. unfold passes. cbn [snd].
    rewrite !andb_true_iff, !orb_true_iff. unfold str_eqb.
    rewrite !bool_decide_eq_true.
    assert (is_empty q = true ↔ q = []) as -> by (by destruct q).
    tauto.
  - rewrite Hshown. apply filter_bool_NoDup, db_all_NoDup.
  - rewrite Hshown, <- db_all_length. apply filter_length_le.
  - intros -> -> ->. rewrite Hshown.
    by rewrite (filter_all (passes toLowerCase [] (lit "all") (lit "all"))).
Qed.

(** X16. The order of the page: the records shown are in the order of the
    chosen field, case folded, ascending or descending as chosen, and
    records equal in that field are newest first in both directions (the
    sort is stable and the listing it starts from is newest first). *)
Theorem page_order :
  ∀ (toLowerCase : jsstring → jsstring) (st : Store)
    (q tf sf : jsstring) (f : Index.SortField),
    let key x := toLowerCase (Index.value f x) in
    StronglySorted
      (λ x y, string_lt (key y) (key x) = false ∧ (key x = key y → y.1 < x.1))
      (Index.filteredAndSortedEquipment toLowerCase (db_all st) q tf sf f
         Index.asc)
    ∧ StronglySorted
        (λ x y, string_lt (key x) (key y) = false ∧ (key x = key y → y.1 < x.1))
        (Index.filteredAndSortedEquipment toLowerCase (db_all st) q tf sf f
           Index.desc).
Proof.
  intros toLowerCase st q tf sf f key.
  assert (Hgen : ∀ d,
    StronglySorted
      (λ x y, Index.compare toLowerCase f d x y ≤ 0
              ∧ (key x = key y → newer x y))
      (Index.filteredAndSortedEquipment toLowerCase (db_all st) q tf sf f d)).
  { intros d. rewrite page_filter.
    apply (refine_sorted (λ x y, Index.compare toLowerCase f d x y ≤ 0)
             newer key).
    - apply sort_sorted; [apply compare_total | apply compare_trans].
    - intros v. rewrite sort_filter.
      + do 2 apply filter_bool_newer. apply db_all_newer.
      + intros y z Hy%bool_decide_eq_true Hz%bool_decide_eq_true.
        apply compare_tie. fold (key y) (key z). congruence. }
  split.
  - eapply sorted_impl; [| exact (Hgen Index.asc)].
    intros x y [Hle Htie]. split; [by apply compare_asc | exact Htie].
  - eapply sorted_impl; [| exact (Hgen Index.desc)].
    intros x y [Hle Htie]. split; [by apply compare_desc | exact Htie].
Qed.


(** *** The form and the client against the server *)

(** X12. What the form lets through, the server accepts.  When the form
    holds a type and a status of its two selects and [handleSubmit] calls
    [onSubmit], the name sent is the trimmed name, of 2 to 100 code units,
    the body breaks no rule of a create, and, the table having a key left,
    the create through the client resolves with the new record: the type,
    the status, the date or [NULL] for the empty date, and the trimmed name
    as the table holds text, with an unpaired surrogate replaced, so the
    trimmed name itself when the name has none. *)
Theorem submitted_form_is_created :
  ∀ (in_future : jsstring → bool) (s : EquipmentForm.State) (b : Body)
    (now : jsstring) (st : Store),
    EquipmentForm.handleSubmit in_future s = Some b →
    EquipmentForm.type s ∈ EquipmentForm.EQUIPMENT_TYPES →
    EquipmentForm.status s ∈ EquipmentForm.STATUS_OPTIONS →
    sqlite_sequence st < MAX_ROWID →
    let row :=
      {| Columns.name := to_well_formed (trim (EquipmentForm.name s));
         Columns.type := EquipmentForm.type s;
         Columns.status := EquipmentForm.status s;
         Columns.lastCleanedDate :=
           if is_empty (EquipmentForm.lastCleanedDate s) then None
           else Some (EquipmentForm.lastCleanedDate s);
         Columns.createdAt := now;
         Columns.updatedAt := now |} in
    name b = JStr (trim (EquipmentForm.name s))
    ∧ (2 ≤ length (trim (EquipmentForm.name s)) ≤ 100)%nat
    ∧ (2 ≤ length (Columns.name row) ≤ 100)%nat
    ∧ (well_formed (EquipmentForm.name s) →
       Columns.name row = trim (EquipmentForm.name s))
    ∧ create_failures b = []
    ∧ Index.handleSubmit (served now st) None b
      = Api.Resolved (Api.One (sqlite_sequence st + 1, row))
    ∧ (handle now (POST_equipment b) st).1
      = {| equipment := <[sqlite_sequence st + 1 := row]> (equipment st);
           sqlite_sequence := sqlite_sequence st + 1 |}.
Proof.
  intros in_future s b now st Hsubmit Htype Hstatus Hroom row.
  destruct (submitted_body_passes in_future s b Hsubmit Htype Hstatus)
    as (Hcreate & _ & _ & Hrow).
  apply handleSubmit_Some in Hsubmit as [[Hlen _]%validateForm_true ->].
  split; [reflexivity |]. split; [exact Hlen |].
  split; [cbn [row Columns.name]; by rewrite to_well_formed_length |].
  split; [apply to_well_formed_trim |].
  split; [exact Hcreate |]. split.
  - cbn [Index.handleSubmit].
    rewrite (proj2 (proj2 (add_outcome now _ st)) Hcreate Hroom).
    by rewrite Hrow.
  - cbn [handle]. rewrite post_created by done. cbn [fst]. by rewrite Hrow.
Qed.

(** X13. Opening a record in the form and saving it as loaded changes its
    update time and nothing else.  For a record whose name is trimmed and
    has no unpaired surrogate and whose date is [NULL] or fits the pattern,
    with type and status in the enumerations, of an id a number holds
    exactly and the table reads back: when the form loaded with it submits,
    the update through the client resolves with the record as it was but
    for [updatedAt]. *)
Theorem saving_a_loaded_record_touches_updatedAt_only :
  ∀ (in_future : jsstring → bool) (now : jsstring) (st : Store)
    (k : Z) (r : Columns.t) (b : Body),
    - MAX_SAFE_INTEGER ≤ k ≤ MAX_SAFE_INTEGER →
    rowid_of_text (path_of_id k) = Some k →
    equipment st !! k = Some r →
    row_well_formed r →
    row_in_enums r →
    EquipmentForm.handleSubmit in_future (EquipmentForm.load (Some (k, r)))
    = Some b →
    Index.handleSubmit (served now st) (Some (k, r)) b
    = Api.Resolved (Api.One (k, Columns.set_updatedAt now r))
    ∧ (handle now (PUT_equipment (path_of_id k) b) st).1
      = {| equipment := <[k := Columns.set_updatedAt now r]> (equipment st);
           sqlite_sequence := sqlite_sequence st |}.
Proof.
  intros in_future now st k r b _ Hrow Hr (Hname & Htrim & Hwf & Hdate)
    [Ht Hs] Hsubmit.
  destruct (submitted_body_passes in_future _ b Hsubmit Ht Hs)
    as (_ & Hupdate & Hsome & _).
  assert (Hnew : updated_row now b r = Columns.set_updatedAt now r).
  { apply handleSubmit_Some in Hsubmit as [_ ->].
    unfold updated_row, Columns.set_updatedAt.
    cbn [EquipmentForm.load EquipmentForm.name EquipmentForm.type
         EquipmentForm.status EquipmentForm.lastCleanedDate snd
         name type status lastCleanedDate supplied is_undefined negb
         trim_of ToString].
    f_equal; [by rewrite !Htrim |].
    destruct (Columns.lastCleanedDate r) as [d|] eqn:Hd; [| done].
    cbn [default]. specialize (Hdate d eq_refl).
    destruct d as [|c d]; [done |].
    cbn [id is_empty negb supplied is_undefined bind_text].
    by rewrite (to_well_formed_date _ Hdate). }
  split.
  - cbn [Index.handleSubmit fst].
    destruct (update_outcome now k b st Hrow) as [_ Hcases].
    destruct (Hcases r Hr) as (_ & _ & Hsaved).
    rewrite Hsaved by done. by rewrite Hnew.
  - cbn [handle].
    rewrite (put_updated now _ b st k r);
      [by rewrite Hnew | by apply path_numeric | by apply db_get_Some
      | done | done].
Qed.

(** X14. What the client throws is the [error] field of the answer, and
    never the list of [details]: a create or an update that breaks rules of
    the fields rejects with "Validation failed" whatever the rules broken.
    A create rejects only so or with "Failed to create equipment"; for an id
    a number holds exactly and the table reads back, an update or a delete
    of a missing record rejects with "Equipment not found", a delete of a
    record resolves, an update of a record rejects with "Validation failed"
    or "No fields to update" or resolves with the updated record; "Invalid
    equipment ID" is never thrown. *)
Theorem client_throws_the_error_field :
  ∀ (now : jsstring) (st : Store) (k : Z) (b : Body),
    - MAX_SAFE_INTEGER ≤ k ≤ MAX_SAFE_INTEGER →
    rowid_of_text (path_of_id k) = Some k →
    (create_failures b ≠ [] →
     Api.addEquipment (served now st) b = Api.Thrown (lit "Validation failed"))
    ∧ (create_failures b = [] → MAX_ROWID ≤ sqlite_sequence st →
       Api.addEquipment (served now st) b
       = Api.Thrown (lit "Failed to create equipment"))
    ∧ (create_failures b = [] → sqlite_sequence st < MAX_ROWID →
       Api.addEquipment (served now st) b
       = Api.Resolved (Api.One (sqlite_sequence st + 1, created_row now b)))
    ∧ (equipment st !! k = None →
       Api.updateEquipment (served now st) k b
       = Api.Thrown (lit "Equipment not found")
       ∧ Api.deleteEquipment (served now st) k
         = Api.Thrown (lit "Equipment not found"))
    ∧ (∀ r, equipment st !! k = Some r →
         Api.deleteEquipment (served now st) k = Api.Resolved tt
         ∧ (update_failures b ≠ [] →
            Api.updateEquipment (served now st) k b
            = Api.Thrown (lit "Validation failed"))
         ∧ (update_failures b = [] → some_field_supplied b = false →
            Api.updateEquipment (served now st) k b
            = Api.Thrown (lit "No fields to update"))
         ∧ (update_failures b = [] → some_field_supplied b = true →
            Api.updateEquipment (served now st) k b
            = Api.Resolved (Api.One (k, updated_row now b r)))).
Proof.
  intros now st k b _ Hrow.
  destruct (add_outcome now b st) as (Hadd1 & Hadd2 & Hadd3).
  destruct (update_outcome now k b st Hrow) as [Hup1 Hup2].
  destruct (delete_outcome now k st Hrow) as [Hdel1 Hdel2].
  split; [exact Hadd1 |]. split; [exact Hadd2 |]. split; [exact Hadd3 |].
  split.
  - intros Hnone. split; [by apply Hup1 | by apply Hdel1].
  - intros r Hr. split; [by apply Hdel2 |]. by apply Hup2.
Qed.

End Further.

(* ===================================================================== *)
(** ** The statements at concrete requests *)
(* ===================================================================== *)


(** C2, as stated, fails: a create and an update that supply
    ["2025-13-40"] are answered 201 and 200, and the date is stored. *)
Lemma date_2025_13_40_is_accepted :
  lastCleanedDate odd_date_body = JStr (lit "2025-13-40")
  ∧ (∃ row,
       (post_equipment noon odd_date_body initialize).2
       = mkResponse 201
           (Saved (lit "Equipment created successfully") (Some (1, row)))
       ∧ Columns.lastCleanedDate row = Some (lit "2025-13-40"))
  ∧ (∃ row,
       (put_equipment (affinity := rowid_of_decimal) later (lit "1")
          (only_date (JStr (lit "2025-13-40"))) one_tank).2
       = mkResponse 200
           (Saved (lit "Equipment updated successfully") (Some (1, row)))
       ∧ Columns.lastCleanedDate row = Some (lit "2025-13-40")).
Proof.
  split; [reflexivity |].
  split; eexists; split; vm_compute; reflexivity.
Qed.

Lemma date_check_is_shape_only_witness :
  lastCleanedDate odd_date_body = JStr month_13_day_40
  ∧ ∃ st' k row,
      post_equipment noon odd_date_body initialize
      = (st', mkResponse 201
                (Saved (lit "Equipment created successfully") (Some (k, row))))
      ∧ equipment st' !! k = Some row
      ∧ Columns.lastCleanedDate row = Some month_13_day_40.
Proof.
  assert (Hdate : lastCleanedDate odd_date_body = JStr month_13_day_40)
    by reflexivity.
  destruct (date_check_is_shape_only (affinity := rowid_of_decimal)
              noon odd_date_body initialize Hdate)
    as (_ & _ & _ & _ & Hcreate & _).
  split; [exact Hdate |].
  apply Hcreate; [reflexivity | reflexivity | reflexivity |].
  vm_compute. reflexivity.
Defined.

Lemma update_changes_only_supplied_fields_witness :
  numeric_id (lit "1")
  ∧ db_get (affinity := rowid_of_decimal) (lit "1") one_tank
    = Some (1, created_row noon tank_body)
  ∧ some_field_supplied status_only = true
  ∧ update_failures status_only = []
  ∧ code (put_equipment (affinity := rowid_of_decimal) later (lit "1")
            status_only one_tank).2 = 200
  ∧ code (put_equipment (affinity := rowid_of_decimal) later (lit "1")
            (name_only lone_surrogate_name) one_tank).2 = 200
  ∧ ∃ k r r',
      db_get (affinity := rowid_of_decimal) (lit "1") one_tank = Some (k, r)
      ∧ (put_equipment (affinity := rowid_of_decimal) later (lit "1")
           (name_only lone_surrogate_name) one_tank).2
        = mkResponse 200
            (Saved (lit "Equipment updated successfully") (Some (k, r')))
      ∧ Columns.name r' = 65533%N :: lit "Tank"
      ∧ Columns.type r' = Columns.type r
      ∧ Columns.status r' = Columns.status r
      ∧ Columns.lastCleanedDate r' = Columns.lastCleanedDate r
      ∧ Columns.createdAt r' = Columns.createdAt r
      ∧ Columns.updatedAt r' = later.
Proof.
  assert (Hid : numeric_id (lit "1")) by (split; reflexivity).
  assert (Hsel : db_get (affinity := rowid_of_decimal) (lit "1")
                   one_tank = Some (1, created_row noon tank_body))
    by (vm_compute; reflexivity).
  assert (Hsome : some_field_supplied status_only = true) by reflexivity.
  assert (Hf : update_failures status_only = []) by (vm_compute; reflexivity).
  split; [exact Hid |]. split; [exact Hsel |].
  split; [exact Hsome |]. split; [exact Hf |].
  split.
  { exact (proj1 (update_changes_only_supplied_fields
                    (affinity := rowid_of_decimal) later (lit "1") status_only
                    one_tank) 1 (created_row noon tank_body) Hid Hsel Hsome
             Hf). }
  destruct (update_changes_only_supplied_fields
              (affinity := rowid_of_decimal) later (lit "1")
              (name_only lone_surrogate_name) one_tank)
    as (Hgoes & Hdone & _).
  assert (H200 : code (put_equipment (affinity := rowid_of_decimal) later
                         (lit "1") (name_only lone_surrogate_name)
                         one_tank).2 = 200).
  { apply (Hgoes 1 (created_row noon tank_body) Hid Hsel); reflexivity. }
  split; [exact H200 |].
  destruct (Hdone H200)
    as (k & r & r' & Hr & Hput & _ & Htype & Hstatus & Hdate & Hname & _ & _
        & _ & _ & _ & Hcreated & Hupdated).
  exists k, r, r'. split; [exact Hr |]. split; [by rewrite Hput |].
  split; [exact (proj1 (Hname lone_surrogate_name eq_refl)) |].
  split; [by apply Htype |]. split; [by apply Hstatus |].
  split; [by apply Hdate |]. split; [exact Hcreated | exact Hupdated].
Defined.

Lemma listing_is_newest_first_witness :
  (serve (affinity := rowid_of_decimal)
     [(noon, POST_equipment tank_body); (noon, POST_equipment odd_date_body);
      (later, POST_equipment empty_date_body); (later, GET_equipment)]
     initialize).2
  = [mkResponse 201
       (Saved (lit "Equipment created successfully")
          (Some (1, created_row noon tank_body)));
     mkResponse 201
       (Saved (lit "Equipment created successfully")
          (Some (2, created_row noon odd_date_body)));
     mkResponse 201
       (Saved (lit "Equipment created successfully")
          (Some (3, created_row later empty_date_body)));
     mkResponse 200
       (Listing 3
          [(3, created_row later empty_date_body);
           (2, created_row noon odd_date_body);
           (1, created_row noon tank_body)])].
Proof.
  apply (proj2 (listing_is_newest_first (affinity := rowid_of_decimal)
                  initialize) noon noon later later
           tank_body odd_date_body empty_date_body).
  - by exists [].
  - vm_compute. reflexivity.
  - vm_compute. reflexivity.
  - vm_compute. reflexivity.
  - vm_compute. discriminate.
Defined.

Lemma created_ids_increase_witness :
  ∃ ki rowi kj rowj,
    payload (mkResponse 201
               (Saved (lit "Equipment created successfully")
                  (Some (1, created_row noon tank_body))))
    = Saved (lit "Equipment created successfully") (Some (ki, rowi))
    ∧ payload (mkResponse 201
                 (Saved (lit "Equipment created successfully")
                    (Some (2, created_row later odd_date_body))))
      = Saved (lit "Equipment created successfully") (Some (kj, rowj))
    ∧ ki < kj.
Proof.
  apply (created_ids_increase (affinity := rowid_of_decimal)
           [(noon, POST_equipment tank_body);
            (noon, DELETE_equipment (lit "1"));
            (later, POST_equipment odd_date_body)]
           initialize 0 2 noon later tank_body odd_date_body).
  - lia.
  - reflexivity.
  - reflexivity.
  - vm_compute. reflexivity.
  - vm_compute. reflexivity.
  - reflexivity.
  - reflexivity.
Defined.

Lemma enumerations_hold_in_every_state_witness :
  reachable (affinity := rowid_of_decimal) one_tank ∧ enums_hold one_tank.
Proof.
  assert (Hreach : reachable (affinity := rowid_of_decimal) one_tank).
  { exists [(noon, POST_equipment tank_body)]. vm_compute. reflexivity. }
  split; [exact Hreach |].
  exact (proj1 (enumerations_hold_in_every_state
                  (affinity := rowid_of_decimal)) one_tank Hreach).
Defined.



Lemma empty_date_on_create_and_on_update_witness :
  truthy (lastCleanedDate empty_date_body) = false
  ∧ (∃ st' k row,
       post_equipment noon empty_date_body initialize
       = (st', mkResponse 201
                 (Saved (lit "Equipment created successfully")
                    (Some (k, row))))
       ∧ equipment st' !! k = Some row
       ∧ Columns.lastCleanedDate row = None)
  ∧ (∃ first,
       put_equipment (affinity := rowid_of_decimal) later (lit "1")
         empty_date_body one_tank
       = (one_tank,
          mkResponse 400 (Invalid (lit "Validation failed") [first]))).
Proof.
  destruct (empty_date_on_create_and_on_update (affinity := rowid_of_decimal)
              noon empty_date_body initialize) as (_ & Hcreate & _).
  destruct (empty_date_on_create_and_on_update (affinity := rowid_of_decimal)
              later empty_date_body one_tank) as (_ & _ & Hupdate).
  split; [reflexivity |]. split.
  - apply Hcreate; reflexivity.
  - eapply Hupdate.
    + split; reflexivity.
    + vm_compute. reflexivity.
    + reflexivity.
Defined.

Lemma put_unknown_id_is_404_witness :
  numeric_id (lit "999999")
  ∧ put_equipment (affinity := rowid_of_decimal) noon (lit "999999")
      bad_body one_tank
    = (one_tank,
       mkResponse 404 (NotFound (lit "Equipment not found") (Some 999999)))
  ∧ put_equipment (affinity := rowid_of_decimal) noon (lit "999999")
      empty_body one_tank
    = (one_tank,
       mkResponse 404 (NotFound (lit "Equipment not found") (Some 999999)))
  ∧ put_equipment (affinity := rowid_of_decimal) noon id_2_53_plus_1
      empty_body one_tank
    = (one_tank,
       mkResponse 404
         (NotFound (lit "Equipment not found") (Some 9007199254740992))).
Proof.
  assert (Hid : numeric_id (lit "999999")) by (split; reflexivity).
  assert (Hnone : db_get (affinity := rowid_of_decimal) (lit "999999")
                    one_tank = None) by (vm_compute; reflexivity).
  assert (Hbig : numeric_id id_2_53_plus_1) by (split; reflexivity).
  assert (Hbignone : db_get (affinity := rowid_of_decimal) id_2_53_plus_1
                       one_tank = None) by (vm_compute; reflexivity).
  split; [exact Hid |]. split; [| split].
  - exact (proj1 (put_unknown_id_is_404 (affinity := rowid_of_decimal)
                    noon (lit "999999") bad_body one_tank Hid Hnone)).
  - exact (proj1 (put_unknown_id_is_404 (affinity := rowid_of_decimal)
                    noon (lit "999999") empty_body one_tank Hid Hnone)).
  - exact (proj1 (put_unknown_id_is_404 (affinity := rowid_of_decimal)
                    noon id_2_53_plus_1 empty_body one_tank Hbig Hbignone)).
Defined.

(* ===================================================================== *)
(** ** The further statements at concrete requests *)
(* ===================================================================== *)

Lemma refused_requests_change_nothing_witness :
  code (handle (affinity := rowid_of_decimal) noon (POST_equipment bad_body)
          one_tank).2 = 400
  ∧ (handle (affinity := rowid_of_decimal) noon (POST_equipment bad_body)
       one_tank).1 = one_tank.
Proof.
  split; [reflexivity |].
  apply (proj1 (refused_requests_change_nothing (affinity := rowid_of_decimal)
                  noon (POST_equipment bad_body) one_tank));
    vm_compute; discriminate.
Defined.

Lemma checked_values_keep_the_constraints_witness :
  create_errors tank_body = []
  ∧ (∃ st' k,
       db_run_insert (JStr (trim_of (name tank_body))) (type tank_body)
         (status tank_body)
         (if truthy (lastCleanedDate tank_body)
          then lastCleanedDate tank_body else JNull)
         later one_tank
       = Ok (st', k))
  ∧ update_clauses status_only
    = Next [Set_status (JStr (lit "Under Maintenance"))]
  ∧ ∃ st',
      db_run_update (affinity := rowid_of_decimal)
        ([Set_status (JStr (lit "Under Maintenance"))]
         ++ [Set_updatedAt_CURRENT_TIMESTAMP])
        (lit "1") later one_tank
      = Ok st'.
Proof.
  assert (Hchecked : create_errors tank_body = []) by reflexivity.
  assert (Hclauses : update_clauses status_only
                     = Next [Set_status (JStr (lit "Under Maintenance"))])
    by reflexivity.
  destruct (checked_values_keep_the_constraints
              (affinity := rowid_of_decimal) later (lit "1") tank_body
              one_tank) as [Hinsert _].
  destruct (checked_values_keep_the_constraints
              (affinity := rowid_of_decimal) later (lit "1") status_only
              one_tank) as (_ & Hupdate & _).
  split; [exact Hchecked |]. split.
  - apply (proj1 (Hinsert Hchecked)). vm_compute. reflexivity.
  - split; [exact Hclauses |]. exact (Hupdate _ Hclauses).
Defined.

Lemma update_without_fields_witness :
  put_equipment (affinity := rowid_of_decimal) later (lit "1") empty_body
    one_tank
  = (one_tank, mkResponse 400 (Refused (lit "No fields to update"))).
Proof.
  apply (proj2 (update_without_fields (affinity := rowid_of_decimal)
                  later (lit "1") empty_body one_tank)).
  split; [split; reflexivity |].
  split; [eexists; vm_compute; reflexivity |].
  repeat split.
Defined.

Lemma rows_keep_what_is_checked_witness :
  reachable (affinity := rowid_of_decimal) one_tank
  ∧ equipment one_tank !! 1 = Some (created_row noon tank_body)
  ∧ Columns.name (created_row noon tank_body) = lit "Tank 1"
  ∧ trim (lit "Tank 1") = lit "Tank 1"
  ∧ lastCleanedDate array_date_body = JArr [JStr (lit "2025-12-15")]
  ∧ code (post_equipment noon array_date_body initialize).2 = 201
  ∧ ∃ k row,
      equipment (post_equipment noon array_date_body initialize).1 !! k
      = Some row
      ∧ Columns.lastCleanedDate row = Some (lit "[object Object]").
Proof.
  assert (Hreach : reachable (affinity := rowid_of_decimal) one_tank).
  { exists [(noon, POST_equipment tank_body)]. vm_compute. reflexivity. }
  assert (Hrow : equipment one_tank !! 1 = Some (created_row noon tank_body))
    by (vm_compute; reflexivity).
  assert (Hcode : code (post_equipment noon array_date_body initialize).2
                  = 201) by reflexivity.
  destruct (rows_keep_what_is_checked (affinity := rowid_of_decimal))
    as (_ & Hreached & Harray).
  split; [exact Hreach |]. split; [exact Hrow |]. split; [reflexivity |].
  split.
  { exact (proj1 (proj2 (Hreached one_tank Hreach 1
                           (created_row noon tank_body) Hrow))). }
  split; [reflexivity |]. split; [exact Hcode |].
  exact (proj2 (Harray noon array_date_body initialize
                  [JStr (lit "2025-12-15")] eq_refl Hcode)).
Defined.

Lemma creation_time_and_deleted_ids_witness :
  store_wf one_tank
  ∧ (∀ r',
       equipment
         (serve (affinity := rowid_of_decimal)
            [(later, PUT_equipment (lit "1") status_only)] one_tank).1 !! 1
       = Some r' →
       Columns.createdAt r' = noon)
  ∧ equipment
      (serve (affinity := rowid_of_decimal)
         [(later, DELETE_equipment (lit "1"));
          (later, POST_equipment tank_body)] one_tank).1 !! 1
    = None.
Proof.
  assert (Hwf : store_wf one_tank).
  { apply (reachable_wf (affinity := rowid_of_decimal)).
    exists [(noon, POST_equipment tank_body)]. vm_compute. reflexivity. }
  split; [exact Hwf |]. split.
  - intros r'.
    apply (proj1 (creation_time_and_deleted_ids (affinity := rowid_of_decimal)
                    [(later, PUT_equipment (lit "1") status_only)]
                    one_tank 1 Hwf) (created_row noon tank_body)).
    vm_compute. reflexivity.
  - assert (Hgone : store_wf (delete_equipment (affinity := rowid_of_decimal)
                                (lit "1") one_tank).1).
    { apply (reachable_wf (affinity := rowid_of_decimal)).
      exists [(noon, POST_equipment tank_body);
              (later, DELETE_equipment (lit "1"))].
      vm_compute. reflexivity. }
    apply (proj2 (creation_time_and_deleted_ids (affinity := rowid_of_decimal)
                    [(later, POST_equipment tank_body)]
                    (delete_equipment (affinity := rowid_of_decimal)
                       (lit "1") one_tank).1 1 Hgone)).
    + vm_compute. discriminate.
    + vm_compute. reflexivity.
Defined.

Lemma create_adds_one_row_witness :
  store_wf one_tank
  ∧ code (post_equipment later odd_date_body one_tank).2 = 201
  ∧ ∃ k row,
      post_equipment later odd_date_body one_tank
      = ({| equipment := <[k := row]> (equipment one_tank);
            sqlite_sequence := k |},
         mkResponse 201
           (Saved (lit "Equipment created successfully") (Some (k, row))))
      ∧ equipment one_tank !! k = None
      ∧ Columns.createdAt row = later ∧ Columns.updatedAt row = later
      ∧ db_all (post_equipment later odd_date_body one_tank).1
        = (k, row) :: db_all one_tank
      ∧ size (equipment (post_equipment later odd_date_body one_tank).1)
        = S (size (equipment one_tank)).
Proof.
  assert (Hwf : store_wf one_tank).
  { apply (reachable_wf (affinity := rowid_of_decimal)).
    exists [(noon, POST_equipment tank_body)]. vm_compute. reflexivity. }
  assert (Hcode : code (post_equipment later odd_date_body one_tank).2 = 201)
    by reflexivity.
  split; [exact Hwf |]. split; [exact Hcode |].
  exact (create_adds_one_row later odd_date_body one_tank Hwf Hcode).
Defined.

Lemma delete_and_listing_witness :
  numeric_id (lit "1")
  ∧ db_get (affinity := rowid_of_decimal) (lit "1") one_tank
    = Some (1, created_row noon tank_body)
  ∧ db_all (delete_equipment (affinity := rowid_of_decimal) (lit "1")
              one_tank).1
    = filter (λ x, x.1 ≠ 1) (db_all one_tank)
  ∧ length (db_all one_tank)
    = S (length (db_all (delete_equipment (affinity := rowid_of_decimal)
                           (lit "1") one_tank).1))
  ∧ ∀ r', (1, r') ∉ db_all (delete_equipment (affinity := rowid_of_decimal)
                              (lit "1") one_tank).1.
Proof.
  assert (Hid : numeric_id (lit "1")) by (split; reflexivity).
  assert (Hsel : db_get (affinity := rowid_of_decimal) (lit "1") one_tank
                 = Some (1, created_row noon tank_body))
    by (vm_compute; reflexivity).
  split; [exact Hid |]. split; [exact Hsel |].
  exact (delete_and_listing (affinity := rowid_of_decimal) (lit "1") one_tank
           1 (created_row noon tank_body) Hid Hsel).
Defined.

Lemma update_and_listing_witness :
  code (put_equipment (affinity := rowid_of_decimal) later (lit "1")
          status_only one_tank).2 = 200
  ∧ ∃ k r',
      (put_equipment (affinity := rowid_of_decimal) later (lit "1")
         status_only one_tank).2
      = mkResponse 200
          (Saved (lit "Equipment updated successfully") (Some (k, r')))
      ∧ db_all (put_equipment (affinity := rowid_of_decimal) later (lit "1")
                  status_only one_tank).1
        = replace_row k r' <$> db_all one_tank
      ∧ (db_all (put_equipment (affinity := rowid_of_decimal) later (lit "1")
                   status_only one_tank).1).*1
        = (db_all one_tank).*1.
Proof.
  assert (Hcode : code (put_equipment (affinity := rowid_of_decimal) later
                          (lit "1") status_only one_tank).2 = 200)
    by (vm_compute; reflexivity).
  split; [exact Hcode |].
  exact (update_and_listing (affinity := rowid_of_decimal) later (lit "1")
           status_only one_tank Hcode).
Defined.

Lemma last_update_wins_witness :
  covers status_only tank_input
  ∧ put_equipment (affinity := rowid_of_decimal) later (lit "1") tank_input
      (put_equipment (affinity := rowid_of_decimal) noon (lit "1")
         status_only one_tank).1
    = put_equipment (affinity := rowid_of_decimal) later (lit "1") tank_input
        one_tank.
Proof.
  assert (Hcovers : covers status_only tank_input)
    by (repeat split; intros _; reflexivity).
  split; [exact Hcovers |].
  apply (last_update_wins (affinity := rowid_of_decimal) noon later (lit "1")
           status_only tank_input one_tank).
  - vm_compute. reflexivity.
  - vm_compute. reflexivity.
  - exact Hcovers.
Defined.

Lemma client_path_is_read_back_witness :
  path_of_id 1 = lit "1"
  ∧ parseInt (path_of_id 1) = Some 1
  ∧ delete_equipment (affinity := rowid_of_decimal) (path_of_id 1) one_tank
    = ({| equipment := delete 1 (equipment one_tank);
          sqlite_sequence := sqlite_sequence one_tank |},
       mkResponse 200
         (Removed (lit "Equipment deleted successfully") (Some 1))).
Proof.
  assert (Hsafe : - MAX_SAFE_INTEGER ≤ 1 ≤ MAX_SAFE_INTEGER)
    by (unfold MAX_SAFE_INTEGER; lia).
  destruct (client_path_is_read_back (affinity := rowid_of_decimal)
              1 one_tank Hsafe) as (_ & _ & Hparse & Hread & Hdelete).
  split; [reflexivity |]. split; [exact Hparse |].
  apply (proj1 (Hdelete Hread) (created_row noon tank_body)).
  vm_compute. reflexivity.
Defined.

Lemma submitted_form_is_created_witness :
  EquipmentForm.handleSubmit never_future tank_form = Some tank_input
  ∧ Index.handleSubmit (served (H := rowid_of_decimal) later one_tank) None
      tank_input
    = Api.Resolved
        (Api.One
           (2, {| Columns.name := lit "Tank 1";
                  Columns.type := lit "Tank";
                  Columns.status := lit "Active";
                  Columns.lastCleanedDate := Some (lit "2025-12-15");
                  Columns.createdAt := later;
                  Columns.updatedAt := later |})).
Proof.
  assert (Hsubmit : EquipmentForm.handleSubmit never_future tank_form
                    = Some tank_input) by (vm_compute; reflexivity).
  split; [exact Hsubmit |].
  refine (proj1 (proj2 (proj2 (proj2 (proj2 (proj2
            (submitted_form_is_created
               (affinity := rowid_of_decimal)
               never_future tank_form tank_input later
               one_tank Hsubmit _ _ _))))))).
  - apply (bool_decide_unpack _). vm_compute. exact I.
  - apply (bool_decide_unpack _). vm_compute. exact I.
  - vm_compute. reflexivity.
Defined.

Lemma saving_a_loaded_record_touches_updatedAt_only_witness :
  EquipmentForm.handleSubmit never_future
    (EquipmentForm.load (Some (1, created_row noon tank_body)))
  = Some tank_input
  ∧ Index.handleSubmit (served (H := rowid_of_decimal) later one_tank)
      (Some (1, created_row noon tank_body)) tank_input
    = Api.Resolved
        (Api.One (1, Columns.set_updatedAt later (created_row noon tank_body))).
Proof.
  assert (Hsubmit : EquipmentForm.handleSubmit never_future
                      (EquipmentForm.load
                         (Some (1, created_row noon tank_body)))
                    = Some tank_input) by (vm_compute; reflexivity).
  split; [exact Hsubmit |].
  refine (proj1 (saving_a_loaded_record_touches_updatedAt_only
                   (affinity := rowid_of_decimal) never_future later one_tank
                   1 (created_row noon tank_body) tank_input
                   _ _ _ _ _ Hsubmit)).
  - unfold MAX_SAFE_INTEGER. lia.
  - vm_compute. reflexivity.
  - vm_compute. reflexivity.
  - split; [vm_compute; discriminate |].
    split; [vm_compute; reflexivity |].
    split; [vm_compute; reflexivity |].
    intros d [= <-]. vm_compute. reflexivity.
  - split; apply (bool_decide_unpack _); vm_compute; exact I.
Defined.

Lemma client_throws_the_error_field_witness :
  create_failures bad_body
  = [create_name_error; create_type_error; create_status_error; date_error]
  ∧ Api.addEquipment (served (H := rowid_of_decimal) noon one_tank) bad_body
    = Api.Thrown (lit "Validation failed")
  ∧ Api.deleteEquipment (served (H := rowid_of_decimal) noon one_tank) 1
    = Api.Resolved tt
  ∧ Api.deleteEquipment (served (H := rowid_of_decimal) noon one_tank) 2
    = Api.Thrown (lit "Equipment not found").
Proof.
  assert (Hsafe1 : - MAX_SAFE_INTEGER ≤ 1 ≤ MAX_SAFE_INTEGER)
    by (unfold MAX_SAFE_INTEGER; lia).
  assert (Hsafe2 : - MAX_SAFE_INTEGER ≤ 2 ≤ MAX_SAFE_INTEGER)
    by (unfold MAX_SAFE_INTEGER; lia).
  assert (Hread1 : rowid_of_text (RowidAffinity := rowid_of_decimal)
                     (path_of_id 1) = Some 1) by (vm_compute; reflexivity).
  assert (Hread2 : rowid_of_text (RowidAffinity := rowid_of_decimal)
                     (path_of_id 2) = Some 2) by (vm_compute; reflexivity).
  destruct (client_throws_the_error_field (affinity := rowid_of_decimal)
              noon one_tank 1 bad_body Hsafe1 Hread1)
    as (Hadd & _ & _ & _ & Hthere).
  destruct (client_throws_the_error_field (affinity := rowid_of_decimal)
              noon one_tank 2 bad_body Hsafe2 Hread2)
    as (_ & _ & _ & Hmissing & _).
  split; [vm_compute; reflexivity |]. split.
  - apply Hadd. vm_compute. discriminate.
  - split.
    + apply (Hthere (created_row noon tank_body)). vm_compute. reflexivity.
    + apply Hmissing. vm_compute. reflexivity.
Defined.

(* ===================================================================== *)
(** ** The language fragment at concrete strings *)
(* ===================================================================== *)

Example trim_tank : trim (lit "  Tank 1  ") = lit "Tank 1".
Proof. reflexivity. Qed.

Example isNaN_examples :
  isNaN (lit "42") = false ∧ isNaN (lit " 42 ") = false
  ∧ isNaN (lit "1e3") = false ∧ isNaN (lit "0x1f") = false
  ∧ isNaN (lit "-.5") = false ∧ isNaN (lit "Infinity") = false
  ∧ isNaN (lit "abc") = true ∧ isNaN (lit "4x") = true
  ∧ isNaN (lit ".") = true ∧ isNaN (lit "-0x1f") = true.
Proof. vm_compute. repeat split. Qed.

Example parseInt_examples :
  parseInt (lit "42") = Some 42 ∧ parseInt (lit "-7x") = Some (-7)
  ∧ parseInt (lit "0x1f") = Some 31 ∧ parseInt (lit "1e3") = Some 1
  ∧ parseInt (lit "x") = None ∧ parseInt (lit "Infinity") = None.
Proof. vm_compute. repeat split. Qed.

Example date_pattern_examples :
  date_pattern (lit "2025-12-15") = true
  ∧ date_pattern (lit "2025-13-40") = true
  ∧ date_pattern (lit "2025-1-40") = false
  ∧ date_pattern (lit "2025-12-155") = false
  ∧ date_pattern (lit "15/12/2025") = false
  ∧ date_regex_test (JNum 20251340) = false.
Proof. vm_compute. repeat split. Qed.

Example parseInt_rounds :
  parseInt (lit "9007199254740991") = Some 9007199254740991
  ∧ parseInt (lit "9007199254740993") = Some 9007199254740992
  ∧ parseInt (lit "9007199254740995") = Some 9007199254740996
  ∧ parseInt (lit "-18014398509481987") = Some (-18014398509481988)
  ∧ mathInt (lit "9007199254740993") = Some 9007199254740993
  ∧ to_double (2 ^ 1024 - 2 ^ 971) = Some (2 ^ 1024 - 2 ^ 971)
  ∧ to_double (2 ^ 1024 - 2 ^ 970) = None.
Proof. vm_compute. repeat split. Qed.

Example to_well_formed_examples :
  to_well_formed (lit "Tank 1") = lit "Tank 1"
  ∧ to_well_formed [55357; 56832]%N = [55357; 56832]%N
  ∧ to_well_formed [55296; 84]%N = [65533; 84]%N
  ∧ to_well_formed [84; 56832]%N = [84; 65533]%N
  ∧ to_well_formed [56832; 55357]%N = [65533; 65533]%N.
Proof. vm_compute. repeat split. Qed.

(** A create with a name that holds an unpaired surrogate is answered 201,
    and the record has U+FFFD in its place. *)
Example lone_surrogate_is_replaced :
  trim lone_surrogate_name = lone_surrogate_name
  ∧ (post_equipment noon lone_surrogate_body initialize).2
    = mkResponse 201
        (Saved (lit "Equipment created successfully")
           (Some (1,
                  {| Columns.name := 65533%N :: lit "Tank";
                     Columns.type := lit "Tank";
                     Columns.status := lit "Active";
                     Columns.lastCleanedDate := None;
                     Columns.createdAt := noon;
                     Columns.updatedAt := noon |}))).
Proof. vm_compute. repeat split. Qed.

Example ToString_array_examples :
  ToString (JArr [JStr (lit "2025-12-15")]) = lit "2025-12-15"
  ∧ ToString (JArr [JNum 1; JNull; JStr (lit "a")]) = lit "1,,a"
  ∧ ToString (JArr [JArr [JNum 1; JNum 2]; JObj]) = lit "1,2,[object Object]"
  ∧ ToString (JArr []) = []
  ∧ date_regex_test (JArr [JStr (lit "2025-12-15")]) = true
  ∧ date_regex_test JObj = false
  ∧ includes VALID_TYPES (JArr [JStr (lit "Tank")]) = false
  ∧ bind_text (JArr [JStr (lit "2025-12-15")]) = Some (lit "[object Object]").
Proof. vm_compute. repeat split. Qed.

Example ToString_examples :
  ToString (JNum (-12)) = lit "-12" ∧ ToString (JNum 0) = lit "0"
  ∧ ToString JNull = lit "null".
Proof. vm_compute. repeat split. Qed.
